(** * Who's on First / Wikidata bot: a shallow embedding of [index.js]

    The repository holds four revisions of the same script:
    - [src/index.js]                       (module [IndexJs]),  [wd:id] concordances, one CSRF token;
    - second document of [unnamed/part_000] (module [WdId]),     [wd:id] with the contribution history;
    - first document of [unnamed/part_001]  (module [GnId]),     [gn:id] search with place-type validation;
    - second document of [unnamed/part_001] (module [GpId]),     [gp:id] search with the local [data.sqlite].

    JavaScript values, exceptions, the HTTP peers and the local SQLite
    store are modelled explicitly.  The answers of the network are a
    script: the list of outcomes that successive calls of [fetch] and
    [cookieFetch] receive, in call order.  A run that needs more outcomes
    than the script holds is [Stuck]. *)

From Stdlib Require Import ZArith List String Ascii Bool Lia DecimalString.
Import ListNotations.
Local Open Scope string_scope.
Local Open Scope Z_scope.
Local Open Scope list_scope.
Set Warnings "-register-all".

(* ================================================================== *)
(** ** JavaScript values *)
(* ================================================================== *)

Module JS.

(** A decoded JSON document, a row of the SQLite driver, or any other
    value the script handles.  Numbers are the integers and [NaN]. *)
Inductive value : Type :=
| VUndef
| VNull
| VBool (b : bool)
| VNum (n : Z)
| VNaN
| VStr (s : string)
| VArr (elems : list value)
| VObj (fields : list (string * value)).

Inductive exn : Type :=
| TypeError (msg : string)
| ReferenceError (ident : string)
| FetchError (msg : string)
| Error (msg : string)
| SqliteError (msg : string).

(** [e.message] *)
Definition message (e : exn) : string :=
  match e with
  | TypeError m | FetchError m | Error m | SqliteError m => m
  | ReferenceError x => (x ++ " is not defined")%string
  end.

(** Result of evaluating an expression: a value or a thrown exception. *)
Inductive res (A : Type) : Type :=
| Ok (a : A)
| Throw (e : exn).
Arguments Ok {A} a.
Arguments Throw {A} e.

Definition rbind {A B} (r : res A) (k : A -> res B) : res B :=
  match r with
  | Ok a => k a
  | Throw e => Throw e
  end.

Fixpoint assoc {A : Type} (k : string) (l : list (string * A)) : option A :=
  match l with
  | [] => None
  | (k', v) :: l' => if String.eqb k k' then Some v else assoc k l'
  end.

(** [v.k] *)
Definition get (v : value) (k : string) : res value :=
  match v with
  | VUndef => Throw (TypeError ("Cannot read property '" ++ k ++ "' of undefined")%string)
  | VNull => Throw (TypeError ("Cannot read property '" ++ k ++ "' of null")%string)
  | VObj fs => Ok (match assoc k fs with Some x => x | None => VUndef end)
  | VArr l => Ok (if String.eqb k "length" then VNum (Z.of_nat (List.length l)) else VUndef)
  | VStr s => Ok (if String.eqb k "length" then VNum (Z.of_nat (String.length s)) else VUndef)
  | VBool _ | VNum _ | VNaN => Ok VUndef
  end.

(** [v[0]] *)
Definition first (v : value) : res value :=
  match v with
  | VUndef => Throw (TypeError "Cannot read property '0' of undefined")
  | VNull => Throw (TypeError "Cannot read property '0' of null")
  | VArr l => Ok (match l with x :: _ => x | [] => VUndef end)
  | VStr s => Ok (match s with String c _ => VStr (String c EmptyString) | EmptyString => VUndef end)
  | VObj fs => Ok (match assoc "0" fs with Some x => x | None => VUndef end)
  | VBool _ | VNum _ | VNaN => Ok VUndef
  end.

(** ToBoolean *)
Definition truthy (v : value) : bool :=
  match v with
  | VUndef | VNull | VNaN => false
  | VBool b => b
  | VNum n => negb (n =? 0)
  | VStr s => negb (String.eqb s EmptyString)
  | VArr _ | VObj _ => true
  end.

(** [typeof v === 'undefined'] *)
Definition is_undefined (v : value) : bool :=
  match v with VUndef => true | _ => false end.

(** [v === 'lit'] *)
Definition is_string (v : value) (lit : string) : bool :=
  match v with VStr s => String.eqb s lit | _ => false end.

(** [v === n] for a number literal [n] *)
Definition is_number (v : value) (n : Z) : bool :=
  match v with VNum m => m =? n | _ => false end.

(** SameValueZero, the equality of [Set] and [Map] keys.  Objects and
    arrays are compared by reference; every object the script meets comes
    out of a fresh [JSON.parse], so two of them are never the same. *)
Definition same_value_zero (a b : value) : bool :=
  match a, b with
  | VUndef, VUndef | VNull, VNull | VNaN, VNaN => true
  | VBool x, VBool y => Bool.eqb x y
  | VNum x, VNum y => x =? y
  | VStr x, VStr y => String.eqb x y
  | _, _ => false
  end.

(** [arr.find(pred)], where [arr] is whatever value the property held: a
    value that is not an array has no callable [find]. *)
Fixpoint find_in (pred : value -> res bool) (l : list value) : res value :=
  match l with
  | [] => Ok VUndef
  | x :: l' =>
      match pred x with
      | Throw e => Throw e
      | Ok true => Ok x
      | Ok false => find_in pred l'
      end
  end.

Definition find (arr : value) (pred : value -> res bool) : res value :=
  match arr with
  | VArr l => find_in pred l
  | VUndef | VNull => Throw (TypeError "Cannot read property 'find' of undefined")
  | _ => Throw (TypeError "find is not a function")
  end.

(** [arr.map(f)] *)
Fixpoint map_in (f : value -> res value) (l : list value) : res (list value) :=
  match l with
  | [] => Ok []
  | x :: l' =>
      match f x with
      | Throw e => Throw e
      | Ok y => match map_in f l' with
                | Throw e => Throw e
                | Ok ys => Ok (y :: ys)
                end
      end
  end.

Definition map (arr : value) (f : value -> res value) : res (list value) :=
  match arr with
  | VArr l => map_in f l
  | VUndef | VNull => Throw (TypeError "Cannot read property 'map' of undefined")
  | _ => Throw (TypeError "map is not a function")
  end.

(** *** [parseInt(v, 10)] *)

Definition is_space (c : ascii) : bool :=
  let n := nat_of_ascii c in
  (Nat.eqb n 32 || (Nat.leb 9 n && Nat.leb n 13))%bool.

Definition digit (c : ascii) : option Z :=
  let n := nat_of_ascii c in
  if (Nat.leb 48 n && Nat.leb n 57)%bool then Some (Z.of_nat n - 48) else None.

Fixpoint skip_spaces (s : string) : string :=
  match s with
  | String c s' => if is_space c then skip_spaces s' else s
  | EmptyString => s
  end.

(** The digits at the head of [s], most significant first, on top of [acc]. *)
Fixpoint digits (s : string) (acc : option Z) : option Z :=
  match s with
  | String c s' =>
      match digit c with
      | Some d => digits s' (Some (10 * match acc with Some a => a | None => 0 end + d))
      | None => acc
      end
  | EmptyString => acc
  end.

Definition number_of (o : option Z) (sign : Z) : value :=
  match o with Some n => VNum (sign * n) | None => VNaN end.

Definition parseInt_string (s : string) : value :=
  match skip_spaces s with
  | String "-"%char s' => number_of (digits s' None) (-1)
  | String "+"%char s' => number_of (digits s' None) 1
  | s' => number_of (digits s' None) 1
  end.

(** [parseInt] first turns its argument into a string: a number prints as
    its digits, an array as its elements joined by commas, and
    [undefined], [null], booleans and objects as words without digits. *)
Fixpoint parseInt (v : value) : value :=
  match v with
  | VNum n => VNum n
  | VStr s => parseInt_string s
  | VArr (x :: _) =>
      match x with
      | VUndef | VNull => VNaN
      | _ => parseInt x
      end
  | _ => VNaN
  end.

End JS.
Export JS.

Declare Scope res_scope.
Delimit Scope res_scope with res.
Notation "x <- r ;; k" := (rbind r (fun x => k))
  (at level 61, r at next level, right associativity) : res_scope.

(* ================================================================== *)
(** ** Template literals, requests and responses *)
(* ================================================================== *)

(** A template literal [`lit${v}lit`], or a value handed to
    [searchParams.set] / [formData.set], which the callee turns into a
    string.  The substituted value is kept as it is. *)
Inductive frag : Type :=
| Lit (s : string)
| Sub (v : value)
| Locale (v : value)        (* [v.toLocaleString()] *)
| Percent (i size : Z)      (* [Math.floor((i / size) * 100)], a floating-point quotient *)
| Join (l : list value) (sep : string).   (* [l.join(sep)] *)

Definition template := list frag.

Definition lit (s : string) : template := [Lit s].
Definition sub (v : value) : template := [Sub v].

Inductive http_method := GET | POST.

Record request : Type := mkRequest {
  url : string;
  searchParams : list (string * template);
  method : http_method;
  body : list (string * template)
}.

(** [params.set(k, v)]: replace the first value of [k], or append. *)
Fixpoint set_param (k : string) (v : template) (ps : list (string * template))
  : list (string * template) :=
  match ps with
  | [] => [(k, v)]
  | (k', v') :: ps' =>
      if String.eqb k k' then (k, v) :: ps' else (k', v') :: set_param k v ps'
  end.

Definition param (k : string) (ps : list (string * template)) : option template :=
  assoc k ps.

Record response : Type := mkResponse {
  status : Z;
  statusText : string;
  json : option value     (* [None]: the body is not a JSON document *)
}.

(** [response.ok] *)
Definition ok (r : response) : bool := (200 <=? status r) && (status r <=? 299).

(** What one call of [fetch] or [cookieFetch] meets. *)
Inductive outcome : Type :=
| NetworkError (msg : string)
| Response (r : response).

(** [await response.json()] *)
Definition decode (r : response) : res value :=
  match json r with
  | Some v => Ok v
  | None => Throw (FetchError "invalid json response body")
  end.

Inductive client := PlainFetch | CookieFetch.

(** What a transport does while it runs. *)
Inductive io : Type :=
| Fetch (c : client) (req : request)
| Timeout (ms : Z)
| ConsoleLog (t : template)
| ConsoleError (v : value)
| ConsoleErrorText (t : template).

(** How a call, or the whole run, ends.  [Stuck]: the script of outcomes
    ran out while a request was waiting for its answer. *)
Inductive completion (A : Type) : Type :=
| Done (a : A)
| Threw (e : exn)
| Stuck.
Arguments Done {A} a.
Arguments Threw {A} e.
Arguments Stuck {A}.

(** What one pass through the body of a transport decides. *)
Inductive action : Type :=
| Return (data : value)
| Retry (iteration : Z).

(** [({name}) => name === lit] *)
Definition named (lit : string) (m : value) : res bool :=
  (name <- get m "name" ;; Ok (is_string name lit))%res.

(** [timeout(seconds * 1000)] after the two lines every backoff prints. *)
Definition backoff_wait (seconds : Z) : list io :=
  [ConsoleLog [Lit "Retrying in "; Locale (VNum seconds); Lit " seconds"];
   Timeout (seconds * 1000)].

(* ================================================================== *)
(** ** The transports of [unnamed/part_001] (both documents) *)
(* ================================================================== *)

Module Transport.

(** The identifier [repsonse] of lines 69 and 100 (479 and 510 in the
    second document) is bound nowhere in the file, so evaluating it
    throws. *)
Definition repsonse : res value := Throw (ReferenceError "repsonse").

(** [`Request Error: ${response.status} ${repsonse.statusText}`] *)
Definition request_error_line (response : response) : res template :=
  (r <- repsonse ;;
   text <- get r "statusText" ;;
   Ok [Lit "Request Error: "; Sub (VNum (status response)); Lit " "; Sub text])%res.

(** The [catch (e)] block shared by both transports. *)
Definition catch_block (e : exn) (iteration : Z) : list io * action :=
  let seconds := 2 ^ iteration in
  (ConsoleLog [Lit "Request Error: "; Sub (VStr (message e))] :: backoff_wait seconds,
   Retry (iteration + 1)).

(** *** [backoffFetch], lines 63-85 (473-495) *)

Definition backoffFetch_try (o : outcome) (iteration : Z) : list io * res action :=
  match o with
  | NetworkError msg => ([], Throw (FetchError msg))
  | Response response =>
      if negb (ok response) then
        let seconds := 2 ^ iteration in
        match request_error_line response with
        | Throw e => ([], Throw e)
        | Ok line => (ConsoleLog line :: backoff_wait seconds, Ok (Retry (iteration + 1)))
        end
      else
        match decode response with
        | Throw e => ([], Throw e)
        | Ok data => ([], Ok (Return data))
        end
  end.

Definition backoffFetch_attempt (o : outcome) (iteration : Z) : list io * action :=
  match backoffFetch_try o iteration with
  | (log, Ok a) => (log, a)
  | (log, Throw e) => let (log', a) := catch_block e iteration in (log ++ log', a)
  end.

Fixpoint backoffFetch (input : request) (script : list outcome) (iteration : Z)
  : list io * completion value * list outcome :=
  match script with
  | [] => ([Fetch PlainFetch input], Stuck, [])
  | o :: rest =>
      match backoffFetch_attempt o iteration with
      | (log, Return data) => (Fetch PlainFetch input :: log, Done data, rest)
      | (log, Retry n) =>
          let '(log', r, rest') := backoffFetch input rest n in
          (Fetch PlainFetch input :: log ++ log', r, rest')
      end
  end.

(** *** [retryFetch], lines 94-138 (504-548) *)

(** The [if (!response.ok) { ... }] block: [Some a] when it returns,
    [None] when control falls out of it. *)
Definition not_ok_block (response : response) (iteration : Z)
  : list io * res (option action) :=
  let seconds := 2 ^ iteration in
  match request_error_line response with
  | Throw e => ([], Throw e)
  | Ok line =>
      if 500 <=? status response then
        (ConsoleLog line :: backoff_wait seconds, Ok (Some (Retry (iteration + 1))))
      else
        ([ConsoleLog line], Ok None)
  end.

(** From [if ( data.error )] to the final [return data]. *)
Definition envelope_block (data : value) : list io * res action :=
  match get data "error" with
  | Throw e => ([], Throw e)
  | Ok error =>
      if truthy error then
        match get error "messages" with
        | Throw e => ([], Throw e)
        | Ok messages =>
            if truthy messages then
              match find messages (named "actionthrottledtext") with
              | Throw e => ([], Throw e)
              | Ok throttled =>
                  if truthy throttled then
                    ([ConsoleLog (lit "Request Throttled, Retrying in 60 seconds");
                      Timeout (1000 * 60)],
                     Ok (Retry 0))
                  else
                    match find messages (named "no-permission") with
                    | Throw e => ([], Throw e)
                    | Ok denied =>
                        if truthy denied then
                          ([ConsoleErrorText (lit "Permission Denied!")], Ok (Return data))
                        else
                          ([ConsoleError error], Ok (Return data))
                    end
              end
            else
              ([ConsoleError error], Ok (Return data))
        end
      else
        ([], Ok (Return data))
  end.

Definition retryFetch_try (o : outcome) (iteration : Z) : list io * res action :=
  match o with
  | NetworkError msg => ([], Throw (FetchError msg))
  | Response response =>
      let '(log, r) :=
        if negb (ok response) then not_ok_block response iteration else ([], Ok None) in
      match r with
      | Throw e => (log, Throw e)
      | Ok (Some a) => (log, Ok a)
      | Ok None =>
          match decode response with
          | Throw e => (log, Throw e)
          | Ok data => let (log', r') := envelope_block data in (log ++ log', r')
          end
      end
  end.

Definition retryFetch_attempt (o : outcome) (iteration : Z) : list io * action :=
  match retryFetch_try o iteration with
  | (log, Ok a) => (log, a)
  | (log, Throw e) => let (log', a) := catch_block e iteration in (log ++ log', a)
  end.

(** [input] carries the URL and the [options] (method and body).  Every
    recursive call of the source is a tail call outside the reach of the
    caller's [catch], hence the loop over the script. *)
Fixpoint retryFetch (input : request) (script : list outcome) (iteration : Z)
  : list io * completion value * list outcome :=
  match script with
  | [] => ([Fetch CookieFetch input], Stuck, [])
  | o :: rest =>
      match retryFetch_attempt o iteration with
      | (log, Return data) => (Fetch CookieFetch input :: log, Done data, rest)
      | (log, Retry n) =>
          let '(log', r, rest') := retryFetch input rest n in
          (Fetch CookieFetch input :: log ++ log', r, rest')
      end
  end.

End Transport.

(* ================================================================== *)
(** ** The run: network script, local store, trace *)
(* ================================================================== *)

(** [Set], kept in insertion order. *)
Definition jsset := list value.

Definition set_has (s : jsset) (v : value) : bool := existsb (same_value_zero v) s.

Definition set_add (s : jsset) (v : value) : jsset :=
  if set_has s v then s else s ++ [v].

Definition set_delete (s : jsset) (v : value) : jsset :=
  filter (fun x => negb (same_value_zero v x)) s.

(** [Map], kept in insertion order: [set] on a key that is present
    replaces the value where it stands. *)
Definition jsmap (A : Type) := list (value * A).

Fixpoint map_set {A} (m : jsmap A) (k : value) (a : A) : jsmap A :=
  match m with
  | [] => [(k, a)]
  | (k', a') :: m' =>
      if same_value_zero k k' then (k, a) :: m' else (k', a') :: map_set m' k a
  end.

Definition map_has {A} (m : jsmap A) (k : value) : bool :=
  existsb (fun e => same_value_zero k (fst e)) m.

Definition map_delete {A} (m : jsmap A) (k : value) : jsmap A :=
  filter (fun e => negb (same_value_zero k (fst e))) m.

Definition map_values {A} (m : jsmap A) : list A := List.map snd m.

(** The two tables of [data/data.sqlite]:
    [map (wd TEXT NOT NULL, wof INTEGER NOT NULL, PRIMARY KEY (wd, wof))] and
    [woeid (id INTEGER NOT NULL, PRIMARY KEY (id))]. *)
Record store : Type := mkStore {
  map_table : list (string * Z);
  other_table : list Z
}.

Inductive statement : Type :=
| CreateMapTable
| CreateOtherTable
| SelectMap
| SelectOther
| InsertMap (wd wof : value)
| InsertOrIgnoreOther (id : value).

Inductive wrapper := RetryFetch | BackoffFetch.

(** What [main] does, in order. *)
Inductive event : Type :=
| Direct (c : client) (req : request)
| Call (f : wrapper) (req : request) (ios : list io) (result : completion value)
| Log (t : template)
| LogError (v : value)
| Sql (s : statement).

Record world : Type := mkWorld {
  script : list outcome;
  db : store;
  trace : list event
}.

Definition M (A : Type) : Type := world -> completion A * world.

Definition ret {A} (a : A) : M A := fun w => (Done a, w).

Definition bind {A B} (m : M A) (k : A -> M B) : M B :=
  fun w =>
    match m w with
    | (Done a, w') => k a w'
    | (Threw e, w') => (Threw e, w')
    | (Stuck, w') => (Stuck, w')
    end.

Definition throw {A} (e : exn) : M A := fun w => (Threw e, w).

Definition emit (ev : event) : M unit :=
  fun w => (Done tt, mkWorld (script w) (db w) (trace w ++ [ev])).

(** Evaluate an expression that may throw. *)
Definition eval {A} (r : res A) : M A :=
  match r with
  | Ok a => ret a
  | Throw e => throw e
  end.

Declare Scope run_scope.
Delimit Scope run_scope with run.
Notation "x <- m ;; k" := (bind m (fun x => k))
  (at level 61, m at next level, right associativity) : run_scope.
Notation "m ;; k" := (bind m (fun _ => k))
  (at level 61, right associativity) : run_scope.

Definition log (t : template) : M unit := emit (Log t).

(** [await (await fetch(req)).json()] written in [main] itself. *)
Definition fetch_json (c : client) (req : request) : M value :=
  fun w =>
    let w' := mkWorld (tl (script w)) (db w) (trace w ++ [Direct c req]) in
    match script w with
    | [] => (Stuck, w')
    | NetworkError msg :: _ => (Threw (FetchError msg), w')
    | Response r :: _ =>
        match decode r with
        | Ok v => (Done v, w')
        | Throw e => (Threw e, w')
        end
    end.

(** [await f(req)] for a transport [f] that loops over the script. *)
Definition call (name : wrapper)
    (f : request -> list outcome -> list io * completion value * list outcome)
    (req : request) : M value :=
  fun w =>
    let '(ios, r, rest) := f req (script w) in
    (r, mkWorld rest (db w) (trace w ++ [Call name req ios r])).

(** *** SQLite bindings *)

Definition string_of_Z (n : Z) : string :=
  DecimalString.NilZero.string_of_int (Z.to_int n).

(** A value bound to a [TEXT] column; [None] is [NULL].  An array or an
    object in the place of a parameter is not a column value: the driver
    takes it for the list of parameters, and the column stays unbound. *)
Definition bind_text (v : value) : option string :=
  match v with
  | VStr s => Some s
  | VNum n => Some (string_of_Z n)
  | VBool b => Some (if b then "1" else "0")
  | VUndef | VNull | VNaN | VArr _ | VObj _ => None
  end.

(** A value bound to an [INTEGER] column; [None] is [NULL] or a value that
    is no integer.  Text is taken when it is the decimal form of an
    integer. *)
Definition bind_integer (v : value) : option Z :=
  match v with
  | VNum n => Some n
  | VBool b => Some (if b then 1 else 0)
  | VStr s =>
      match parseInt_string s with
      | VNum n => if String.eqb (string_of_Z n) s then Some n else None
      | _ => None
      end
  | _ => None
  end.

Definition pair_eqb (a b : string * Z) : bool :=
  String.eqb (fst a) (fst b) && (snd a =? snd b).

(** [INSERT INTO map VALUES (?, ?)] *)
Definition insert_map (wd wof : value) (d : store) : res store :=
  match bind_text wd, bind_integer wof with
  | Some s, Some n =>
      if existsb (pair_eqb (s, n)) (map_table d)
      then Throw (SqliteError "SQLITE_CONSTRAINT: UNIQUE constraint failed: map.wd, map.wof")
      else Ok (mkStore (map_table d ++ [(s, n)]) (other_table d))
  | _, _ => Throw (SqliteError "SQLITE_CONSTRAINT: NOT NULL constraint failed")
  end.

(** [INSERT OR IGNORE INTO woeid VALUES (?)] *)
Definition insert_or_ignore_other (id : value) (d : store) : res store :=
  match bind_integer id with
  | Some n =>
      if existsb (Z.eqb n) (other_table d) then Ok d
      else Ok (mkStore (map_table d) (other_table d ++ [n]))
  | None => Throw (SqliteError "SQLITE_MISMATCH: datatype mismatch")
  end.

(** [await db.run(stmt, ...)]: a failure is thrown into [main]. *)
Definition db_run_await (stmt : statement) (f : store -> res store) : M unit :=
  fun w =>
    let t := trace w ++ [Sql stmt] in
    match f (db w) with
    | Ok d => (Done tt, mkWorld (script w) d t)
    | Throw e => (Threw e, mkWorld (script w) (db w) t)
    end.

(** [db.run(stmt, ...)] whose promise nobody awaits: the statement is
    queued and [main] goes on; when it fails the rejection is not handled
    and the table is as before. *)
Definition db_run_detached (stmt : statement) (f : store -> res store) : M unit :=
  fun w =>
    let t := trace w ++ [Sql stmt] in
    match f (db w) with
    | Ok d => (Done tt, mkWorld (script w) d t)
    | Throw _ => (Done tt, mkWorld (script w) (db w) t)
    end.

(** [await db.all('SELECT wd, wof FROM map')] *)
Definition select_map : M (list value) :=
  fun w =>
    (Done (List.map (fun r => VObj [("wd", VStr (fst r)); ("wof", VNum (snd r))]) (map_table (db w))),
     mkWorld (script w) (db w) (trace w ++ [Sql SelectMap])).

(** [await db.all(`SELECT id FROM woeid`)] *)
Definition select_other : M (list value) :=
  fun w =>
    (Done (List.map (fun n => VObj [("id", VNum n)]) (other_table (db w))),
     mkWorld (script w) (db w) (trace w ++ [Sql SelectOther])).

(* ================================================================== *)
(** ** The Who's on First SQLite distributions *)
(* ================================================================== *)

Inductive sqlval : Type :=
| SNull
| SInt (n : Z)
| SText (s : string).

(** A column as the driver hands it to JavaScript. *)
Definition js_of_sql (v : sqlval) : value :=
  match v with
  | SNull => VNull
  | SInt n => VNum n
  | SText s => VStr s
  end.

Record spr_row : Type := mkSpr {
  spr_id : sqlval;
  spr_placetype : sqlval;
  spr_is_current : sqlval;
  spr_is_deprecated : sqlval
}.

Record concordance : Type := mkConcordance {
  c_id : sqlval;
  c_other_id : sqlval;
  c_other_source : sqlval
}.

Record wof_db : Type := mkWof {
  name : string;
  spr : list spr_row;
  concordances : list concordance
}.

(** A row of the query results: [{ id, placetype, other_id }]; the
    [gp:id] query selects no [placetype], which then reads [undefined]. *)
Record item : Type := mkItem {
  id : value;
  placetype : value;
  other_id : value
}.

Module Sql.

(** Three-valued logic: [None] is [NULL].  The columns compared with
    numbers ([id], [other_id], [is_current], [is_deprecated]) are declared
    [INTEGER]: text that reads as a number is stored as that number, so a
    stored text never equals an integer. *)
Definition eq (a b : sqlval) : option bool :=
  match a, b with
  | SNull, _ | _, SNull => None
  | SInt x, SInt y => Some (x =? y)
  | SText x, SText y => Some (String.eqb x y)
  | _, _ => Some false
  end.

Definition not (a : option bool) : option bool := option_map negb a.

Definition and (a b : option bool) : option bool :=
  match a, b with
  | Some false, _ | _, Some false => Some false
  | Some true, Some true => Some true
  | _, _ => None
  end.

Definition or (a b : option bool) : option bool :=
  match a, b with
  | Some true, _ | _, Some true => Some true
  | Some false, Some false => Some false
  | _, _ => None
  end.

(** [x IN (l)] *)
Definition is_in (x : sqlval) (l : list sqlval) : option bool :=
  fold_right (fun y acc => or (eq x y) acc) (Some false) l.

(** A [WHERE], [ON] or [HAVING] condition keeps the row when it is true. *)
Definition holds (c : option bool) : bool :=
  match c with Some true => true | _ => false end.

(** [spr INNER JOIN concordances AS c ON spr.id = c.id] *)
Definition joined : Type := spr_row * concordance.

Definition inner_join (d : wof_db) : list joined :=
  flat_map (fun s =>
    List.map (fun c => (s, c))
      (filter (fun c => holds (eq (spr_id s) (c_id c))) (concordances d)))
    (spr d).

(** [GROUP BY spr.id]: [NULL] keys fall in one group. *)
Definition same_group (a b : sqlval) : bool :=
  match a, b with
  | SNull, SNull => true
  | SInt x, SInt y => x =? y
  | SText x, SText y => String.eqb x y
  | _, _ => false
  end.

(** A group is its first row and the rows that joined it later. *)
Definition group : Type := joined * list joined.

Fixpoint add_to_groups (r : joined) (gs : list group) : list group :=
  match gs with
  | [] => [(r, [])]
  | (r0, more) :: gs' =>
      if same_group (spr_id (fst r0)) (spr_id (fst r))
      then (r0, more ++ [r]) :: gs'
      else (r0, more) :: add_to_groups r gs'
  end.

Definition group_by (rows : list joined) : list group :=
  fold_left (fun gs r => add_to_groups r gs) rows [].

Definition bad_ids : list sqlval := [SInt (-99); SInt (-1); SInt 0].

Section Queries.

(** The columns of the select list are bare columns of an aggregate
    query: SQLite takes them from some row of the group, which row is
    not specified. *)
Variable pick : joined -> list joined -> joined.

(** Lines 332-345 of the first document of [part_001]. *)
Definition gn_where (r : joined) : option bool :=
  and (and (not (eq (spr_is_deprecated (fst r)) (SInt 1)))
           (eq (c_other_source (snd r)) (SText "gn:id")))
      (not (is_in (c_other_id (snd r)) bad_ids)).

Definition gn_having (r : joined) : option bool :=
  not (eq (c_other_source (snd r)) (SText "wd:id")).

Definition gn_query (d : wof_db) : list item :=
  List.map (fun r => mkItem (js_of_sql (spr_id (fst r)))
                            (js_of_sql (spr_placetype (fst r)))
                            (js_of_sql (c_other_id (snd r))))
    (filter (fun r => holds (gn_having r))
       (List.map (fun g => pick (fst g) (snd g))
          (group_by (filter (fun r => holds (gn_where r)) (inner_join d))))).

(** Lines 802-813 of the second document of [part_001], with the
    parameter [?] bound to [otherSource]. *)
Definition gp_where (otherSource : sqlval) (r : joined) : option bool :=
  and (and (not (eq (spr_is_current (fst r)) (SInt 0)))
           (eq (c_other_source (snd r)) otherSource))
      (not (is_in (c_other_id (snd r)) bad_ids)).

Definition gp_query (otherSource : sqlval) (d : wof_db) : list item :=
  List.map (fun r => mkItem (js_of_sql (spr_id (fst r)))
                            VUndef
                            (js_of_sql (c_other_id (snd r))))
    (List.map (fun g => pick (fst g) (snd g))
       (group_by (filter (fun r => holds (gp_where otherSource r)) (inner_join d)))).

End Queries.

End Sql.

(* ================================================================== *)
(** ** Requests to the Wikidata API *)
(* ================================================================== *)

(** The one-character string holding a double quote. *)
Definition quote : string := String (ascii_of_nat 34) EmptyString.

Definition api : string := "https://www.wikidata.org/w/api.php".

(** [new URL(api)] followed by [searchParams.set] for each pair. *)
Definition url_with (kvs : list (string * template)) : request :=
  mkRequest api (fold_left (fun ps kv => set_param (fst kv) (snd kv) ps) kvs []) GET [].

(** [new URLSearchParams()] followed by [set] for each pair, posted to [api]. *)
Definition post_form (kvs : list (string * template)) : request :=
  mkRequest api [] POST (fold_left (fun ps kv => set_param (fst kv) (snd kv) ps) kvs []).

Definition loginTokenUrl : request :=
  url_with [("action", lit "query"); ("format", lit "json"); ("formatversion", sub (VNum 2));
            ("meta", lit "tokens"); ("type", lit "login")].

Definition loginRequest (PASSWORD logintoken : value) : request :=
  post_form [("action", lit "login"); ("format", lit "json"); ("formatversion", sub (VNum 2));
             ("lgname", lit "Q23679"); ("lgpassword", sub PASSWORD); ("lgtoken", sub logintoken)].

Definition userContribsUrl : request :=
  url_with [("action", lit "query"); ("format", lit "json"); ("formatversion", sub (VNum 2));
            ("list", lit "usercontribs"); ("uclimit", lit "max"); ("ucnamespace", sub (VNum 0));
            ("ucuser", lit "Q23679"); ("ucprop", lit "title")].

Definition csrfTokenUrl : request :=
  url_with [("action", lit "query"); ("format", lit "json"); ("formatversion", sub (VNum 2));
            ("meta", lit "tokens")].

Definition claimsUrl (property : string) (entity : value) : request :=
  url_with [("action", lit "wbgetclaims"); ("format", lit "json"); ("formatversion", sub (VNum 2));
            ("property", lit property); ("entity", sub entity)].

(** [`haswbstatement:${otherProperty}=${other_id} -haswbstatement:${wofProperty}`] *)
Definition searchUrl (otherProperty wofProperty : string) (other_id : value) : request :=
  url_with [("action", lit "query"); ("format", lit "json"); ("formatversion", sub (VNum 2));
            ("list", lit "search");
            ("srsearch", [Lit "haswbstatement:"; Lit otherProperty; Lit "="; Sub other_id;
                          Lit " -haswbstatement:"; Lit wofProperty]);
            ("srlimit", sub (VNum 1)); ("srinfo", lit EmptyString); ("srprop", lit EmptyString)].

(** The [wbcreateclaim] form; the value is [`"${id}"`]. *)
Definition editRequest (property : string) (entity id token : value) : request :=
  post_form [("action", lit "wbcreateclaim"); ("format", lit "json"); ("formatversion", sub (VNum 2));
             ("entity", sub entity); ("snaktype", lit "value"); ("property", lit property);
             ("value", [Lit quote; Sub id; Lit quote]);
             ("token", sub token); ("bot", sub (VNum 1))].

(* ================================================================== *)
(** ** [src/index.js] *)
(* ================================================================== *)

Module IndexJs.

Local Open Scope run_scope.

Definition property : string := "P6766".

(** Lines 27-38, once [data] is decoded. *)
Definition envelope_block (data : value) : res (list io * action) :=
  (error <- get data "error" ;;
   messages <- (if truthy error then get error "messages" else Ok error) ;;
   if truthy messages then
     throttled <- find messages (named "actionthrottledtext") ;;
     if truthy throttled then
       Ok ([ConsoleLog (lit "Request Throttled, Retrying in 60 seconds"); Timeout (1000 * 60)],
           Retry 0)
     else
       Ok ([ConsoleError error], Return data)
   else Ok ([], Return data))%res.

(** Lines 23-39.  There is no [try]: what [cookieFetch] or
    [response.json()] throws leaves [retryFetch]. *)
Fixpoint retryFetch (input : request) (sc : list outcome)
  : list io * completion value * list outcome :=
  match sc with
  | [] => ([Fetch CookieFetch input], Stuck, [])
  | NetworkError msg :: rest => ([Fetch CookieFetch input], Threw (FetchError msg), rest)
  | Response response :: rest =>
      match (data <- decode response ;; envelope_block data)%res with
      | Throw e => ([Fetch CookieFetch input], Threw e, rest)
      | Ok (log, Return data) => (Fetch CookieFetch input :: log, Done data, rest)
      | Ok (log, Retry _) =>
          let '(log', r, rest') := retryFetch input rest in
          (Fetch CookieFetch input :: log ++ log', r, rest')
      end
  end.

(** Lines 184-220, one record of [list].  The forms of this revision are
    [FormData] objects filled with [append]; the keys are distinct, so
    the pairs are those [set] would leave. *)
Definition edit (csrftoken : value) (it : item) : M unit :=
  data <- fetch_json PlainFetch (claimsUrl property (other_id it)) ;;
  claims <- eval (get data "claims") ;;
  claim <- eval (get claims property) ;;
  if negb (truthy claim) then
    log [Lit "Editing "; Sub (other_id it); Lit " start"] ;;
    _ <- call RetryFetch retryFetch (editRequest property (other_id it) (id it) csrftoken) ;;
    log [Lit "Editing "; Sub (other_id it); Lit " end"]
  else
    log [Lit "Skipping "; Sub (other_id it)].

Fixpoint edit_loop (csrftoken : value) (rows : list item) : M unit :=
  match rows with
  | [] => ret tt
  | it :: more => edit csrftoken it ;; edit_loop csrftoken more
  end.

(** [main] from line 138 on; [rows] is the [list] that lines 123-136
    read from the [wd:id] concordances of the distributions. *)
Definition main (PASSWORD : value) (rows : list item) : M unit :=
  log [Lit "Number of Wikidata items: "; Locale (VNum (Z.of_nat (List.length rows)))] ;;
  loginTokenData <- fetch_json CookieFetch loginTokenUrl ;;
  logintoken <- eval (query <- get loginTokenData "query" ;;
                      tokens <- get query "tokens" ;;
                      get tokens "logintoken")%res ;;
  loginData <- fetch_json CookieFetch (loginRequest PASSWORD logintoken) ;;
  result <- eval (login <- get loginData "login" ;; get login "result")%res ;;
  log [Lit "Login Result: "; Sub result] ;;
  csrfTokenData <- fetch_json CookieFetch csrfTokenUrl ;;
  csrftoken <- eval (query <- get csrfTokenData "query" ;;
                     tokens <- get query "tokens" ;;
                     get tokens "csrftoken")%res ;;
  edit_loop csrftoken rows.

End IndexJs.

(* ================================================================== *)
(** ** Second document of [unnamed/part_000]: [wd:id] with the history *)
(* ================================================================== *)

Module WdId.

Local Open Scope run_scope.

Definition property : string := "P6766".

(** Lines 34-48, once [data] is decoded. *)
Definition envelope_block (data : value) : res (list io * action) :=
  (error <- get data "error" ;;
   messages <- (if truthy error then get error "messages" else Ok error) ;;
   if truthy messages then
     throttled <- find messages (named "actionthrottledtext") ;;
     if truthy throttled then
       Ok ([ConsoleLog (lit "Request Throttled, Retrying in 60 seconds"); Timeout (1000 * 60)],
           Retry 0)
     else
       denied <- find messages (named "no-permission") ;;
       if truthy denied then
         Ok ([ConsoleErrorText (lit "Permission Denied!")], Return data)
       else
         Ok ([ConsoleError error], Return data)
   else Ok ([], Return data))%res.

(** Lines 30-49, as in [index.js]. *)
Fixpoint retryFetch (input : request) (sc : list outcome)
  : list io * completion value * list outcome :=
  match sc with
  | [] => ([Fetch CookieFetch input], Stuck, [])
  | NetworkError msg :: rest => ([Fetch CookieFetch input], Threw (FetchError msg), rest)
  | Response response :: rest =>
      match (data <- decode response ;; envelope_block data)%res with
      | Throw e => ([Fetch CookieFetch input], Threw e, rest)
      | Ok (log, Return data) => (Fetch CookieFetch input :: log, Done data, rest)
      | Ok (log, Retry _) =>
          let '(log', r, rest') := retryFetch input rest in
          (Fetch CookieFetch input :: log ++ log', r, rest')
      end
  end.

(** Lines 235-274, one record of [list]. *)
Definition edit (csrftoken : value) (it : item) : M unit :=
  data <- fetch_json PlainFetch (claimsUrl property (other_id it)) ;;
  claims <- eval (get data "claims") ;;
  if is_undefined claims then
    emit (LogError data)
  else
    claim <- eval (get claims property) ;;
    if negb (truthy claim) then
      log [Lit "Editing "; Sub (other_id it); Lit " start"] ;;
      _ <- call RetryFetch retryFetch (editRequest property (other_id it) (id it) csrftoken) ;;
      log [Lit "Editing "; Sub (other_id it); Lit " end"]
    else
      log [Lit "Skipping "; Sub (other_id it)].

Fixpoint edit_loop (csrftoken : value) (rows : list item) : M unit :=
  match rows with
  | [] => ret tt
  | it :: more => edit csrftoken it ;; edit_loop csrftoken more
  end.

End WdId.

(* ================================================================== *)
(** ** First document of [unnamed/part_001]: the [gn:id] revision *)
(* ================================================================== *)

Module GnId.

Import Transport.

Local Open Scope run_scope.

Definition otherProperty : string := "P1566".
Definition wofProperty : string := "P6766".
Definition instanceProperty : string := "P31".

(** [placetypes] after lines 234-255: for every place type the set of
    the classes the SPARQL query returned. *)
Definition placetypes := list (string * list string).

Definition retry (req : request) : M value :=
  call RetryFetch (fun r sc => retryFetch r sc 0) req.

Definition backoff (req : request) : M value :=
  call BackoffFetch (fun r sc => backoffFetch r sc 0) req.

(** Lines 140-150. *)
Definition getToken : M value :=
  data <- retry csrfTokenUrl ;;
  eval (query <- get data "query" ;; tokens <- get query "tokens" ;; get tokens "csrftoken")%res.

(** The test of line 379. *)
Definition no_entity_found (searchData : value) : res bool :=
  (query <- get searchData "query" ;;
   if is_undefined query then Ok true
   else
     search <- get query "search" ;;
     if is_undefined search then Ok true
     else
       len <- get search "length" ;;
       Ok (is_number len 0))%res.

(** Line 384. *)
Definition first_title (searchData : value) : res value :=
  (query <- get searchData "query" ;;
   search <- get query "search" ;;
   hit <- first search ;;
   get hit "title")%res.

(** Line 407: [claim => claim.mainsnak.datavalue.value.id] *)
Definition claim_class (claim : value) : res value :=
  (mainsnak <- get claim "mainsnak" ;;
   datavalue <- get mainsnak "datavalue" ;;
   v <- get datavalue "value" ;;
   get v "id")%res.

(** Line 410: [id => placetypes.get(placetype).has(id)] *)
Definition accepts (pt : placetypes) (placetype : value) (id : value) : res bool :=
  match placetype with
  | VStr p =>
      match assoc p pt with
      | Some classes => Ok (existsb (is_string id) classes)
      | None => Throw (TypeError "Cannot read property 'has' of undefined")
      end
  | _ => Throw (TypeError "Cannot read property 'has' of undefined")
  end.

(** Lines 406-417: [Some instanceOf] when the candidate is skipped. *)
Definition rejected (pt : placetypes) (placetype : value) (claims : value)
  : res (option (list value)) :=
  (c <- get claims instanceProperty ;;
   if truthy c then
     instanceOf <- map c claim_class ;;
     if 0 <? Z.of_nat (List.length instanceOf) then
       isValidInstance <- find_in (accepts pt placetype) instanceOf ;;
       Ok (if negb (truthy isValidInstance) then Some instanceOf else None)
     else Ok None
   else Ok None)%res.

(** Lines 364-443, one record of [list]. *)
Definition edit (pt : placetypes) (edited : jsset) (it : item) : M unit :=
  searchData <- backoff (searchUrl otherProperty wofProperty (other_id it)) ;;
  none <- eval (no_entity_found searchData) ;;
  if none : bool then
    log [Lit "Skipping "; Sub (id it); Lit " No Entity Found"]
  else
    entityId <- eval (first_title searchData) ;;
    if set_has edited entityId then
      log [Lit "Skipping "; Sub entityId; Lit " Already Edited"]
    else
      instanceData <- backoff (claimsUrl instanceProperty entityId) ;;
      claims <- eval (get instanceData "claims") ;;
      if is_undefined claims then
        log [Lit "Skipping "; Sub entityId; Lit " Error"] ;;
        emit (LogError instanceData)
      else
        r <- eval (rejected pt (placetype it) claims) ;;
        match r with
        | Some instanceOf =>
            log [Lit "Skipping "; Sub entityId; Lit " with "; Lit instanceProperty; Lit " of ";
                 Join instanceOf ", "]
        | None =>
            log [Lit "Editing "; Sub entityId; Lit " start"] ;;
            token <- getToken ;;
            _ <- retry (editRequest wofProperty entityId (id it) token) ;;
            log [Lit "Editing "; Sub entityId; Lit " end"]
        end.

Fixpoint edit_loop (pt : placetypes) (edited : jsset) (rows : list item) : M unit :=
  match rows with
  | [] => ret tt
  | it :: more => edit pt edited it ;; edit_loop pt edited more
  end.

Section Candidates.

Variable pick : Sql.joined -> list Sql.joined -> Sql.joined.

(** Lines 325-355. *)
Fixpoint query_files (files : list wof_db) (rows : list item) : M (list item) :=
  match files with
  | [] => ret rows
  | file :: more =>
      log [Lit "Querying "; Sub (VStr (name file)); Lit " start"] ;;
      let result := Sql.gn_query pick file in
      let rows' := if 0 <? Z.of_nat (List.length result) then rows ++ result else rows in
      log [Lit "Querying "; Sub (VStr (name file)); Lit " end"] ;;
      query_files more rows'
  end.

(** Lines 325-443: the query of every distribution, then the edits. *)
Definition query_and_edit (pt : placetypes) (edited : jsset) (files : list wof_db) : M unit :=
  rows <- query_files files [] ;;
  log [Lit "Number of Wikidata items to edit: "; Locale (VNum (Z.of_nat (List.length rows)))] ;;
  edit_loop pt edited rows.

End Candidates.

End GnId.

(* ================================================================== *)
(** ** Second document of [unnamed/part_001]: the [gp:id] revision *)
(* ================================================================== *)

Module GpId.

Import Transport.

Local Open Scope run_scope.

Definition wofProperty : string := "P6766".
Definition otherProperty : string := "P1281".
Definition otherSource : sqlval := SText "gp:id".

(** [retryFetch(input, options)] and [backoffFetch(input)]: [iteration]
    takes its default. *)
Definition retry (req : request) : M value :=
  call RetryFetch (fun r sc => retryFetch r sc 0) req.

Definition backoff (req : request) : M value :=
  call BackoffFetch (fun r sc => backoffFetch r sc 0) req.

(** Lines 550-560. *)
Definition getToken : M value :=
  data <- retry csrfTokenUrl ;;
  eval (query <- get data "query" ;; tokens <- get query "tokens" ;; get tokens "csrftoken")%res.

(** *** Lines 688-710: the contribution history *)

(** [cont !== false] *)
Definition is_false (v : value) : bool :=
  match v with VBool false => true | _ => false end.

(** [usercontribs.forEach(({ title }) => edited.add(title))] *)
Fixpoint add_titles_in (l : list value) (edited : jsset) : res jsset :=
  match l with
  | [] => Ok edited
  | x :: l' =>
      match get x "title" with
      | Throw e => Throw e
      | Ok title => add_titles_in l' (set_add edited title)
      end
  end.

Definition add_titles (usercontribs : value) (edited : jsset) : res jsset :=
  match usercontribs with
  | VArr l => add_titles_in l edited
  | _ => Throw (TypeError "userContribsData.query.usercontribs.forEach is not a function")
  end.

(** The body of the [while] after the response is decoded: the new
    [cont] and the new [edited]. *)
Definition page (userContribsData : value) (edited : jsset) : res (value * jsset) :=
  (c <- get userContribsData "continue" ;;
   cont <- (if truthy c
            then u <- get c "uccontinue" ;; Ok (if truthy u then u else VBool false)
            else Ok (VBool false)) ;;
   q <- get userContribsData "query" ;;
   edited' <- (if truthy q
               then u <- get q "usercontribs" ;;
                    (if truthy u then add_titles u edited else Ok edited)
               else Ok edited) ;;
   Ok (cont, edited'))%res.

Fixpoint contributions (sc : list outcome) (url : request) (cont : value) (edited : jsset)
  : list event * completion jsset * list outcome :=
  if is_false cont then ([], Done edited, sc)
  else
    let pre := if truthy cont
               then [Log [Lit "Retreiving contributions "; Sub cont]] else [] in
    let url' := if truthy cont
                then mkRequest api (set_param "uccontinue" (sub cont) (searchParams url)) GET []
                else url in
    match sc with
    | [] => (pre ++ [Direct CookieFetch url'], Stuck, [])
    | NetworkError msg :: rest =>
        (pre ++ [Direct CookieFetch url'], Threw (FetchError msg), rest)
    | Response r :: rest =>
        match (data <- decode r ;; page data edited)%res with
        | Throw e => (pre ++ [Direct CookieFetch url'], Threw e, rest)
        | Ok (cont', edited') =>
            let '(evs, c, rest') := contributions rest url' cont' edited' in
            (pre ++ Direct CookieFetch url' :: evs, c, rest')
        end
    end.

Definition loadEdited : M jsset :=
  fun w =>
    let '(evs, c, rest) := contributions (script w) userContribsUrl VNull [] in
    (c, mkWorld rest (db w) (trace w ++ evs)).

(** *** Lines 744-792: link records known locally, and the entities
    of the history that have none *)

Definition wofUrl (entity : value) : request :=
  url_with [("action", lit "wbgetclaims"); ("format", lit "json"); ("formatversion", sub (VNum 2));
            ("entity", sub entity); ("property", lit wofProperty)].

(** [result.forEach(row => ...)] of lines 749-756: the new
    [missingEntity] and the new [wofIds]. *)
Fixpoint known_rows (rows : list value) (missingEntity wofIds : jsset) : res (jsset * jsset) :=
  match rows with
  | [] => Ok (missingEntity, wofIds)
  | row :: rows' =>
      (wd <- get row "wd" ;;
       wof <- get row "wof" ;;
       known_rows rows'
         (if set_has missingEntity wd then set_delete missingEntity wd else missingEntity)
         (set_add wofIds (parseInt wof)))%res
  end.

(** The condition of lines 773-779; [Some claims] when it holds
    ([Array.isArray] holds of [VArr] alone). *)
Definition wof_claims (wofData : value) : res (option (list value)) :=
  if truthy wofData then
    (claims <- get wofData "claims" ;;
     if truthy claims then
       c <- get claims wofProperty ;;
       Ok (match c with
           | VArr l => if 0 <? Z.of_nat (List.length l) then Some l else None
           | _ => None
           end)
     else Ok None)%res
  else Ok None.

(** The condition of lines 781-785; [Some value] when it holds. *)
Definition claim_value (claim : value) : res (option value) :=
  (mainsnak <- get claim "mainsnak" ;;
   if truthy mainsnak then
     datavalue <- get mainsnak "datavalue" ;;
     if truthy datavalue then
       v <- get datavalue "value" ;;
       Ok (if truthy v then Some v else None)
     else Ok None
   else Ok None)%res.

Fixpoint claims_loop (entity : value) (claims : list value) (wofIds : jsset) : M jsset :=
  match claims with
  | [] => ret wofIds
  | claim :: more =>
      v <- eval (claim_value claim) ;;
      match v with
      | Some v =>
          let wofId := parseInt v in
          db_run_await (InsertMap entity wofId) (insert_map entity wofId) ;;
          claims_loop entity more (set_add wofIds wofId)
      | None => claims_loop entity more wofIds
      end
  end.

Fixpoint missing_loop (missingEntity : list value) (wofIds : jsset) : M jsset :=
  match missingEntity with
  | [] => ret wofIds
  | entity :: more =>
      log [Lit "Retrieving Who's on First ID for "; Sub entity] ;;
      wofData <- retry (wofUrl entity) ;;
      claims <- eval (wof_claims wofData) ;;
      wofIds' <- match claims with
                 | Some l => claims_loop entity l wofIds
                 | None => ret wofIds
                 end ;;
      missing_loop more wofIds'
  end.

(** *** Lines 794-849: the candidates *)

(** Lines 826-829: [list.reduce((map, item) => map.set(parseInt(item.id, 10), item), new Map())] *)
Definition dedup (rows : list item) : jsmap item :=
  fold_left (fun m it => map_set m (parseInt (id it)) it) rows [].

(** Lines 832-836. *)
Definition drop_linked (items : jsmap item) (wofIds : jsset) : jsmap item :=
  fold_left (fun m wofId => if map_has m wofId then map_delete m wofId else m) wofIds items.

(** Lines 845-849: an entry deleted while the map is walked is gone,
    the others are visited as usual. *)
Definition drop_missing (items : jsmap item) (others : jsset) : jsmap item :=
  filter (fun e => negb (set_has others (parseInt (other_id (snd e))))) items.

(** Line 842: [new Set(otherRows.map(row => parseInt(row.id, 10)))] *)
Definition other_ids (otherRows : list value) : res jsset :=
  (ids <- map_in (fun row => i <- get row "id" ;; Ok (parseInt i)) otherRows ;;
   Ok (fold_left set_add ids []))%res.

(** *** Lines 855-912: the edits *)

(** The test of line 874. *)
Definition no_entity_found (searchData : value) : res bool :=
  (query <- get searchData "query" ;;
   if is_undefined query then Ok true
   else
     search <- get query "search" ;;
     if is_undefined search then Ok true
     else
       len <- get search "length" ;;
       Ok (is_number len 0))%res.

(** Line 881: [searchData.query.search[0].title] *)
Definition first_title (searchData : value) : res value :=
  (query <- get searchData "query" ;;
   search <- get query "search" ;;
   hit <- first search ;;
   get hit "title")%res.

Definition edit (size : Z) (edited : jsset) (it : item) (i : Z) : M unit :=
  searchData <- backoff (searchUrl otherProperty wofProperty (other_id it)) ;;
  none <- eval (no_entity_found searchData) ;;
  if none : bool then
    log [Lit "("; Percent i size; Lit "%) Skipping "; Sub (id it); Lit " No Entity Found"] ;;
    db_run_detached (InsertOrIgnoreOther (other_id it)) (insert_or_ignore_other (other_id it))
  else
    entityId <- eval (first_title searchData) ;;
    if set_has edited entityId then
      log [Lit "("; Percent i size; Lit "%) Skipping "; Sub entityId; Lit " Already Edited"]
    else
      log [Lit "("; Percent i size; Lit "%) Editing "; Sub entityId; Lit " start"] ;;
      token <- getToken ;;
      _ <- retry (editRequest wofProperty entityId (id it) token) ;;
      log [Lit "("; Percent i size; Lit "%) Editing "; Sub entityId; Lit " end"].

(** [i] is the value of the counter before [i++]. *)
Fixpoint edit_loop (size : Z) (edited : jsset) (items : list item) (i : Z) : M unit :=
  match items with
  | [] => ret tt
  | it :: more => edit size edited it (i + 1) ;; edit_loop size edited more (i + 1)
  end.

(** *** Lines 796-823: the query of every distribution *)

Section Main.

Variable pick : Sql.joined -> list Sql.joined -> Sql.joined.

Fixpoint query_files (files : list wof_db) (rows : list item) : M (list item) :=
  match files with
  | [] => ret rows
  | file :: more =>
      log [Lit "Querying "; Sub (VStr (name file)); Lit " start"] ;;
      let result := Sql.gp_query pick otherSource file in
      let rows' := if 0 <? Z.of_nat (List.length result) then rows ++ result else rows in
      log [Lit "Querying "; Sub (VStr (name file)); Lit " end"] ;;
      query_files more rows'
  end.

(** [main] from line 644 on, cut in five; [files] is the inventory of
    lines 563-642, downloaded and decompressed. *)

(** Lines 644-676. *)
Definition login (PASSWORD : value) : M unit :=
  loginTokenData <- fetch_json CookieFetch loginTokenUrl ;;
  logintoken <- eval (query <- get loginTokenData "query" ;;
                      tokens <- get query "tokens" ;;
                      get tokens "logintoken")%res ;;
  loginData <- fetch_json CookieFetch (loginRequest PASSWORD logintoken) ;;
  result <- eval (login <- get loginData "login" ;; get login "result")%res ;;
  log [Lit "Login Result: "; Sub result] ;;
  if negb (is_string result "Success") then throw (Error "Login Failure")
  else ret tt.

(** Lines 678-712: [edited]. *)
Definition history : M jsset :=
  log (lit "Retreiving contributions") ;;
  edited <- loadEdited ;;
  log [Lit "Number of items edited previously: ";
       Locale (VNum (Z.of_nat (List.length edited)))] ;;
  ret edited.

(** Lines 714-792: [wofIds]. *)
Definition links (edited : jsset) : M jsset :=
  emit (Sql CreateMapTable) ;;
  emit (Sql CreateOtherTable) ;;
  result <- select_map ;;
  known <- eval (if 0 <? Z.of_nat (List.length result)
                 then known_rows result edited []
                 else Ok (edited, [])) ;;
  missing_loop (fst known) (snd known).

(** Lines 794-836: [items]. *)
Definition candidates (files : list wof_db) (wofIds : jsset) : M (jsmap item) :=
  rows <- query_files files [] ;;
  ret (drop_linked (dedup rows) wofIds).

(** Lines 838-912. *)
Definition finish (edited : jsset) (items : jsmap item) : M unit :=
  otherRows <- select_other ;;
  others <- eval (other_ids otherRows) ;;
  let items := drop_missing items others in
  log [Lit "Number of Wikidata items to edit: ";
       Locale (VNum (Z.of_nat (List.length items)))] ;;
  edit_loop (Z.of_nat (List.length items)) edited (map_values items) 0.

Definition main (PASSWORD : value) (files : list wof_db) : M unit :=
  login PASSWORD ;;
  edited <- history ;;
  wofIds <- links edited ;;
  items <- candidates files wofIds ;;
  finish edited items.

End Main.

End GpId.

(** The error envelope of the remote API, [{error: {messages: [{name}, ...]}}],
    with one message called [lit]. *)
Definition is_object (v : value) : bool :=
  match v with VObj _ => true | _ => false end.

Definition message_named (lit : string) (m : value) : bool :=
  match m with
  | VObj fs => match assoc "name" fs with Some (VStr s) => String.eqb s lit | _ => false end
  | _ => false
  end.

Definition envelope_names (lit : string) (data : value) : bool :=
  match data with
  | VObj fs =>
      match assoc "error" fs with
      | Some (VObj efs) =>
          match assoc "messages" efs with
          | Some (VArr ms) => forallb is_object ms && existsb (message_named lit) ms
          | _ => false
          end
      | _ => false
      end
  | _ => false
  end.

(* ================================================================== *)
(** ** What a trace shows *)
(* ================================================================== *)

Fixpoint first_sub (t : template) : option value :=
  match t with
  | [] => None
  | Sub v :: _ => Some v
  | _ :: t' => first_sub t'
  end.

(** The foreign id a search request asks for: the value substituted in
    its [srsearch] parameter. *)
Definition search_id (req : request) : option value :=
  match param "srsearch" (searchParams req) with
  | Some t => first_sub t
  | None => None
  end.

(** The entity, the Who's on First id and the token of a
    [wbcreateclaim] form. *)
Definition write_of (req : request) : option (value * value * value) :=
  match param "action" (body req) with
  | Some [Lit a] =>
      if String.eqb a "wbcreateclaim" then
        match param "entity" (body req), param "value" (body req), param "token" (body req) with
        | Some [Sub e], Some [Lit _; Sub i; Lit _], Some [Sub t] => Some (e, i, t)
        | _, _, _ => None
        end
      else None
  | _ => None
  end.

Definition request_of (ev : event) : option request :=
  match ev with
  | Direct _ req | Call _ req _ _ => Some req
  | _ => None
  end.

Definition searched (ev : event) : option value :=
  match request_of ev with Some req => search_id req | None => None end.

Definition written (ev : event) : option (value * value * value) :=
  match request_of ev with Some req => write_of req | None => None end.

(** The calls of [createClaim] in a trace: their targets, in order. *)
Definition writes (t : list event) : list value :=
  flat_map (fun ev => match written ev with Some (e, _, _) => [e] | None => [] end) t.

(** The tokens the writes of a trace carry, in order. *)
Definition write_tokens (t : list event) : list value :=
  flat_map (fun ev => match written ev with Some (_, _, k) => [k] | None => [] end) t.

(** The requests for a CSRF token in a trace. *)
Definition is_token_request (ev : event) : bool :=
  match request_of ev with
  | Some req =>
      match param "meta" (searchParams req), param "type" (searchParams req) with
      | Some [Lit m], None => String.eqb m "tokens"
      | _, _ => false
      end
  | None => false
  end.

Definition token_requests (t : list event) : nat :=
  List.length (filter is_token_request t).

(** The first hit of a search that found something. *)
Definition resolved (ev : event) : option value :=
  match ev with
  | Call BackoffFetch req _ (Done searchData) =>
      match search_id req, GpId.no_entity_found searchData, GpId.first_title searchData with
      | Some _, Ok false, Ok entityId => Some entityId
      | _, _, _ => None
      end
  | _ => None
  end.

Definition resolutions (t : list event) : list value :=
  flat_map (fun ev => match resolved ev with Some e => [e] | None => [] end) t.

(** [INSERT INTO map] statements of a trace. *)
Definition is_insert_map (ev : event) : bool :=
  match ev with Sql (InsertMap _ _) => true | _ => false end.

(** The foreign ids the queries leave out. *)
Definition is_bad (v : value) : bool :=
  match v with
  | VNum n => (n =? -99) || (n =? -1) || (n =? 0)
  | _ => false
  end.

(** [m] writes to the first hits of its searches that are not in
    [edited], in order; when [m] does not complete, the last hit may
    lack its write. *)
Definition balanced {A} (edited : jsset) (m : M A) : Prop :=
  forall w, exists evs,
    trace (snd (m w)) = trace w ++ evs /\
    exists tail,
      filter (fun e => negb (set_has edited e)) (resolutions evs) = writes evs ++ tail /\
      ((exists a, fst (m w) = Done a) -> tail = []).

(** An event that is neither a search nor a write. *)
Definition plain (ev : event) : Prop := searched ev = None /\ written ev = None.

(** An event whose search or write, if it is one, is made for a record
    of [rows] whose foreign id is none of [-99], [-1], [0]. *)
Definition stems_from (rows : list item) (ev : event) : Prop :=
  (forall o, searched ev = Some o ->
     exists it, In it rows /\ other_id it = o /\ is_bad o = false) /\
  (forall e i k, written ev = Some (e, i, k) ->
     exists it, In it rows /\ id it = i /\ is_bad (other_id it) = false).

(** A record of [rows] whose foreign id is none of the three. *)
Definition good_row (rows : list item) (it : item) : Prop :=
  In it rows /\ is_bad (other_id it) = false.

(** [hoare Inv P m Q]: from a store satisfying [Inv], [m] leaves a store
    satisfying [Inv], adds to the trace only events satisfying [P], and
    when it completes its value satisfies [Q]. *)
Definition hoare {A} (Inv : store -> Prop) (P : event -> Prop) (m : M A) (Q : A -> Prop) : Prop :=
  forall w, Inv (db w) ->
    Inv (db (snd (m w))) /\
    (exists evs, trace (snd (m w)) = trace w ++ evs /\ Forall P evs) /\
    (forall a, fst (m w) = Done a -> Q a).

(* ================================================================== *)
(** ** Sample data *)
(* ================================================================== *)

Module Sample.

(** SQLite handing out the first row of every group. *)
Definition pick_first (r : Sql.joined) (g : list Sql.joined) : Sql.joined := r.

Definition ok200 (v : value) : outcome := Response (mkResponse 200 "OK" (Some v)).

Definition not_found (v : value) : outcome := Response (mkResponse 404 "Not Found" (Some v)).

(** [{query: {tokens: {<kind>: <token>}}}] *)
Definition tokens (kind token : string) : value :=
  VObj [("batchcomplete", VBool true);
        ("query", VObj [("tokens", VObj [(kind, VStr token)])])].

(** [{login: {result: <result>}}] *)
Definition loginResult (result : string) : value :=
  VObj [("login", VObj [("result", VStr result)])].

Definition titles (l : list string) : value :=
  VArr (List.map (fun t => VObj [("ns", VNum 0); ("title", VStr t)]) l).

(** One page of contributions, the last one. *)
Definition contribs (l : list string) : value :=
  VObj [("batchcomplete", VBool true); ("query", VObj [("usercontribs", titles l)])].

(** A search answer. *)
Definition hits (l : list string) : value :=
  VObj [("batchcomplete", VBool true); ("query", VObj [("search", titles l)])].

(** The answer to a [wbcreateclaim] that went through. *)
Definition created : value := VObj [("pageinfo", VObj [("lastrevid", VNum 1)]); ("success", VNum 1)].

(** [{error: {code, info, messages: [{name}]}}] *)
Definition failed (name : string) : value :=
  VObj [("error", VObj [("code", VStr "failed-save"); ("info", VStr "The save has failed.");
                        ("messages", VArr [VObj [("name", VStr name)]])])].

(** A claim of an item-valued property. *)
Definition item_claim (class : string) : value :=
  VObj [("mainsnak",
         VObj [("snaktype", VStr "value");
               ("datavalue", VObj [("value", VObj [("entity-type", VStr "item"); ("id", VStr class)]);
                                   ("type", VStr "wikibase-entityid")])])].

(** A claim of a string-valued property. *)
Definition string_claim (v : string) : value :=
  VObj [("mainsnak",
         VObj [("snaktype", VStr "value");
               ("datavalue", VObj [("value", VStr v); ("type", VStr "string")])])].

Definition distribution : wof_db :=
  mkWof "whosonfirst-data-latest.db"
    [mkSpr (SInt 101) (SText "locality") (SInt 1) (SInt 0);
     mkSpr (SInt 102) (SText "locality") (SInt 1) (SInt 0);
     mkSpr (SInt 103) (SText "locality") (SInt 1) (SInt 0)]
    [mkConcordance (SInt 101) (SInt 10) (SText "gp:id");
     mkConcordance (SInt 102) (SInt 20) (SText "gp:id");
     mkConcordance (SInt 103) (SInt (-1)) (SText "gp:id");
     mkConcordance (SInt 101) (SInt 3333) (SText "gn:id");
     mkConcordance (SInt 103) (SInt 0) (SText "gn:id")].

Definition start (sc : list outcome) (d : store) : world := mkWorld sc d [].

Definition empty : store := mkStore [] [].

(** A run of the [gp:id] revision in which the searches for the foreign
    ids [10] and [20] both return [Q5], and both writes go through. *)
Definition same_entity : list outcome :=
  [ok200 (tokens "logintoken" "l1"); ok200 (loginResult "Success"); ok200 (contribs []);
   ok200 (hits ["Q5"]); ok200 (tokens "csrftoken" "c1"); ok200 created;
   ok200 (hits ["Q5"]); ok200 (tokens "csrftoken" "c2"); ok200 created].

(** The same two searches with no outcome for the login. *)
Definition two_searches : list outcome :=
  [ok200 (hits ["Q5"]); ok200 (tokens "csrftoken" "c1"); ok200 created;
   ok200 (hits ["Q7"]); ok200 (tokens "csrftoken" "c2"); ok200 created].

Definition two_items : list item :=
  [mkItem (VNum 101) VUndef (VNum 10); mkItem (VNum 102) VUndef (VNum 20)].

(** Two rows of the [wd:id] concordances. *)
Definition wd_rows : list item :=
  [mkItem (VNum 85633793) VUndef (VStr "Q30"); mkItem (VNum 85633041) VUndef (VStr "Q16")].

(** A run of [index.js] in which the login is refused. *)
Definition refused_login : list outcome :=
  [ok200 (tokens "logintoken" "l1"); ok200 (loginResult "Failed");
   ok200 (tokens "csrftoken" "c0");
   ok200 (VObj [("claims", VObj [])]); ok200 created;
   ok200 (VObj [("claims", VObj [])]); ok200 created].

(** A run of [index.js] with two entities that lack the claim. *)
Definition two_edits : list outcome :=
  [ok200 (tokens "logintoken" "l1"); ok200 (loginResult "Success");
   ok200 (tokens "csrftoken" "c0");
   ok200 (VObj [("claims", VObj [])]); ok200 created;
   ok200 (VObj [("claims", VObj [])]); ok200 created].

(** The classes accepted for a locality, and an entity that is an
    instance of one of them and of a class outside them. *)
Definition acceptance : GnId.placetypes := [("locality", ["Q486972"; "Q515"])].

Definition city_and_company : value :=
  VObj [("claims", VObj [("P31", VArr [item_claim "Q515"; item_claim "Q4830453"])])].

Definition locality_3333 : item := mkItem (VNum 101) (VStr "locality") (VNum 3333).

End Sample.

(* ================================================================== *)
(** ** More of what a transport log shows *)
(* ================================================================== *)

(** The waits of a transport, in milliseconds, in order. *)
Definition timeouts (ios : list io) : list Z :=
  flat_map (fun e => match e with Timeout ms => [ms] | _ => [] end) ios.

(** The requests a transport sent. *)
Definition attempts (ios : list io) : nat :=
  List.length (filter (fun e => match e with Fetch _ _ => true | _ => false end) ios).

(** An outcome with no usable body: the connection failed, the status
    is not in the 2xx range, or the body is not JSON. *)
Definition no_body (o : outcome) : bool :=
  match o with
  | NetworkError _ => true
  | Response r => negb (ok r) || match json r with Some _ => false | None => true end
  end.

(** [m.get(k)] *)
Fixpoint map_get {A} (m : jsmap A) (k : value) : option A :=
  match m with
  | [] => None
  | (k', a) :: m' => if same_value_zero k k' then Some a else map_get m' k
  end.

(** No two entries of [m] have the same key. *)
Fixpoint distinct_keys {A} (m : jsmap A) : bool :=
  match m with
  | [] => true
  | (k, _) :: m' => negb (map_has m' k) && distinct_keys m'
  end.

(** The groups have pairwise different keys, and the rows of a group
    have the key of its first row. *)
Definition grouped (gs : list Sql.group) : Prop :=
  NoDup (List.map (fun g : Sql.group => spr_id (fst (fst g))) gs) /\
  Forall (fun g : Sql.group =>
            Forall (fun r : Sql.joined => spr_id (fst r) = spr_id (fst (fst g))) (snd g)) gs.

(* ================================================================== *)
(** ** The rest of [main] in the second document of [unnamed/part_000] *)
(* ================================================================== *)

Module WdIdMain.

Local Open Scope run_scope.

Section Main.

Variable pick : Sql.joined -> list Sql.joined -> Sql.joined.

(** Line 209: [SELECT c.id, c.other_id FROM concordances AS c JOIN spr
    ON c.id = spr.id WHERE c.other_source = 'wd:id' AND
    spr.is_deprecated != 1 GROUP BY spr.id]. *)
Definition join (d : wof_db) : list Sql.joined :=
  flat_map (fun c =>
    List.map (fun s => (s, c))
      (filter (fun s => Sql.holds (Sql.eq (c_id c) (spr_id s))) (spr d)))
    (concordances d).

Definition wd_where (r : Sql.joined) : option bool :=
  Sql.and (Sql.eq (c_other_source (snd r)) (SText "wd:id"))
          (Sql.not (Sql.eq (spr_is_deprecated (fst r)) (SInt 1))).

Definition wd_query (d : wof_db) : list item :=
  List.map (fun r => mkItem (js_of_sql (c_id (snd r))) VUndef (js_of_sql (c_other_id (snd r))))
    (List.map (fun g => pick (fst g) (snd g))
       (Sql.group_by (filter (fun r => Sql.holds (wd_where r)) (join d)))).

(** Lines 177-200.  Every page is asked for with the login form as the
    body of a [POST]; the body of the [while] after the answer is decoded
    is the one of [GpId.page]. *)
Fixpoint contributions (loginFormData : list (string * template))
    (sc : list outcome) (params : list (string * template)) (cont : value) (edited : jsset)
  : list event * completion jsset * list outcome :=
  if GpId.is_false cont then ([], Done edited, sc)
  else
    let params' := if truthy cont then set_param "uccontinue" (sub cont) params else params in
    let req := mkRequest api params' POST loginFormData in
    match sc with
    | [] => ([Direct CookieFetch req], Stuck, [])
    | NetworkError msg :: rest => ([Direct CookieFetch req], Threw (FetchError msg), rest)
    | Response r :: rest =>
        match (data <- decode r ;; GpId.page data edited)%res with
        | Throw e => ([Direct CookieFetch req], Threw e, rest)
        | Ok (cont', edited') =>
            let '(evs, c, rest') := contributions loginFormData rest params' cont' edited' in
            (Direct CookieFetch req :: evs, c, rest')
        end
    end.

Definition loadEdited (loginFormData : list (string * template)) : M jsset :=
  fun w =>
    let '(evs, c, rest) :=
      contributions loginFormData (script w) (searchParams userContribsUrl) VNull [] in
    (c, mkWorld rest (db w) (trace w ++ evs)).

(** Lines 204-217: the rows of every distribution whose entity is not
    in [edited]. *)
Definition query_files (edited : jsset) (files : list wof_db) : list item :=
  fold_left
    (fun rows file =>
       let result := wd_query file in
       if 0 <? Z.of_nat (List.length result)
       then rows ++ filter (fun it => negb (set_has edited (other_id it))) result
       else rows)
    files [].

(** Lines 204-274. *)
Definition finish (edited : jsset) (files : list wof_db) : M unit :=
  let rows := query_files edited files in
  log [Lit "Number of Wikidata items to edit: "; Locale (VNum (Z.of_nat (List.length rows)))] ;;
  csrfTokenData <- fetch_json CookieFetch csrfTokenUrl ;;
  csrftoken <- eval (query <- get csrfTokenData "query" ;;
                     tokens <- get query "tokens" ;;
                     get tokens "csrftoken")%res ;;
  WdId.edit_loop csrftoken rows.

(** [main] from line 133 on; [files] is the inventory of lines 52-131,
    downloaded and decompressed. *)
Definition main (PASSWORD : value) (files : list wof_db) : M unit :=
  loginTokenData <- fetch_json CookieFetch loginTokenUrl ;;
  logintoken <- eval (query <- get loginTokenData "query" ;;
                      tokens <- get query "tokens" ;;
                      get tokens "logintoken")%res ;;
  loginData <- fetch_json CookieFetch (loginRequest PASSWORD logintoken) ;;
  result <- eval (login <- get loginData "login" ;; get login "result")%res ;;
  log [Lit "Login Result: "; Sub result] ;;
  if negb (is_string result "Success") then throw (Error "Login Failure")
  else
    edited <- loadEdited (body (loginRequest PASSWORD logintoken)) ;;
    log [Lit "Number of items edited previously: ";
         Locale (VNum (Z.of_nat (List.length edited)))] ;;
    finish edited files.

End Main.

End WdIdMain.

(** The entity a [wbgetclaims] request asks about. *)
Definition read_of (req : request) : option value :=
  match param "action" (searchParams req), param "entity" (searchParams req) with
  | Some [Lit a], Some [Sub e] => if String.eqb a "wbgetclaims" then Some e else None
  | _, _ => None
  end.

Definition claims_read (ev : event) : option value :=
  match request_of ev with Some req => read_of req | None => None end.

(** An answer of [wbgetclaims] that carries a claim for [property]. *)
Definition has_claim (property : string) (o : outcome) : bool :=
  match o with
  | Response r =>
      match (data <- decode r ;; claims <- get data "claims" ;; get claims property)%res with
      | Ok claim => truthy claim
      | Throw _ => false
      end
  | NetworkError _ => false
  end.

(** The entities whose claims a trace reads, in order. *)
Definition reads (t : list event) : list value :=
  flat_map (fun ev => match claims_read ev with Some e => [e] | None => [] end) t.

(** What the [wd:id] loops add to the trace for rows that are all
    skipped: the read and the [Skipping] line of each. *)
Definition skips (property : string) (rows : list item) : list event :=
  flat_map (fun it => [Direct PlainFetch (claimsUrl property (other_id it));
                       Log [Lit "Skipping "; Sub (other_id it)]]) rows.

(* ================================================================== *)
(** ** The inventory of distributions (lines 45-58 of [index.js], the
       same in every revision) *)
(* ================================================================== *)

Module Inventory.

Section Files.

(** [DateTime.fromISO(v)] as [<] sees it: the instant in milliseconds,
    [None] for an invalid date, whose [valueOf()] is [NaN]. *)
Variable fromISO : value -> option Z.

(** [DateTime.fromISO(a) < DateTime.fromISO(b)] *)
Definition earlier (a b : value) : bool :=
  match fromISO a, fromISO b with
  | Some x, Some y => x <? y
  | _, _ => false
  end.

(** The callback of [reduce]. *)
Definition keep (map : jsmap value) (item : value) : res (jsmap value) :=
  (repo <- get item "repo" ;;
   if negb (map_has map repo) then Ok (map_set map repo item)
   else
     let existing := match map_get map repo with Some e => e | None => VUndef end in
     e <- get existing "last_modified" ;;
     i <- get item "last_modified" ;;
     Ok (if earlier e i then map_set map repo item else map))%res.

Fixpoint reduce (l : list value) (map : jsmap value) : res (jsmap value) :=
  match l with
  | [] => Ok map
  | item :: l' => (map' <- keep map item ;; reduce l' map')%res
  end.

(** [data.reduce(..., new Map())] *)
Definition latest (data : value) : res (jsmap value) :=
  match data with
  | VArr l => reduce l []
  | VUndef => Throw (TypeError "Cannot read property 'reduce' of undefined")
  | VNull => Throw (TypeError "Cannot read property 'reduce' of null")
  | _ => Throw (TypeError "data.reduce is not a function")
  end.

(** [files] *)
Definition files (data : value) : res (list value) :=
  (map <- latest data ;; Ok (map_values map))%res.

(** An item with a valid date. *)
Definition dated (item : value) : bool :=
  match get item "last_modified" with
  | Ok d => match fromISO d with Some _ => true | None => false end
  | Throw _ => false
  end.

(** The instant of an item. *)
Definition instant (item : value) : option Z :=
  match get item "last_modified" with
  | Ok d => fromISO d
  | Throw _ => None
  end.

(** What holds of the map after the items [seen] have gone through the
    callback: the keys differ, every entry is an item of [seen] under
    its [repo], every [repo] of [seen] has an entry, and when all dates
    are valid the entry of a [repo] is no older than any item of it. *)
Definition kept (m : jsmap value) (seen : list value) : Prop :=
  distinct_keys m = true /\
  Forall (fun e => In (snd e) seen /\ get (snd e) "repo" = Ok (fst e)) m /\
  (forall x, In x seen ->
     exists r, get x "repo" = Ok r /\ (same_value_zero r r = true -> map_has m r = true)) /\
  (forallb (dated) seen = true ->
   forall x r, In x seen -> get x "repo" = Ok r -> same_value_zero r r = true ->
     exists f t t', map_get m r = Some f /\ instant f = Some t' /\
                    instant x = Some t /\ t <= t').

End Files.

(** Sample data: two listings of one repository and one of another. *)
Definition days (v : value) : option Z :=
  match v with
  | VStr s =>
      if String.eqb s "2019-06-01T00:00:00Z" then Some 1559347200000
      else if String.eqb s "2019-07-01T00:00:00Z" then Some 1561939200000
      else None
  | _ => None
  end.

Definition listing (repo file date : string) : value :=
  VObj [("name", VStr file); ("repo", VStr repo); ("last_modified", VStr date)].

Definition sample : list value :=
  [listing "whosonfirst-data-admin-us" "us-0601.db" "2019-06-01T00:00:00Z";
   listing "whosonfirst-data-admin-ca" "ca-0701.db" "2019-07-01T00:00:00Z";
   listing "whosonfirst-data-admin-us" "us-0701.db" "2019-07-01T00:00:00Z"].

End Inventory.

(** An answer that asks the caller to slow down. *)
Definition is_throttle (o : outcome) : bool :=
  match o with
  | Response r =>
      match json r with
      | Some data => envelope_names "actionthrottledtext" data
      | None => false
      end
  | NetworkError _ => false
  end.

(** What [cookieFetch] or [response.json()] throws on an outcome, if
    anything. *)
Definition failure (o : outcome) : option exn :=
  match o with
  | NetworkError msg => Some (FetchError msg)
  | Response r =>
      match decode r with
      | Ok _ => None
      | Throw e => Some e
      end
  end.

(* ================================================================== *)
(** ** Runs over the same local store, and the rows of the history pass *)
(* ================================================================== *)


(** The Who's on First ids the claims of an entity carry, as lines
    780-786 read them: [parseInt] of the value of every claim that has
    one; [None] when reading a claim throws or a value is no number. *)
Fixpoint claim_ids (claims : list value) : option (list Z) :=
  match claims with
  | [] => Some []
  | claim :: more =>
      match GpId.claim_value claim with
      | Ok (Some v) =>
          match parseInt v with
          | VNum n => option_map (cons n) (claim_ids more)
          | _ => None
          end
      | Ok None => claim_ids more
      | Throw _ => None
      end
  end.

(** The rows [(s, n)], for [n] in [ns], are pairwise different and none
    of them is in [table]. *)
Fixpoint new_rows (s : string) (ns : list Z) (table : list (string * Z)) : bool :=
  match ns with
  | [] => true
  | n :: more =>
      negb (existsb (pair_eqb (s, n)) table) && new_rows s more (table ++ [(s, n)])
  end.

(** The rows of [map] as [db.all] returns them. *)
Definition map_rows (d : store) : list value :=
  List.map (fun r => VObj [("wd", VStr (fst r)); ("wof", VNum (snd r))]) (map_table d).

(** The world after the three statements that open the pass of lines
    714-744. *)
Definition tables_opened (w : world) : world :=
  mkWorld (script w) (db w)
    (trace w ++ [Sql CreateMapTable; Sql CreateOtherTable; Sql SelectMap]).

(* ================================================================== *)
(** * Properties *)
(* ================================================================== *)

Lemma find_named_hit lit ms :
  forallb is_object ms = true ->
  existsb (message_named lit) ms = true ->
  exists m, find_in (named lit) ms = Ok m /\ truthy m = true.
Proof.
  induction ms as [|m ms IH]; simpl; intros Hobj Hex; [discriminate|].
  apply andb_true_iff in Hobj as [Hm Hobj].
  destruct m as [| |b|n| |s|l|fs]; try discriminate Hm.
  unfold message_named in Hex. unfold named at 1. simpl in *.
  destruct (assoc "name" fs) as [[| |b|n| |s|l|gs]|]; simpl in *;
    try (apply IH; assumption).
  destruct (String.eqb s lit); simpl in *.
  - eexists; split; reflexivity.
  - apply IH; assumption.
Qed.

(** ** A program logic for runs *)

Section Hoare.

Context {Inv : store -> Prop} {P : event -> Prop}.

Lemma hoare_ret A (a : A) (Q : A -> Prop) : Q a -> hoare Inv P (ret a) Q.
Proof.
  intros Ha w Hw. simpl. repeat split; auto.
  - exists []. rewrite app_nil_r. auto.
  - intros a' E. inversion E. subst. exact Ha.
Qed.

Lemma hoare_throw A e (Q : A -> Prop) : hoare Inv P (throw e) Q.
Proof.
  intros w Hw. simpl. repeat split; auto.
  - exists []. rewrite app_nil_r. auto.
  - discriminate.
Qed.

Lemma hoare_bind A B (m : M A) (k : A -> M B) (Q : A -> Prop) (R : B -> Prop) :
  hoare Inv P m Q -> (forall a, Q a -> hoare Inv P (k a) R) -> hoare Inv P (bind m k) R.
Proof.
  intros Hm Hk w Hw. unfold bind.
  destruct (Hm w Hw) as (HI & (evs & Ht & Hevs) & HQ).
  destruct (m w) as [[a|e|] w1]; simpl in *.
  - destruct (Hk a (HQ a eq_refl) w1 HI) as (HI' & (evs' & Ht' & Hevs') & HR).
    repeat split; auto.
    exists (evs ++ evs'). rewrite Ht', Ht, app_assoc. split; auto.
    apply Forall_app; auto.
  - repeat split; eauto. discriminate.
  - repeat split; eauto. discriminate.
Qed.

Lemma hoare_eval A (r : res A) (Q : A -> Prop) :
  (forall a, r = Ok a -> Q a) -> hoare Inv P (eval r) Q.
Proof.
  intros H. destruct r; simpl; [apply hoare_ret; auto | apply hoare_throw].
Qed.

Lemma hoare_emit ev (Q : unit -> Prop) : P ev -> Q tt -> hoare Inv P (emit ev) Q.
Proof.
  intros Hev HQ w Hw. simpl. repeat split; auto.
  - exists [ev]. auto.
  - intros [] _. exact HQ.
Qed.

Lemma hoare_log t : P (Log t) -> hoare Inv P (log t) (fun _ => True).
Proof. intros H. apply hoare_emit; auto. Qed.

Lemma hoare_emit_any ev : P ev -> hoare Inv P (emit ev) (fun _ => True).
Proof. intros H. apply hoare_emit; auto. Qed.

Lemma hoare_eval_any A (r : res A) : hoare Inv P (eval r) (fun _ => True).
Proof. apply hoare_eval. auto. Qed.

Lemma hoare_ret_any A (a : A) : hoare Inv P (ret a) (fun _ => True).
Proof. apply hoare_ret. auto. Qed.

Lemma hoare_fetch_json c req :
  P (Direct c req) -> hoare Inv P (fetch_json c req) (fun _ => True).
Proof.
  intros H w Hw. unfold fetch_json.
  destruct (script w) as [|[msg|r] rest]; simpl;
    [| |destruct (decode r)]; simpl; repeat split; eauto.
Qed.

Lemma hoare_call name f req :
  (forall ios r, P (Call name req ios r)) -> hoare Inv P (call name f req) (fun _ => True).
Proof.
  intros H w Hw. unfold call.
  destruct (f req (script w)) as [[ios r] rest]. simpl. repeat split; eauto.
Qed.

Lemma hoare_db_run_await stmt f :
  P (Sql stmt) -> (forall d d', Inv d -> f d = Ok d' -> Inv d') ->
  hoare Inv P (db_run_await stmt f) (fun _ => True).
Proof.
  intros H Hf w Hw. unfold db_run_await.
  destruct (f (db w)) eqn:E; simpl; repeat split; eauto.
Qed.

Lemma hoare_db_run_detached stmt f :
  P (Sql stmt) -> (forall d d', Inv d -> f d = Ok d' -> Inv d') ->
  hoare Inv P (db_run_detached stmt f) (fun _ => True).
Proof.
  intros H Hf w Hw. unfold db_run_detached.
  destruct (f (db w)) eqn:E; simpl; repeat split; eauto.
Qed.

Lemma hoare_select_map :
  P (Sql SelectMap) -> hoare Inv P select_map (fun _ => True).
Proof. intros H w Hw. simpl. repeat split; eauto. Qed.

Lemma hoare_select_other (Q : list value -> Prop) :
  P (Sql SelectOther) ->
  (forall d, Inv d -> Q (List.map (fun n => VObj [("id", VNum n)]) (other_table d))) ->
  hoare Inv P select_other Q.
Proof.
  intros H HQ w Hw. simpl. repeat split; eauto.
  intros a E. inversion E. subst. auto.
Qed.

End Hoare.

(** ** The queries *)

Section QueryFacts.

Variable pick : Sql.joined -> list Sql.joined -> Sql.joined.
Hypothesis pick_member : forall r g, In (pick r g) (r :: g).

Lemma add_to_groups_members (P : Sql.joined -> Prop) r gs :
  P r ->
  Forall (fun g : Sql.group => P (fst g) /\ Forall P (snd g)) gs ->
  Forall (fun g : Sql.group => P (fst g) /\ Forall P (snd g)) (Sql.add_to_groups r gs).
Proof.
  intros Hr. induction gs as [|[r0 more] gs IH]; simpl; intros H.
  - constructor; auto.
  - inversion H as [|? ? [H0 Hmore] Hgs]; subst.
    destruct (Sql.same_group _ _).
    + constructor; auto. simpl in *. split; auto. apply Forall_app; auto.
    + constructor; auto.
Qed.

Lemma group_by_members (P : Sql.joined -> Prop) rows :
  Forall P rows ->
  Forall (fun g : Sql.group => P (fst g) /\ Forall P (snd g)) (Sql.group_by rows).
Proof.
  unfold Sql.group_by.
  assert (G : forall gs,
             Forall (fun g : Sql.group => P (fst g) /\ Forall P (snd g)) gs ->
             Forall P rows ->
             Forall (fun g : Sql.group => P (fst g) /\ Forall P (snd g))
               (fold_left (fun gs r => Sql.add_to_groups r gs) rows gs)).
  { induction rows as [|r rows IH]; simpl; intros gs Hgs Hrows; auto.
    inversion Hrows; subst. apply IH; auto. apply add_to_groups_members; auto. }
  intros H. apply G; auto.
Qed.

Lemma picked_rows (P : Sql.joined -> Prop) rows :
  Forall P rows ->
  Forall P (List.map (fun g : Sql.group => pick (fst g) (snd g)) (Sql.group_by rows)).
Proof.
  intros H. apply Forall_map.
  eapply Forall_impl; [|apply group_by_members; exact H].
  intros [r more] [Hr Hmore]. simpl in *.
  destruct (pick_member r more) as [E|E]; [rewrite <- E; exact Hr|].
  rewrite Forall_forall in Hmore. auto.
Qed.

Lemma not_in_bad_ids x :
  Sql.holds (Sql.not (Sql.is_in x Sql.bad_ids)) = true -> is_bad (js_of_sql x) = false.
Proof.
  destruct x as [|n|s]; simpl; auto.
  destruct (n =? -99), (n =? -1), (n =? 0); simpl; auto; discriminate.
Qed.

Lemma and_holds a b : Sql.holds (Sql.and a b) = true -> Sql.holds a = true /\ Sql.holds b = true.
Proof. destruct a as [[]|], b as [[]|]; simpl; auto; discriminate. Qed.

Lemma gp_query_good src d :
  Forall (fun it => is_bad (other_id it) = false) (Sql.gp_query pick src d).
Proof.
  unfold Sql.gp_query. apply Forall_map.
  apply (picked_rows (fun r => is_bad (js_of_sql (c_other_id (snd r))) = false)).
  apply Forall_forall. intros r Hr. apply filter_In in Hr as [_ Hr].
  unfold Sql.gp_where in Hr. apply and_holds in Hr as [_ Hr].
  apply not_in_bad_ids; exact Hr.
Qed.

Lemma gn_query_good d :
  Forall (fun it => is_bad (other_id it) = false) (Sql.gn_query pick d).
Proof.
  unfold Sql.gn_query. apply Forall_map.
  apply Forall_forall. intros r Hr. apply filter_In in Hr as [Hr _].
  revert r Hr. apply Forall_forall.
  apply (picked_rows (fun r => is_bad (js_of_sql (c_other_id (snd r))) = false)).
  apply Forall_forall. intros r Hr. apply filter_In in Hr as [_ Hr].
  unfold Sql.gn_where in Hr. apply and_holds in Hr as [_ Hr].
  apply not_in_bad_ids; exact Hr.
Qed.

End QueryFacts.

(** ** The phases of [GpId.main] before the edits *)

Lemma param_set_other k k' v ps :
  k <> k' -> param k (set_param k' v ps) = param k ps.
Proof.
  intros Hk. unfold param. induction ps as [|[k0 v0] ps IH]; simpl.
  - destruct (String.eqb_spec k k'); congruence.
  - destruct (String.eqb_spec k' k0); simpl.
    + subst. destruct (String.eqb_spec k k0); congruence.
    + rewrite IH. reflexivity.
Qed.

Lemma plain_no_request ev : request_of ev = None -> plain ev.
Proof. intros H. unfold plain, searched, written. rewrite H. auto. Qed.

Lemma plain_get c req :
  search_id req = None -> body req = [] -> plain (Direct c req).
Proof.
  intros Hs Hb. unfold plain, searched, written, write_of. simpl.
  rewrite Hs, Hb. auto.
Qed.

Lemma contributions_plain sc : forall url cont edited,
  search_id url = None -> body url = [] ->
  Forall plain (fst (fst (GpId.contributions sc url cont edited))).
Proof.
  induction sc as [|o sc IH]; intros url cont edited Hs Hb; simpl;
    set (url' := if truthy cont then _ else url);
    (assert (Hs' : search_id url' = None)
      by (unfold url'; destruct (truthy cont); auto; unfold search_id; simpl;
          rewrite param_set_other by discriminate; exact Hs));
    (assert (Hb' : body url' = []) by (unfold url'; destruct (truthy cont); auto));
    (assert (Hpre : Forall plain (if truthy cont
                                  then [Log [Lit "Retreiving contributions "; Sub cont]] else []))
      by (destruct (truthy cont); constructor; auto; apply plain_no_request; reflexivity));
    (assert (Hget : Forall plain [Direct CookieFetch url'])
      by (constructor; auto; apply plain_get; auto));
    destruct (GpId.is_false cont); simpl; try (constructor; fail).
  - apply Forall_app; split; auto.
  - destruct o as [msg|r]; simpl.
    + apply Forall_app; split; auto.
    + destruct (rbind (decode r) (fun data => GpId.page data edited)) as [[cont' edited']|e]; simpl.
      * specialize (IH url' cont' edited' Hs' Hb').
        destruct (GpId.contributions sc url' cont' edited') as [[evs c] rest]. simpl in *.
        apply Forall_app; split; auto. constructor; auto. apply plain_get; auto.
      * apply Forall_app; split; auto.
Qed.

Section Phases.

Context {Inv : store -> Prop} {P : event -> Prop}.
Hypothesis P_plain : forall ev, plain ev -> P ev.
Hypothesis Inv_insert_map :
  forall d wd wof d', Inv d -> insert_map wd wof d = Ok d' -> Inv d'.

Ltac plain_event :=
  apply P_plain; first [apply plain_no_request; reflexivity | split; reflexivity].

Ltac hstep :=
  lazymatch goal with
  | |- hoare _ _ (bind _ _) _ => eapply hoare_bind; [|intros ? _]
  | |- hoare _ _ (ret _) _ => apply hoare_ret_any
  | |- hoare _ _ (throw _) _ => apply hoare_throw
  | |- hoare _ _ (eval _) _ => apply hoare_eval_any
  | |- hoare _ _ (log _) _ => apply hoare_log; plain_event
  | |- hoare _ _ (emit _) _ => apply hoare_emit_any; plain_event
  | |- hoare _ _ (fetch_json _ _) _ => apply hoare_fetch_json; plain_event
  | |- hoare _ _ select_map _ => apply hoare_select_map; plain_event
  | |- hoare _ _ (if ?b then _ else _) _ => destruct b
  end.

Lemma login_hoare PASSWORD :
  hoare Inv P (GpId.login PASSWORD) (fun _ => True).
Proof. unfold GpId.login. repeat hstep. Qed.

Lemma loadEdited_hoare : hoare Inv P GpId.loadEdited (fun _ => True).
Proof.
  intros w Hw. unfold GpId.loadEdited.
  pose proof (contributions_plain (script w) userContribsUrl VNull []
                eq_refl eq_refl) as H.
  destruct (GpId.contributions (script w) userContribsUrl VNull []) as [[evs c] rest].
  simpl in *. repeat split; auto.
  exists evs. split; auto. eapply Forall_impl; [|exact H]. exact P_plain.
Qed.

Lemma history_hoare : hoare Inv P GpId.history (fun _ => True).
Proof.
  unfold GpId.history. hstep; [hstep|]. hstep; [apply loadEdited_hoare|]. repeat hstep.
Qed.

Lemma retry_plain_hoare req :
  search_id req = None -> write_of req = None ->
  hoare Inv P (GpId.retry req) (fun _ => True).
Proof.
  intros Hs Hw. apply hoare_call. intros ios r. apply P_plain.
  unfold plain, searched, written. simpl. auto.
Qed.

Lemma claims_loop_hoare entity claims : forall wofIds,
  hoare Inv P (GpId.claims_loop entity claims wofIds) (fun _ => True).
Proof.
  induction claims as [|claim more IH]; intros wofIds; simpl.
  - hstep.
  - hstep; [hstep|]. destruct a as [v|]; [|apply IH].
    hstep; [|apply IH].
    apply hoare_db_run_await; [plain_event|]. intros d d' Hd E. eauto.
Qed.

Lemma missing_loop_hoare missing : forall wofIds,
  hoare Inv P (GpId.missing_loop missing wofIds) (fun _ => True).
Proof.
  induction missing as [|entity more IH]; intros wofIds; simpl.
  - hstep.
  - hstep; [hstep|]. hstep; [apply retry_plain_hoare; reflexivity|].
    hstep; [hstep|]. hstep; [|apply IH].
    destruct a1; [apply claims_loop_hoare | hstep].
Qed.

Lemma links_hoare edited : hoare Inv P (GpId.links edited) (fun _ => True).
Proof.
  unfold GpId.links. do 4 (hstep; [hstep|]). apply missing_loop_hoare.
Qed.

End Phases.

(** ** The edits of [GpId.main] *)

Section Edits.

Context {Inv : store -> Prop} {P : event -> Prop}.
Variable good : item -> Prop.
Hypothesis P_log : forall t, P (Log t).
Hypothesis P_insert_other : forall v, P (Sql (InsertOrIgnoreOther v)).
Hypothesis P_token : forall ios r, P (Call RetryFetch csrfTokenUrl ios r).
Hypothesis P_search :
  forall it ios r, good it ->
    P (Call BackoffFetch (searchUrl GpId.otherProperty GpId.wofProperty (other_id it)) ios r).
Hypothesis P_write :
  forall it e k ios r, good it ->
    P (Call RetryFetch (editRequest GpId.wofProperty e (id it) k) ios r).
Hypothesis Inv_insert_other :
  forall d v d', Inv d -> insert_or_ignore_other v d = Ok d' -> Inv d'.

Lemma getToken_hoare : hoare Inv P GpId.getToken (fun _ => True).
Proof.
  unfold GpId.getToken. eapply hoare_bind; [|intros ? _; apply hoare_eval_any].
  apply hoare_call. exact P_token.
Qed.

Lemma edit_hoare size edited it i :
  good it -> hoare Inv P (GpId.edit size edited it i) (fun _ => True).
Proof.
  intros Hit. unfold GpId.edit.
  eapply hoare_bind; [apply hoare_call; intros; apply P_search; exact Hit|intros searchData _].
  eapply hoare_bind; [apply hoare_eval_any|intros none _].
  destruct none.
  - eapply hoare_bind; [apply hoare_log, P_log|intros _ _].
    apply hoare_db_run_detached; [apply P_insert_other|]. intros d d' Hd E. eauto.
  - eapply hoare_bind; [apply hoare_eval_any|intros entityId _].
    destruct (set_has edited entityId).
    + apply hoare_log, P_log.
    + eapply hoare_bind; [apply hoare_log, P_log|intros _ _].
      eapply hoare_bind; [apply getToken_hoare|intros token _].
      eapply hoare_bind; [apply hoare_call; intros; apply P_write; exact Hit|intros _ _].
      apply hoare_log, P_log.
Qed.

Lemma edit_loop_hoare size edited items : forall i,
  Forall good items -> hoare Inv P (GpId.edit_loop size edited items i) (fun _ => True).
Proof.
  induction items as [|it more IH]; intros i Hgood; simpl.
  - apply hoare_ret_any.
  - inversion Hgood; subst.
    eapply hoare_bind; [apply edit_hoare; assumption|intros _ _]. apply IH; assumption.
Qed.

End Edits.

(** ** The candidates of [GpId.main] *)

Lemma map_set_values {A} (Q : A -> Prop) (m : jsmap A) k a :
  Forall Q (map_values m) -> Q a -> Forall Q (map_values (map_set m k a)).
Proof.
  unfold map_values. induction m as [|[k' a'] m IH]; simpl; intros Hm Ha.
  - constructor; auto.
  - inversion Hm; subst. destruct (same_value_zero k k'); simpl; constructor; auto.
Qed.

Lemma dedup_values (Q : item -> Prop) rows :
  Forall Q rows -> Forall Q (map_values (GpId.dedup rows)).
Proof.
  unfold GpId.dedup.
  assert (G : forall m, Forall Q (map_values m) -> Forall Q rows ->
              Forall Q (map_values (fold_left (fun m it => map_set m (parseInt (id it)) it) rows m))).
  { induction rows as [|it rows IH]; simpl; intros m Hm Hrows; auto.
    inversion Hrows; subst. apply IH; auto. apply map_set_values; auto. }
  intros H. apply G; auto.
Qed.

Lemma filter_values {A} (Q : A -> Prop) (f : value * A -> bool) (m : jsmap A) :
  Forall Q (map_values m) -> Forall Q (map_values (filter f m)).
Proof.
  unfold map_values. induction m as [|e m IH]; simpl; intros Hm; auto.
  inversion Hm; subst. destruct (f e); simpl; auto.
Qed.

Lemma drop_linked_values (Q : item -> Prop) wofIds : forall items,
  Forall Q (map_values items) -> Forall Q (map_values (GpId.drop_linked items wofIds)).
Proof.
  unfold GpId.drop_linked. induction wofIds as [|x wofIds IH]; simpl; intros items H; auto.
  apply IH. destruct (map_has items x); auto. apply filter_values; auto.
Qed.

Lemma drop_missing_values (Q : item -> Prop) others items :
  Forall Q (map_values items) -> Forall Q (map_values (GpId.drop_missing items others)).
Proof. apply filter_values. Qed.

Section Candidates.

Context {Inv : store -> Prop} {P : event -> Prop}.
Variable pick : Sql.joined -> list Sql.joined -> Sql.joined.
Hypothesis P_plain : forall ev, plain ev -> P ev.

Lemma query_files_hoare (Q : item -> Prop) files :
  Forall (fun d => Forall Q (Sql.gp_query pick GpId.otherSource d)) files ->
  forall rows, Forall Q rows ->
  hoare Inv P (GpId.query_files pick files rows) (Forall Q).
Proof.
  induction files as [|file more IH]; intros Hfiles rows Hrows; simpl.
  - apply hoare_ret. exact Hrows.
  - inversion Hfiles; subst.
    eapply hoare_bind;
      [apply hoare_log; apply P_plain, plain_no_request; reflexivity|intros _ _].
    eapply hoare_bind;
      [apply hoare_log; apply P_plain, plain_no_request; reflexivity|intros _ _].
    apply IH; auto.
    destruct (0 <? _); auto. apply Forall_app; auto.
Qed.

Lemma candidates_hoare (Q : item -> Prop) files wofIds :
  Forall (fun d => Forall Q (Sql.gp_query pick GpId.otherSource d)) files ->
  hoare Inv P (GpId.candidates pick files wofIds) (fun items => Forall Q (map_values items)).
Proof.
  intros H. unfold GpId.candidates.
  eapply hoare_bind; [apply (query_files_hoare Q); auto|].
  intros rows Hrows. apply hoare_ret.
  apply drop_linked_values, dedup_values, Hrows.
Qed.

End Candidates.

Lemma hoare_events {A} (Inv : store -> Prop) (P : event -> Prop) (m : M A) Q w evs :
  hoare Inv P m Q -> Inv (db w) ->
  trace (snd (m w)) = trace w ++ evs -> Forall P evs.
Proof.
  intros H Hw E. destruct (H w Hw) as (_ & (evs' & E' & Hevs) & _).
  rewrite E in E'. apply app_inv_head in E'. subst. exact Hevs.
Qed.

Lemma plain_stems_from rows ev : plain ev -> stems_from rows ev.
Proof.
  intros [Hs Hw]. split; intros; congruence.
Qed.

Lemma gp_main_stems_from pick PASSWORD files :
  (forall r g, In (pick r g) (r :: g)) ->
  hoare (fun _ => True)
        (stems_from (flat_map (Sql.gp_query pick GpId.otherSource) files))
        (GpId.main pick PASSWORD files) (fun _ => True).
Proof.
  intros Hpick.
  set (cands := flat_map (Sql.gp_query pick GpId.otherSource) files).
  set (good := good_row cands).
  assert (Hcands : Forall (fun d => Forall good (Sql.gp_query pick GpId.otherSource d)) files).
  { apply Forall_forall. intros d Hd. apply Forall_forall. intros it Hit. split.
    - apply in_flat_map. exists d. auto.
    - pose proof (gp_query_good pick Hpick GpId.otherSource d) as G.
      rewrite Forall_forall in G. auto. }
  unfold GpId.main.
  eapply hoare_bind; [apply login_hoare; apply plain_stems_from|intros _ _].
  eapply hoare_bind; [apply history_hoare; apply plain_stems_from|intros edited _].
  eapply hoare_bind; [apply links_hoare; auto using plain_stems_from|intros wofIds _].
  eapply hoare_bind; [apply (candidates_hoare pick (plain_stems_from cands) good); exact Hcands|].
  intros items Hitems. unfold GpId.finish.
  eapply hoare_bind;
    [apply (hoare_select_other (fun _ => True)); auto;
     apply plain_stems_from, plain_no_request; reflexivity|intros otherRows _].
  eapply hoare_bind; [apply hoare_eval_any|intros others _].
  eapply hoare_bind;
    [apply hoare_log; apply plain_stems_from, plain_no_request; reflexivity|intros _ _].
  apply (edit_loop_hoare good); auto;
    try (intros; apply plain_stems_from;
         first [apply plain_no_request; reflexivity | split; reflexivity]).
  - intros it ios r [Hin Hgood]. split.
    + intros o E. inversion E; subst. exists it. auto.
    + intros e i k E. discriminate E.
  - intros it e k ios r [Hin Hgood]. split.
    + intros o E. discriminate E.
    + intros e' i k' E. inversion E; subst. exists it. auto.
  - apply drop_missing_values. exact Hitems.
Qed.

(** ** The [gn:id] revision *)

Section GnEdits.

Variable cands : list item.

Ltac plain_event :=
  apply plain_stems_from; first [apply plain_no_request; reflexivity | split; reflexivity].

Lemma gn_edit_hoare pt edited it :
  good_row cands it ->
  hoare (fun _ => True) (stems_from cands) (GnId.edit pt edited it) (fun _ => True).
Proof.
  intros [Hin Hgood]. unfold GnId.edit.
  eapply hoare_bind; [apply hoare_call; intros ios r|intros searchData _].
  { split.
    - intros o E. inversion E; subst. exists it. auto.
    - intros e i k E. discriminate E. }
  eapply hoare_bind; [apply hoare_eval_any|intros none _].
  destruct none; [apply hoare_log; plain_event|].
  eapply hoare_bind; [apply hoare_eval_any|intros entityId _].
  destruct (set_has edited entityId); [apply hoare_log; plain_event|].
  eapply hoare_bind; [apply hoare_call; intros; plain_event|intros instanceData _].
  eapply hoare_bind; [apply hoare_eval_any|intros claims _].
  destruct (is_undefined claims).
  { eapply hoare_bind; [apply hoare_log; plain_event|intros _ _].
    apply hoare_emit_any; plain_event. }
  eapply hoare_bind; [apply hoare_eval_any|intros rej _].
  destruct rej as [instanceOf|]; [apply hoare_log; plain_event|].
  eapply hoare_bind; [apply hoare_log; plain_event|intros _ _].
  eapply hoare_bind.
  { unfold GnId.getToken.
    eapply hoare_bind; [apply hoare_call; intros; plain_event|intros; apply hoare_eval_any]. }
  intros token _.
  eapply hoare_bind; [apply hoare_call; intros ios r|intros _ _; apply hoare_log; plain_event].
  split.
  - intros o E. discriminate E.
  - intros e i k E. inversion E; subst. exists it. auto.
Qed.

Lemma gn_edit_loop_hoare pt edited rows :
  Forall (good_row cands) rows ->
  hoare (fun _ => True) (stems_from cands) (GnId.edit_loop pt edited rows) (fun _ => True).
Proof.
  induction rows as [|it more IH]; intros Hrows; simpl.
  - apply hoare_ret_any.
  - inversion Hrows; subst.
    eapply hoare_bind; [apply gn_edit_hoare; assumption|intros _ _; auto].
Qed.

Lemma gn_query_files_hoare pick files :
  Forall (fun d => Forall (good_row cands) (Sql.gn_query pick d)) files ->
  forall rows, Forall (good_row cands) rows ->
  hoare (fun _ => True) (stems_from cands) (GnId.query_files pick files rows) (Forall (good_row cands)).
Proof.
  induction files as [|file more IH]; intros Hfiles rows Hrows; simpl.
  - apply hoare_ret. exact Hrows.
  - inversion Hfiles; subst.
    eapply hoare_bind; [apply hoare_log; plain_event|intros _ _].
    eapply hoare_bind; [apply hoare_log; plain_event|intros _ _].
    apply IH; auto.
    destruct (0 <? _); auto. apply Forall_app; auto.
Qed.

End GnEdits.

Lemma gn_query_and_edit_stems_from pick pt edited files :
  (forall r g, In (pick r g) (r :: g)) ->
  hoare (fun _ => True)
        (stems_from (flat_map (Sql.gn_query pick) files))
        (GnId.query_and_edit pick pt edited files) (fun _ => True).
Proof.
  intros Hpick.
  set (cands := flat_map (Sql.gn_query pick) files).
  assert (Hcands : Forall (fun d => Forall (good_row cands) (Sql.gn_query pick d)) files).
  { apply Forall_forall. intros d Hd. apply Forall_forall. intros it Hit. split.
    - apply in_flat_map. exists d. auto.
    - pose proof (gn_query_good pick Hpick d) as G.
      rewrite Forall_forall in G. auto. }
  unfold GnId.query_and_edit.
  eapply hoare_bind; [apply (gn_query_files_hoare cands); auto|intros rows Hrows].
  eapply hoare_bind;
    [apply hoare_log; apply plain_stems_from, plain_no_request; reflexivity|intros _ _].
  apply gn_edit_loop_hoare. exact Hrows.
Qed.

(** ** Claims *)

(** C10. A record whose foreign id is [-99], [-1] or [0] is in the result
    of neither query ([gn:id], [gp:id]); and in a run, every search asks
    for the foreign id of a record the query returned, every write
    carries the id of such a record, and that record's foreign id is
    none of the three. *)
Theorem bad_foreign_ids_are_left_out
    (pick : Sql.joined -> list Sql.joined -> Sql.joined)
    (pick_member : forall r g, In (pick r g) (r :: g))
    (PASSWORD : value) (pt : GnId.placetypes) (edited : jsset)
    (files : list wof_db) (w : world) :
  (forall d it, In it (Sql.gn_query pick d) \/ In it (Sql.gp_query pick GpId.otherSource d) ->
     is_bad (other_id it) = false) /\
  (forall evs, trace (snd (GpId.main pick PASSWORD files w)) = trace w ++ evs ->
     Forall (stems_from (flat_map (Sql.gp_query pick GpId.otherSource) files)) evs) /\
  (forall evs, trace (snd (GnId.query_and_edit pick pt edited files w)) = trace w ++ evs ->
     Forall (stems_from (flat_map (Sql.gn_query pick) files)) evs).
Proof.
  split; [|split].
  - intros d it [H|H].
    + pose proof (gn_query_good pick pick_member d) as G. rewrite Forall_forall in G. auto.
    + pose proof (gp_query_good pick pick_member GpId.otherSource d) as G.
      rewrite Forall_forall in G. auto.
  - intros evs E.
    eapply hoare_events; [apply gp_main_stems_from; exact pick_member| |exact E]. exact I.
  - intros evs E.
    eapply hoare_events; [apply gn_query_and_edit_stems_from; exact pick_member| |exact E].
    exact I.
Qed.

(** *** The negative cache *)

Lemma set_has_add s v x : set_has s x = true -> set_has (set_add s v) x = true.
Proof.
  intros H. unfold set_add. destruct (set_has s v); auto.
  unfold set_has in *. rewrite existsb_app, H. reflexivity.
Qed.

Lemma set_has_fold_add ids : forall s x,
  set_has s x = true -> set_has (fold_left set_add ids s) x = true.
Proof.
  induction ids as [|i ids IH]; simpl; intros s x H; auto.
  apply IH, set_has_add, H.
Qed.

Lemma set_has_added ids n : forall s,
  In (VNum n) ids -> set_has (fold_left set_add ids s) (VNum n) = true.
Proof.
  induction ids as [|i ids IH]; simpl; intros s Hin; [contradiction|].
  destruct Hin as [E|H].
  - subst. apply set_has_fold_add. unfold set_add.
    destruct (set_has s (VNum n)) eqn:Hs; auto.
    unfold set_has. rewrite existsb_app. simpl. rewrite Z.eqb_refl, orb_true_r. reflexivity.
  - apply IH, H.
Qed.










(** *** The transport *)

Lemma envelope_names_shape lit data :
  envelope_names lit data = true ->
  exists error messages m,
    get data "error" = Ok error /\ truthy error = true /\
    get error "messages" = Ok messages /\ truthy messages = true /\
    find messages (named lit) = Ok m /\ truthy m = true.
Proof.
  unfold envelope_names. destruct data as [| |b|n| |s|l|fs]; try discriminate.
  destruct (assoc "error" fs) as [[| |b|n| |s|l|efs]|] eqn:Ee; try discriminate.
  destruct (assoc "messages" efs) as [[| |b|n| |s|l|gs]|] eqn:Em; try discriminate.
  intros H. apply andb_true_iff in H as [Hobj Hex].
  destruct (find_named_hit lit l Hobj Hex) as (m & Hm & Ht).
  exists (VObj efs), (VArr l), m. simpl. rewrite Ee, Em. repeat split; auto.
Qed.

(** C5. When the decoded body of a response carries an error envelope
    with a message named [actionthrottledtext], [retryFetch] waits
    [1000 * 60] milliseconds whatever [iteration] is, and calls itself
    with [iteration] at its default [0].  The transports of [index.js]
    and of [part_000], which have no counter, wait the same time. *)
Theorem throttle_waits_sixty_seconds
    (input : request) (response : response) (data : value)
    (rest : list outcome) (iteration : Z)
    (is_ok : ok response = true)
    (decoded : json response = Some data)
    (throttled : envelope_names "actionthrottledtext" data = true) :
  Transport.retryFetch_attempt (Response response) iteration =
    ([ConsoleLog (lit "Request Throttled, Retrying in 60 seconds"); Timeout 60000], Retry 0) /\
  Transport.retryFetch input (Response response :: rest) iteration =
    (let '(log, r, rest') := Transport.retryFetch input rest 0 in
     (Fetch CookieFetch input
        :: ConsoleLog (lit "Request Throttled, Retrying in 60 seconds")
        :: Timeout 60000 :: log, r, rest')) /\
  IndexJs.retryFetch input (Response response :: rest) =
    (let '(log, r, rest') := IndexJs.retryFetch input rest in
     (Fetch CookieFetch input
        :: ConsoleLog (lit "Request Throttled, Retrying in 60 seconds")
        :: Timeout 60000 :: log, r, rest')) /\
  WdId.retryFetch input (Response response :: rest) =
    (let '(log, r, rest') := WdId.retryFetch input rest in
     (Fetch CookieFetch input
        :: ConsoleLog (lit "Request Throttled, Retrying in 60 seconds")
        :: Timeout 60000 :: log, r, rest')).
Proof.
  destruct (envelope_names_shape _ _ throttled)
    as (error & messages & m & He & Hte & Hm & Htm & Hf & Ht).
  assert (A : Transport.retryFetch_attempt (Response response) iteration =
              ([ConsoleLog (lit "Request Throttled, Retrying in 60 seconds"); Timeout 60000],
               Retry 0)).
  { unfold Transport.retryFetch_attempt, Transport.retryFetch_try, decode,
      Transport.envelope_block.
    rewrite is_ok, decoded. simpl. rewrite He, Hte, Hm, Htm, Hf, Ht. reflexivity. }
  split; [exact A|]. split; [|split].
  - simpl. rewrite A. reflexivity.
  - simpl. unfold decode, IndexJs.envelope_block. rewrite decoded. simpl.
    rewrite He. simpl. rewrite Hte, Hm. simpl. rewrite Htm, Hf. simpl. rewrite Ht.
    reflexivity.
  - simpl. unfold decode, WdId.envelope_block. rewrite decoded. simpl.
    rewrite He. simpl. rewrite Hte, Hm. simpl. rewrite Htm, Hf. simpl. rewrite Ht.
    reflexivity.
Qed.

(** C4 (what the code does). A response whose status is in the 4xx range
    is not [ok]; the line that logs it reads the unbound identifier
    [repsonse], the [ReferenceError] lands in the [catch] block, and
    [retryFetch] waits [2 ^ iteration] seconds and calls itself with
    [iteration + 1]: the body of the response is never decoded. *)
Theorem client_errors_are_retried
    (input : request) (response : response) (rest : list outcome) (iteration : Z)
    (client_error : 400 <= status response <= 499) :
  Transport.retryFetch input (Response response :: rest) iteration =
    (let '(log, r, rest') := Transport.retryFetch input rest (iteration + 1) in
     (Fetch CookieFetch input
        :: ConsoleLog [Lit "Request Error: "; Sub (VStr "repsonse is not defined")]
        :: backoff_wait (2 ^ iteration) ++ log, r, rest')).
Proof.
  assert (E : ok response = false).
  { unfold ok. apply andb_false_iff. right. apply Z.leb_gt. lia. }
  simpl. unfold Transport.retryFetch_attempt, Transport.retryFetch_try.
  rewrite E. simpl. reflexivity.
Qed.

(** *** Writes and search hits in the edits of [GpId.main] *)

Lemma writes_app a b : writes (a ++ b) = writes a ++ writes b.
Proof. apply flat_map_app. Qed.

Lemma resolutions_app a b : resolutions (a ++ b) = resolutions a ++ resolutions b.
Proof. apply flat_map_app. Qed.

Lemma edit_balanced size edited it i : balanced edited (GpId.edit size edited it i).
Proof.
  intros w.
  unfold GpId.edit, GpId.backoff, GpId.getToken, GpId.retry, bind, call, log, emit,
    db_run_detached, eval, ret, throw.
  destruct (Transport.backoffFetch _ (script w) 0) as [[ios sr] rest] eqn:Es.
  destruct sr as [searchData| |]; cbn [fst snd script db trace];
    try (eexists; split; [reflexivity|]; exists []; cbn; split; [reflexivity|intros [? ?]; discriminate]).
  destruct (GpId.no_entity_found searchData) as [[|]|] eqn:En; cbn [fst snd script db trace].
  - destruct (insert_or_ignore_other _ _);
      (eexists; split; [rewrite <- !app_assoc; reflexivity|]).
    all: exists []; unfold resolutions, writes, resolved; cbn; rewrite En;
      split; reflexivity.
  - destruct (GpId.first_title searchData) as [entityId|] eqn:Et; cbn [fst snd script db trace].
    + destruct (set_has edited entityId) eqn:Eh; cbn [fst snd script db trace].
      * eexists; split; [rewrite <- !app_assoc; reflexivity|].
        exists []. unfold resolutions, writes, resolved. cbn. rewrite En, Et. cbn.
        rewrite Eh. split; reflexivity.
      * destruct (Transport.retryFetch csrfTokenUrl _ 0) as [[ios1 tr] rest1] eqn:Ek.
        destruct tr as [data| |]; cbn [fst snd script db trace];
          try (eexists; split; [rewrite <- !app_assoc; reflexivity|];
               exists [entityId]; unfold resolutions, writes, resolved; cbn;
               rewrite En, Et; cbn; rewrite Eh; split; [reflexivity|intros [? ?]; discriminate]).
        destruct (rbind (get data "query") _) as [token|] eqn:Eq; cbn [fst snd script db trace];
          try (eexists; split; [rewrite <- !app_assoc; reflexivity|];
               exists [entityId]; unfold resolutions, writes, resolved; cbn;
               rewrite En, Et; cbn; rewrite Eh; split; [reflexivity|intros [? ?]; discriminate]).
        destruct (Transport.retryFetch (editRequest _ _ _ _) _ 0) as [[ios2 wr] rest2] eqn:Ew.
        destruct wr as [wd| |]; cbn [fst snd script db trace];
          (eexists; split; [rewrite <- !app_assoc; reflexivity|];
           exists []; unfold resolutions, writes, resolved; cbn;
           rewrite En, Et; cbn; rewrite Eh; split; reflexivity).
    + eexists; split; [reflexivity|]. exists [].
      unfold resolutions, writes, resolved. cbn. rewrite En, Et.
      split; [reflexivity|intros [? ?]; discriminate].
  - eexists; split; [reflexivity|]. exists [].
    unfold resolutions, writes, resolved. cbn. rewrite En.
    split; [reflexivity|intros [? ?]; discriminate].
Qed.

Section Balanced.

Variable edited : jsset.

Lemma balanced_bind A B (m : M A) (k : A -> M B) :
  balanced edited m -> (forall a, balanced edited (k a)) -> balanced edited (bind m k).
Proof.
  intros Hm Hk w. unfold bind.
  destruct (Hm w) as (evs & Ht & tail & Hf & Hd).
  destruct (m w) as [[a|e|] w1]; simpl in *.
  - destruct (Hk a w1) as (evs' & Ht' & tail' & Hf' & Hd').
    exists (evs ++ evs'). rewrite Ht', Ht, app_assoc. split; [reflexivity|].
    exists tail'. rewrite resolutions_app, writes_app, filter_app, Hf, Hf'.
    rewrite (Hd (ex_intro _ a eq_refl)), app_nil_r, app_assoc. auto.
  - exists evs. split; auto. exists tail. split; auto. intros [a E]. discriminate.
  - exists evs. split; auto. exists tail. split; auto. intros [a E]. discriminate.
Qed.

Lemma plain_quiet evs : Forall plain evs -> resolutions evs = [] /\ writes evs = [].
Proof.
  induction 1 as [|ev evs [Hs Hw] _ [IHr IHw]]; [auto|].
  unfold resolutions, writes in *. simpl. rewrite IHr, IHw, Hw.
  split; [|reflexivity].
  destruct ev as [c req|f req ios r|t|v|st]; try reflexivity.
  unfold searched in Hs. simpl in *. destruct f; [reflexivity|].
  destruct r; try reflexivity. rewrite Hs. reflexivity.
Qed.

Lemma plain_balanced A (m : M A) (Q : A -> Prop) :
  hoare (fun _ => True) plain m Q -> balanced edited m.
Proof.
  intros H w. destruct (H w I) as (_ & (evs & Ht & Hevs) & _).
  exists evs. split; auto. exists [].
  destruct (plain_quiet evs Hevs) as [Hr Hw]. rewrite Hr, Hw. auto.
Qed.

Lemma edit_loop_balanced size items : forall i,
  balanced edited (GpId.edit_loop size edited items i).
Proof.
  induction items as [|it more IH]; intros i; simpl.
  - apply (plain_balanced _ _ (fun _ => True)), hoare_ret_any.
  - apply balanced_bind; [apply edit_balanced|intros _; apply IH].
Qed.

End Balanced.

Lemma filter_all {A} (f : A -> bool) l : Forall (fun x => f x = true) (filter f l).
Proof.
  apply Forall_forall. intros x Hx. apply filter_In in Hx. tauto.
Qed.

(** C1 (as the code has it). In the edits of [GpId.main], the entities
    [createClaim] is called with are, in order, the first hits of the
    searches of the run that are not in the set [edited] loaded from the
    contribution history (when the run stops half-way, the last hit may
    lack its write).  So no entity of [edited] is written, an entity is
    written once for every search that returns it, and at most once when
    the first hits of the searches are pairwise different. *)
Theorem writes_follow_first_hits
    (size : Z) (edited : jsset) (items : list item) (i : Z) (w : world) (evs : list event)
    (run : trace (snd (GpId.edit_loop size edited items i w)) = trace w ++ evs) :
  (exists tail,
     filter (fun e => negb (set_has edited e)) (resolutions evs) = writes evs ++ tail /\
     (fst (GpId.edit_loop size edited items i w) = Done tt -> tail = [])) /\
  Forall (fun e => set_has edited e = false) (writes evs) /\
  (NoDup (resolutions evs) -> NoDup (writes evs)).
Proof.
  destruct (edit_loop_balanced edited size items i w) as (evs' & Ht & tail & Hf & Hd).
  rewrite run in Ht. apply app_inv_head in Ht. subst evs'.
  split; [|split].
  - exists tail. split; auto. intros E. apply Hd. exists tt. exact E.
  - pose proof (filter_all (fun e => negb (set_has edited e)) (resolutions evs)) as H.
    rewrite Hf in H. apply Forall_app in H as [H _].
    eapply Forall_impl; [|exact H]. intros e He. apply negb_true_iff in He. exact He.
  - intros Hnd. apply (NoDup_filter (fun e => negb (set_has edited e))) in Hnd.
    rewrite Hf in Hnd. apply NoDup_app_remove_r in Hnd. exact Hnd.
Qed.

Lemma writes_follow_first_hits_witness :
  trace (snd (GpId.edit_loop 2 [VStr "Q7"] Sample.two_items 0
                (Sample.start Sample.two_searches Sample.empty)))
  = trace (Sample.start Sample.two_searches Sample.empty)
    ++ trace (snd (GpId.edit_loop 2 [VStr "Q7"] Sample.two_items 0
                     (Sample.start Sample.two_searches Sample.empty))) /\
  resolutions (trace (snd (GpId.edit_loop 2 [VStr "Q7"] Sample.two_items 0
                             (Sample.start Sample.two_searches Sample.empty))))
  = [VStr "Q5"; VStr "Q7"] /\
  writes (trace (snd (GpId.edit_loop 2 [VStr "Q7"] Sample.two_items 0
                        (Sample.start Sample.two_searches Sample.empty))))
  = [VStr "Q5"] /\
  Forall (fun e => set_has [VStr "Q7"] e = false)
    (writes (trace (snd (GpId.edit_loop 2 [VStr "Q7"] Sample.two_items 0
                           (Sample.start Sample.two_searches Sample.empty))))).
Proof.
  split; [reflexivity|]. split; [reflexivity|]. split; [reflexivity|].
  apply (writes_follow_first_hits 2 [VStr "Q7"] Sample.two_items 0
           (Sample.start Sample.two_searches Sample.empty)
           (trace (snd (GpId.edit_loop 2 [VStr "Q7"] Sample.two_items 0
                          (Sample.start Sample.two_searches Sample.empty))))).
  reflexivity.
Defined.

(** C1 (as stated) fails: in this run of [GpId.main] the records [101]
    and [102] are resolved by search to the same entity [Q5], and
    [createClaim] is called twice with [Q5]. *)
Lemma same_entity_is_written_twice :
  fst (GpId.main Sample.pick_first (VStr "secret") [Sample.distribution]
         (Sample.start Sample.same_entity Sample.empty)) = Done tt /\
  writes (trace (snd (GpId.main Sample.pick_first (VStr "secret") [Sample.distribution]
                        (Sample.start Sample.same_entity Sample.empty))))
  = [VStr "Q5"; VStr "Q5"].
Proof. vm_compute. split; reflexivity. Qed.

(** *** Link records *)

Lemma insert_other_map_table v d d' :
  insert_or_ignore_other v d = Ok d' -> map_table d' = map_table d.
Proof.
  unfold insert_or_ignore_other. destruct (bind_integer v); [|discriminate].
  destruct (existsb _ _); intros E; inversion E; reflexivity.
Qed.

Lemma insert_map_keeps wd wof d d' r :
  insert_map wd wof d = Ok d' -> In r (map_table d) -> In r (map_table d').
Proof.
  unfold insert_map. destruct (bind_text wd), (bind_integer wof); try discriminate.
  destruct (existsb _ _); [discriminate|]. intros E Hr. inversion E. simpl.
  apply in_or_app. auto.
Qed.

Lemma claims_loop_inserts entity s claims : forall ns wofIds w,
  bind_text entity = Some s ->
  claim_ids claims = Some ns ->
  new_rows s ns (map_table (db w)) = true ->
  GpId.claims_loop entity claims wofIds w =
    (Done (fold_left set_add (List.map VNum ns) wofIds),
     mkWorld (script w)
       (mkStore (map_table (db w) ++ List.map (pair s) ns) (other_table (db w)))
       (trace w ++ List.map (fun n => Sql (InsertMap entity (VNum n))) ns)).
Proof.
  induction claims as [|claim more IH]; intros ns wofIds w text ids fresh.
  - simpl in ids. inversion ids; subst ns. simpl. rewrite !app_nil_r.
    destruct w as [sc [mt ot] t]. reflexivity.
  - simpl in ids. destruct (GpId.claim_value claim) as [[v|]|e] eqn:Ev; [| |discriminate].
    + destruct (parseInt v) as [| |b|n| |s'|l|fs] eqn:Ep; try discriminate.
      destruct (claim_ids more) as [ns'|] eqn:Ei; [|discriminate].
      simpl in ids. inversion ids; subst ns. simpl in fresh.
      apply andb_true_iff in fresh as [Hnew fresh]. apply negb_true_iff in Hnew.
      cbn [GpId.claims_loop]. unfold bind at 1. unfold eval. rewrite Ev. cbn [ret].
      rewrite Ep. unfold bind at 1. unfold db_run_await, insert_map.
      rewrite text. cbn [bind_integer]. rewrite Hnew.
      rewrite (IH ns'); auto. cbn [script db trace map_table other_table List.map fold_left].
      rewrite <- !app_assoc. reflexivity.
    + cbn [GpId.claims_loop]. unfold bind at 1. unfold eval. rewrite Ev. cbn [ret].
      apply IH; auto.
Qed.

Lemma missing_loop_inserts entity s more wofIds w ios wofData rest claims ns :
  bind_text entity = Some s ->
  Transport.retryFetch (GpId.wofUrl entity) (script w) 0 = (ios, Done wofData, rest) ->
  GpId.wof_claims wofData = Ok (Some claims) ->
  claim_ids claims = Some ns ->
  new_rows s ns (map_table (db w)) = true ->
  GpId.missing_loop (entity :: more) wofIds w =
    GpId.missing_loop more (fold_left set_add (List.map VNum ns) wofIds)
      (mkWorld rest
         (mkStore (map_table (db w) ++ List.map (pair s) ns) (other_table (db w)))
         (trace w ++
          [Log [Lit "Retrieving Who's on First ID for "; Sub entity];
           Call RetryFetch (GpId.wofUrl entity) ios (Done wofData)] ++
          List.map (fun n => Sql (InsertMap entity (VNum n))) ns)).
Proof.
  intros text answered claims_found ids fresh.
  cbn [GpId.missing_loop]. unfold bind at 1. unfold log, emit.
  unfold bind at 1. unfold GpId.retry, call. cbn [script db trace]. rewrite answered.
  unfold bind at 1. rewrite claims_found. cbn [eval ret].
  unfold bind at 1. rewrite (claims_loop_inserts entity s claims ns); auto.
  cbn [script db trace]. rewrite <- !app_assoc. reflexivity.
Qed.

Lemma missing_loop_app before : forall rest wofIds w,
  GpId.missing_loop (before ++ rest) wofIds w =
  bind (GpId.missing_loop before wofIds) (fun ids => GpId.missing_loop rest ids) w.
Proof.
  induction before as [|entity before IH]; intros rest wofIds w.
  - reflexivity.
  - cbn [app GpId.missing_loop]. unfold bind in *.
    destruct (log _ w) as [[[]|e|] w1]; [|reflexivity|reflexivity].
    destruct (GpId.retry _ w1) as [[wofData|e|] w2]; [|reflexivity|reflexivity].
    destruct (eval _ w2) as [[claims|e|] w3]; [|reflexivity|reflexivity].
    destruct (match claims with
              | Some l => GpId.claims_loop entity l wofIds
              | None => ret wofIds
              end w3) as [[ids|e|] w4]; [|reflexivity|reflexivity].
    apply IH.
Qed.

Lemma links_reaches edited w missing wofIds :
  GpId.known_rows (map_rows (db w)) edited [] = Ok (missing, wofIds) ->
  GpId.links edited w = GpId.missing_loop missing wofIds (tables_opened w).
Proof.
  intros known. unfold GpId.links, tables_opened.
  unfold bind at 1. unfold emit. unfold bind at 1. unfold bind at 1. unfold select_map.
  cbn [script db trace]. fold (map_rows (db w)).
  assert (K : (if 0 <? Z.of_nat (List.length (map_rows (db w)))
               then GpId.known_rows (map_rows (db w)) edited []
               else Ok (edited, [])) = Ok (missing, wofIds)).
  { destruct (map_rows (db w)) as [|row rows]; [exact known|].
    destruct (0 <? Z.of_nat (List.length (row :: rows))) eqn:Hl;
      [exact known|apply Z.ltb_ge in Hl; simpl List.length in Hl; lia]. }
  unfold bind at 1. rewrite K. cbn [eval ret fst snd].
  rewrite <- !app_assoc. reflexivity.
Qed.

Lemma rows_stay_in_map pick files edited more ids (r : string * Z) :
  hoare (fun d => In r (map_table d)) (fun _ => True)
    (bind (GpId.missing_loop more ids)
       (fun wofIds' => bind (GpId.candidates pick files wofIds')
                         (fun items => GpId.finish edited items)))
    (fun _ => True).
Proof.
  assert (P_plain : forall ev, plain ev -> True) by auto.
  eapply hoare_bind.
  { apply (missing_loop_hoare P_plain). intros d wd wof d' Hd E. eapply insert_map_keeps; eauto. }
  intros wofIds' _.
  eapply hoare_bind.
  { apply (candidates_hoare pick P_plain (fun _ => True)).
    apply Forall_forall. intros d _. apply Forall_forall. auto. }
  intros items _. unfold GpId.finish.
  eapply hoare_bind; [apply (hoare_select_other (fun _ => True)); auto|intros otherRows _].
  eapply hoare_bind; [apply hoare_eval_any|intros others _].
  eapply hoare_bind; [apply hoare_log; auto|intros _ _].
  apply (edit_loop_hoare (fun _ => True)); auto.
  - intros d v d' Hd E. rewrite (insert_other_map_table _ _ _ E). exact Hd.
  - apply Forall_forall. auto.
Qed.

(** C2 (as the code has it). The edits never touch the [map] table: no
    [INSERT INTO map] is issued in the edit loop and the table is, after
    the loop, what it was before.  Link records are written by the pass
    of lines 761-792 of the same run, over the entities of the
    contribution history that no row of [map] names.  When the run has
    logged in, loaded the history and handled the entities before
    [entity], the answer for [entity] carries claims, the id of the
    entity binds to text, the value of every claim that has one parses to
    a number, and the rows (entity, number) are pairwise different and
    not yet in [map], then the run inserts these rows, one awaited
    insert per claim in the order of the claims, right after the request
    for the entity and before anything else is done; the rows are in
    [map] when the run ends, however it ends.  A value that is no number
    makes the awaited insert throw: the pass stops there and the table
    is what it was. *)
Theorem link_records_come_from_the_history
    (pick : Sql.joined -> list Sql.joined -> Sql.joined)
    (PASSWORD : value) (files : list wof_db) (w w0 w1 w2 : world) (edited : jsset)
    (before : list value) (entity : value) (more : list value) (wofIds0 wofIds : jsset)
    (ios : list io) (wofData : value) (rest : list outcome)
    (claims : list value) (ns : list Z) (s : string)
    (size : Z) (history : jsset) (items : list item) (i : Z) (wl : world) (evs : list event)
    (loop : trace (snd (GpId.edit_loop size history items i wl)) = trace wl ++ evs)
    (logged_in : GpId.login PASSWORD w = (Done tt, w0))
    (loaded : GpId.history w0 = (Done edited, w1))
    (unlinked : GpId.known_rows (map_rows (db w1)) edited []
                = Ok (before ++ entity :: more, wofIds0))
    (earlier : GpId.missing_loop before wofIds0 (tables_opened w1) = (Done wofIds, w2))
    (answered : Transport.retryFetch (GpId.wofUrl entity) (script w2) 0
                = (ios, Done wofData, rest))
    (claims_found : GpId.wof_claims wofData = Ok (Some claims))
    (numbers : claim_ids claims = Some ns)
    (text : bind_text entity = Some s)
    (fresh : new_rows s ns (map_table (db w2)) = true) :
  map_table (db (snd (GpId.edit_loop size history items i wl))) = map_table (db wl) /\
  Forall (fun ev => is_insert_map ev = false) evs /\
  GpId.main pick PASSWORD files w =
    bind (GpId.missing_loop more (fold_left set_add (List.map VNum ns) wofIds))
      (fun wofIds' => bind (GpId.candidates pick files wofIds')
                        (fun items => GpId.finish edited items))
      (mkWorld rest
         (mkStore (map_table (db w2) ++ List.map (pair s) ns) (other_table (db w2)))
         (trace w2 ++
          [Log [Lit "Retrieving Who's on First ID for "; Sub entity];
           Call RetryFetch (GpId.wofUrl entity) ios (Done wofData)] ++
          List.map (fun n => Sql (InsertMap entity (VNum n))) ns)) /\
  (exists tail,
     trace (snd (GpId.main pick PASSWORD files w)) =
       (trace w2 ++
        [Log [Lit "Retrieving Who's on First ID for "; Sub entity];
         Call RetryFetch (GpId.wofUrl entity) ios (Done wofData)] ++
        List.map (fun n => Sql (InsertMap entity (VNum n))) ns) ++ tail) /\
  Forall (fun n => In (s, n) (map_table (db (snd (GpId.main pick PASSWORD files w))))) ns /\
  (forall claim v others ids wx,
     GpId.claim_value claim = Ok (Some v) -> parseInt v = VNaN ->
     exists e,
       GpId.claims_loop entity (claim :: others) ids wx =
         (Threw e,
          mkWorld (script wx) (db wx) (trace wx ++ [Sql (InsertMap entity VNaN)]))).
Proof.
  assert (H : hoare (fun d => map_table d = map_table (db wl))
                    (fun ev => is_insert_map ev = false)
                    (GpId.edit_loop size history items i) (fun _ => True)).
  { apply (edit_loop_hoare (fun _ => True)); auto.
    - intros d x d' Hd E. rewrite (insert_other_map_table _ _ _ E). exact Hd.
    - apply Forall_forall. auto. }
  assert (R : GpId.main pick PASSWORD files w =
              bind (GpId.missing_loop more (fold_left set_add (List.map VNum ns) wofIds))
                (fun wofIds' => bind (GpId.candidates pick files wofIds')
                                  (fun items => GpId.finish edited items))
                (mkWorld rest
                   (mkStore (map_table (db w2) ++ List.map (pair s) ns) (other_table (db w2)))
                   (trace w2 ++
                    [Log [Lit "Retrieving Who's on First ID for "; Sub entity];
                     Call RetryFetch (GpId.wofUrl entity) ios (Done wofData)] ++
                    List.map (fun n => Sql (InsertMap entity (VNum n))) ns))).
  { unfold GpId.main. unfold bind at 1. rewrite logged_in.
    unfold bind at 1. rewrite loaded.
    unfold bind at 1. rewrite (links_reaches edited w1 _ _ unlinked).
    rewrite missing_loop_app. unfold bind at 1. rewrite earlier.
    rewrite (missing_loop_inserts entity s more wofIds w2 ios wofData rest claims ns);
      auto. }
  split; [apply (H wl eq_refl)|].
  split; [eapply hoare_events; [exact H|reflexivity|exact loop]|].
  split; [exact R|].
  split.
  { rewrite R.
    assert (T : hoare (fun _ => True) (fun _ => True)
                  (bind (GpId.missing_loop more (fold_left set_add (List.map VNum ns) wofIds))
                     (fun wofIds' => bind (GpId.candidates pick files wofIds')
                                       (fun items => GpId.finish edited items)))
                  (fun _ => True)).
    { assert (P_plain : forall ev, plain ev -> True) by auto.
      eapply hoare_bind; [apply (missing_loop_hoare P_plain); auto|intros wofIds' _].
      eapply hoare_bind.
      { apply (candidates_hoare pick P_plain (fun _ => True)).
        apply Forall_forall. intros d _. apply Forall_forall. auto. }
      intros items' _. unfold GpId.finish.
      eapply hoare_bind; [apply (hoare_select_other (fun _ => True)); auto|intros ? _].
      eapply hoare_bind; [apply hoare_eval_any|intros ? _].
      eapply hoare_bind; [apply hoare_log; auto|intros _ _].
      apply (edit_loop_hoare (fun _ => True)); auto. apply Forall_forall. auto. }
    match goal with
    | |- exists tail, trace (snd (?m ?w3)) = _ =>
        destruct (T w3 Logic.I) as (_ & (tail & E & _) & _); exists tail; exact E
    end. }
  split.
  { rewrite R. apply Forall_forall. intros n Hn.
    apply (rows_stay_in_map pick files edited more
             (fold_left set_add (List.map VNum ns) wofIds) (s, n)).
    cbn [db map_table]. apply in_or_app. right. apply in_map. exact Hn. }
  intros claim v others ids wx Hv Hp.
  cbn [GpId.claims_loop]. unfold bind at 1. unfold eval. rewrite Hv. cbn [ret].
  rewrite Hp. unfold bind at 1. unfold db_run_await, insert_map.
  destruct (bind_text entity); cbn [bind_integer]; eexists; reflexivity.
Qed.

Lemma link_records_come_from_the_history_witness :
  claim_ids [Sample.string_claim "85633793"] = Some [85633793] /\
  bind_text (VStr "Q30") = Some "Q30" /\
  new_rows "Q30" [85633793] [] = true /\
  writes (trace (snd (GpId.edit_loop 2 [] Sample.two_items 0
                        (Sample.start Sample.two_searches Sample.empty))))
  = [VStr "Q5"; VStr "Q7"] /\
  map_table (db (snd (GpId.edit_loop 2 [] Sample.two_items 0
                        (Sample.start Sample.two_searches Sample.empty))))
  = map_table (db (Sample.start Sample.two_searches Sample.empty)) /\
  Forall (fun n =>
            In ("Q30", n)
              (map_table
                 (db (snd (GpId.main Sample.pick_first (VStr "secret") [Sample.distribution]
                             (Sample.start
                                [Sample.ok200 (Sample.tokens "logintoken" "l1");
                                 Sample.ok200 (Sample.loginResult "Success");
                                 Sample.ok200 (Sample.contribs ["Q30"]);
                                 Sample.ok200
                                   (VObj [("claims",
                                           VObj [("P6766",
                                                  VArr [Sample.string_claim "85633793"])])]);
                                 Sample.ok200 (Sample.hits []);
                                 Sample.ok200 (Sample.hits [])] Sample.empty))))))
    [85633793].
Proof.
  split; [reflexivity|]. split; [reflexivity|]. split; [reflexivity|].
  split; [reflexivity|].
  pose proof (link_records_come_from_the_history Sample.pick_first (VStr "secret")
                [Sample.distribution]
                (Sample.start
                   [Sample.ok200 (Sample.tokens "logintoken" "l1");
                    Sample.ok200 (Sample.loginResult "Success");
                    Sample.ok200 (Sample.contribs ["Q30"]);
                    Sample.ok200
                      (VObj [("claims",
                              VObj [("P6766", VArr [Sample.string_claim "85633793"])])]);
                    Sample.ok200 (Sample.hits []);
                    Sample.ok200 (Sample.hits [])] Sample.empty)
                (snd (GpId.login (VStr "secret")
                        (Sample.start
                           [Sample.ok200 (Sample.tokens "logintoken" "l1");
                            Sample.ok200 (Sample.loginResult "Success");
                            Sample.ok200 (Sample.contribs ["Q30"]);
                            Sample.ok200
                              (VObj [("claims",
                                      VObj [("P6766", VArr [Sample.string_claim "85633793"])])]);
                            Sample.ok200 (Sample.hits []);
                            Sample.ok200 (Sample.hits [])] Sample.empty)))
                (snd (GpId.history
                        (snd (GpId.login (VStr "secret")
                                (Sample.start
                                   [Sample.ok200 (Sample.tokens "logintoken" "l1");
                                    Sample.ok200 (Sample.loginResult "Success");
                                    Sample.ok200 (Sample.contribs ["Q30"]);
                                    Sample.ok200
                                      (VObj [("claims",
                                              VObj [("P6766",
                                                     VArr [Sample.string_claim "85633793"])])]);
                                    Sample.ok200 (Sample.hits []);
                                    Sample.ok200 (Sample.hits [])] Sample.empty)))))
                (tables_opened
                   (snd (GpId.history
                           (snd (GpId.login (VStr "secret")
                                   (Sample.start
                                      [Sample.ok200 (Sample.tokens "logintoken" "l1");
                                       Sample.ok200 (Sample.loginResult "Success");
                                       Sample.ok200 (Sample.contribs ["Q30"]);
                                       Sample.ok200
                                         (VObj [("claims",
                                                 VObj [("P6766",
                                                        VArr [Sample.string_claim
                                                                "85633793"])])]);
                                       Sample.ok200 (Sample.hits []);
                                       Sample.ok200 (Sample.hits [])] Sample.empty))))))
                [VStr "Q30"] [] (VStr "Q30") [] [] []
                [Fetch CookieFetch (GpId.wofUrl (VStr "Q30"))]
                (VObj [("claims", VObj [("P6766", VArr [Sample.string_claim "85633793"])])])
                [Sample.ok200 (Sample.hits []); Sample.ok200 (Sample.hits [])]
                [Sample.string_claim "85633793"] [85633793] "Q30"
                2 [] Sample.two_items 0 (Sample.start Sample.two_searches Sample.empty)
                (trace (snd (GpId.edit_loop 2 [] Sample.two_items 0
                               (Sample.start Sample.two_searches Sample.empty))))
                eq_refl eq_refl eq_refl eq_refl eq_refl eq_refl eq_refl eq_refl eq_refl
                eq_refl) as (Hmap & _ & _ & _ & Hrows & _).
  split; [exact Hmap|exact Hrows].
Defined.

(** C2 (as stated) fails: in this run of [GpId.main] both writes go
    through and the run completes, yet the [map] table holds no row at
    the end: no link record was written for [Q5]. *)
Lemma written_entity_has_no_link_record :
  fst (GpId.main Sample.pick_first (VStr "secret") [Sample.distribution]
         (Sample.start Sample.same_entity Sample.empty)) = Done tt /\
  hd VUndef (writes (trace (snd (GpId.main Sample.pick_first (VStr "secret")
                                   [Sample.distribution]
                                   (Sample.start Sample.same_entity Sample.empty)))))
  = VStr "Q5" /\
  filter is_insert_map
    (trace (snd (GpId.main Sample.pick_first (VStr "secret") [Sample.distribution]
                   (Sample.start Sample.same_entity Sample.empty)))) = [] /\
  map_table (db (snd (GpId.main Sample.pick_first (VStr "secret") [Sample.distribution]
                        (Sample.start Sample.same_entity Sample.empty)))) = [].
Proof. vm_compute. repeat split. Qed.

(** *** Login *)

(** X17. In the [gp:id] revision a login whose result is not ["Success"]
    ends the run at once with [Login Failure]: nothing is requested
    after the login. *)
Lemma gp_login_failure_aborts pick PASSWORD files w r1 r2 rest loginTokenData logintoken
    loginData login result :
  script w = Response r1 :: Response r2 :: rest ->
  json r1 = Some loginTokenData ->
  (query <- get loginTokenData "query" ;; tokens <- get query "tokens" ;;
   get tokens "logintoken")%res = Ok logintoken ->
  json r2 = Some loginData ->
  get loginData "login" = Ok login ->
  get login "result" = Ok result ->
  is_string result "Success" = false ->
  GpId.main pick PASSWORD files w =
    (Threw (Error "Login Failure"),
     mkWorld rest (db w)
       (trace w ++ [Direct CookieFetch loginTokenUrl;
                    Direct CookieFetch (loginRequest PASSWORD logintoken);
                    Log [Lit "Login Result: "; Sub result]])).
Proof.
  intros Hs H1 Ht H2 Hl Hr Hn.
  unfold GpId.main, GpId.login, bind at 1 2 3. unfold fetch_json at 1. rewrite Hs.
  unfold decode. rewrite H1. cbn [script db trace tl].
  unfold bind at 1. rewrite Ht. cbn [eval ret].
  unfold fetch_json, decode. cbn [script db trace tl]. rewrite H2.
  unfold bind at 1. unfold rbind. rewrite Hl, Hr. cbn [eval ret].
  unfold bind at 1. unfold log, emit. cbn [script db trace tl].
  rewrite Hn. cbn. rewrite <- !app_assoc. reflexivity.
Qed.

(** C3 (what [index.js] does). The login is refused, [index.js] prints
    the result and goes on: it asks for a CSRF token, reads the claims
    of both entities and writes to both. *)
Theorem index_js_goes_on_after_refused_login :
  fst (IndexJs.main (VStr "wrong") Sample.wd_rows
         (Sample.start Sample.refused_login Sample.empty)) = Done tt /\
  script (snd (IndexJs.main (VStr "wrong") Sample.wd_rows
                 (Sample.start Sample.refused_login Sample.empty))) = [] /\
  token_requests (trace (snd (IndexJs.main (VStr "wrong") Sample.wd_rows
                                (Sample.start Sample.refused_login Sample.empty)))) = 1%nat /\
  writes (trace (snd (IndexJs.main (VStr "wrong") Sample.wd_rows
                        (Sample.start Sample.refused_login Sample.empty))))
  = [VStr "Q30"; VStr "Q16"].
Proof. vm_compute. repeat split. Qed.

(** X18. In the [gp:id] revision [edit] asks for a token right before
    its write and puts the token it got into the form. *)
Lemma gp_edit_fetches_a_token_for_its_write size edited it i w
    ios searchData rest entityId ios1 data rest1 token ios2 r rest2 :
  Transport.backoffFetch (searchUrl GpId.otherProperty GpId.wofProperty (other_id it))
    (script w) 0 = (ios, Done searchData, rest) ->
  GpId.no_entity_found searchData = Ok false ->
  GpId.first_title searchData = Ok entityId ->
  set_has edited entityId = false ->
  Transport.retryFetch csrfTokenUrl rest 0 = (ios1, Done data, rest1) ->
  (query <- get data "query" ;; tokens <- get query "tokens" ;;
   get tokens "csrftoken")%res = Ok token ->
  Transport.retryFetch (editRequest GpId.wofProperty entityId (id it) token) rest1 0
  = (ios2, r, rest2) ->
  exists tail,
    trace (snd (GpId.edit size edited it i w)) =
      trace w ++
      [Call BackoffFetch (searchUrl GpId.otherProperty GpId.wofProperty (other_id it))
         ios (Done searchData);
       Log [Lit "("; Percent i size; Lit "%) Editing "; Sub entityId; Lit " start"];
       Call RetryFetch csrfTokenUrl ios1 (Done data);
       Call RetryFetch (editRequest GpId.wofProperty entityId (id it) token) ios2 r] ++ tail.
Proof.
  intros Hs Hn Ht Hh Hk Hq Hw.
  unfold GpId.edit, GpId.backoff, GpId.getToken, GpId.retry, bind, call, log, emit, eval, ret.
  rewrite Hs. cbn [fst snd script db trace]. rewrite Hn, Ht. cbn [fst snd script db trace].
  rewrite Hh. cbn [fst snd script db trace]. rewrite Hk. cbn [fst snd script db trace].
  rewrite Hq. cbn [fst snd script db trace]. rewrite Hw.
  destruct r; cbn [fst snd script db trace]; eexists; rewrite <- !app_assoc; cbn [app];
    try reflexivity.
  all: rewrite app_nil_r; reflexivity.
Qed.

(** C6 (what [index.js] does). One CSRF token is requested before the
    loop, and both writes of the run carry it. *)
Theorem index_js_reuses_one_token :
  fst (IndexJs.main (VStr "secret") Sample.wd_rows
         (Sample.start Sample.two_edits Sample.empty)) = Done tt /\
  token_requests (trace (snd (IndexJs.main (VStr "secret") Sample.wd_rows
                                (Sample.start Sample.two_edits Sample.empty)))) = 1%nat /\
  writes (trace (snd (IndexJs.main (VStr "secret") Sample.wd_rows
                        (Sample.start Sample.two_edits Sample.empty))))
  = [VStr "Q30"; VStr "Q16"] /\
  write_tokens (trace (snd (IndexJs.main (VStr "secret") Sample.wd_rows
                              (Sample.start Sample.two_edits Sample.empty))))
  = [VStr "c0"; VStr "c0"].
Proof. vm_compute. repeat split. Qed.

(** *** Claims read back without a claims map *)

(** C8 (as the code has it). In the revision of [part_000], when the
    decoded answer of [wbgetclaims] has no [claims], [edit] does not
    fail, hands the whole answer to [console.error], and goes on to the
    next record: no write is made for this one. *)
Theorem undefined_claims_are_logged_and_skipped
    (csrftoken : value) (it : item) (w : world)
    (response : response) (data : value) (rest : list outcome)
    (answered : script w = Response response :: rest)
    (decoded : json response = Some data)
    (no_claims : get data "claims" = Ok VUndef) :
  WdId.edit csrftoken it w =
    (Done tt,
     mkWorld rest (db w)
       (trace w ++ [Direct PlainFetch (claimsUrl WdId.property (other_id it)); LogError data])).
Proof.
  unfold WdId.edit, bind at 1. unfold fetch_json, decode. rewrite answered, decoded.
  cbn [script db trace tl]. unfold bind at 1. rewrite no_claims. cbn.
  unfold emit. cbn [script db trace]. rewrite <- app_assoc. reflexivity.
Qed.

Lemma undefined_claims_are_logged_and_skipped_witness :
  script (Sample.start [Sample.ok200 (Sample.failed "no-such-entity")] Sample.empty)
  = Response (mkResponse 200 "OK" (Some (Sample.failed "no-such-entity"))) :: [] /\
  json (mkResponse 200 "OK" (Some (Sample.failed "no-such-entity")))
  = Some (Sample.failed "no-such-entity") /\
  get (Sample.failed "no-such-entity") "claims" = Ok VUndef /\
  WdId.edit (VStr "c0") (mkItem (VNum 85633793) VUndef (VStr "Q30"))
    (Sample.start [Sample.ok200 (Sample.failed "no-such-entity")] Sample.empty) =
    (Done tt,
     mkWorld [] Sample.empty
       [Direct PlainFetch (claimsUrl WdId.property (VStr "Q30"));
        LogError (Sample.failed "no-such-entity")]).
Proof.
  split; [reflexivity|]. split; [reflexivity|]. split; [reflexivity|].
  apply (undefined_claims_are_logged_and_skipped (VStr "c0")
           (mkItem (VNum 85633793) VUndef (VStr "Q30"))
           (Sample.start [Sample.ok200 (Sample.failed "no-such-entity")] Sample.empty)
           (mkResponse 200 "OK" (Some (Sample.failed "no-such-entity")))
           (Sample.failed "no-such-entity") []); reflexivity.
Defined.

(** C8 (as stated) fails: a record whose answer has no claims map is
    not treated like one whose claims map is empty.  The second is
    written to, the first is not. *)
Lemma no_claims_map_is_not_an_empty_one :
  writes (trace (snd (WdId.edit (VStr "c0") (mkItem (VNum 85633793) VUndef (VStr "Q30"))
                        (Sample.start [Sample.ok200 (VObj [("claims", VObj [])]);
                                       Sample.ok200 Sample.created] Sample.empty))))
  = [VStr "Q30"] /\
  writes (trace (snd (WdId.edit (VStr "c0") (mkItem (VNum 85633793) VUndef (VStr "Q30"))
                        (Sample.start [Sample.ok200 (VObj []);
                                       Sample.ok200 Sample.created] Sample.empty))))
  = [].
Proof. vm_compute. split; reflexivity. Qed.

(** [index.js] reads [claims[property]] with no test before it: an
    answer without [claims] makes [main] throw. *)
Lemma index_js_throws_without_claims :
  fst (IndexJs.edit (VStr "c0") (mkItem (VNum 85633793) VUndef (VStr "Q30"))
         (Sample.start [Sample.ok200 (VObj [])] Sample.empty))
  = Threw (TypeError "Cannot read property 'P6766' of undefined").
Proof. reflexivity. Qed.

(** *** Place types *)

Lemma accepted_is_truthy classes id :
  existsb (String.eqb EmptyString) classes = false ->
  existsb (is_string id) classes = true -> truthy id = true.
Proof.
  intros Hne H. apply existsb_exists in H as (c & Hc & E).
  destruct id as [| |b|n| |s|l|fs]; try discriminate E.
  simpl in E. apply String.eqb_eq in E. subst c.
  destruct s as [|a s]; [|reflexivity].
  assert (X : existsb (String.eqb EmptyString) classes = true).
  { apply existsb_exists. exists EmptyString. split; [exact Hc|reflexivity]. }
  rewrite X in Hne. discriminate.
Qed.

Lemma find_accepted pt p classes ids :
  assoc p pt = Some classes ->
  existsb (String.eqb EmptyString) classes = false ->
  exists x, find_in (GnId.accepts pt (VStr p)) ids = Ok x /\
            truthy x = existsb (fun id => existsb (is_string id) classes) ids.
Proof.
  intros Hp Hne.
  assert (Ha : forall id, GnId.accepts pt (VStr p) id = Ok (existsb (is_string id) classes)).
  { intros id. unfold GnId.accepts. rewrite Hp. reflexivity. }
  induction ids as [|id ids IH]; cbn [find_in existsb].
  - exists VUndef. auto.
  - rewrite Ha. destruct (existsb (is_string id) classes) eqn:E; cbn [orb].
    + exists id. split; auto. eapply accepted_is_truthy; eauto.
    + exact IH.
Qed.

Lemma rejected_without_claims pt placetype claims c :
  get claims GnId.instanceProperty = Ok c -> truthy c = false ->
  GnId.rejected pt placetype claims = Ok None.
Proof. intros Hc Ht. unfold GnId.rejected, rbind. rewrite Hc, Ht. reflexivity. Qed.

Lemma rejected_with_claims pt p classes claims c instanceOf :
  assoc p pt = Some classes ->
  existsb (String.eqb EmptyString) classes = false ->
  get claims GnId.instanceProperty = Ok c -> truthy c = true ->
  JS.map c GnId.claim_class = Ok instanceOf ->
  GnId.rejected pt (VStr p) claims =
    Ok (if (0 <? Z.of_nat (List.length instanceOf))
           && negb (existsb (fun id => existsb (is_string id) classes) instanceOf)
        then Some instanceOf else None).
Proof.
  intros known named_classes Hc Ht Hm. unfold GnId.rejected, rbind. rewrite Hc, Ht, Hm.
  destruct (0 <? Z.of_nat (List.length instanceOf)); [|reflexivity].
  destruct (find_accepted pt p classes instanceOf known named_classes) as (x & Hx & Htx).
  rewrite Hx, Htx. reflexivity.
Qed.

Lemma gn_edit_after_the_check pt edited it w ios searchData rest entityId
    ios1 instanceData rest1 claims r :
  Transport.backoffFetch (searchUrl GnId.otherProperty GnId.wofProperty (other_id it))
    (script w) 0 = (ios, Done searchData, rest) ->
  GnId.no_entity_found searchData = Ok false ->
  GnId.first_title searchData = Ok entityId ->
  set_has edited entityId = false ->
  Transport.backoffFetch (claimsUrl GnId.instanceProperty entityId) rest 0
  = (ios1, Done instanceData, rest1) ->
  get instanceData "claims" = Ok claims ->
  is_undefined claims = false ->
  GnId.rejected pt (placetype it) claims = Ok r ->
  GnId.edit pt edited it w =
    match r with
    | Some instanceOf =>
        log [Lit "Skipping "; Sub entityId; Lit " with "; Lit GnId.instanceProperty; Lit " of ";
             Join instanceOf ", "]
    | None =>
        bind (log [Lit "Editing "; Sub entityId; Lit " start"]) (fun _ =>
        bind GnId.getToken (fun token =>
        bind (GnId.retry (editRequest GnId.wofProperty entityId (id it) token)) (fun _ =>
        log [Lit "Editing "; Sub entityId; Lit " end"])))
    end
      (mkWorld rest1 (db w)
         (trace w ++
          [Call BackoffFetch (searchUrl GnId.otherProperty GnId.wofProperty (other_id it))
             ios (Done searchData);
           Call BackoffFetch (claimsUrl GnId.instanceProperty entityId) ios1
             (Done instanceData)])).
Proof.
  intros Hs Hn Ht Hh Hc Hg Hu Hr.
  unfold GnId.edit, GnId.backoff. unfold bind at 1. unfold call at 1. rewrite Hs.
  unfold bind at 1. rewrite Hn. cbn [eval ret]. unfold bind at 1. rewrite Ht. cbn [eval ret].
  rewrite Hh. unfold bind at 1. unfold call at 1. cbn [script db trace]. rewrite Hc.
  unfold bind at 1. rewrite Hg. cbn [eval ret]. rewrite Hu.
  unfold bind at 1. rewrite Hr. cbn [eval ret]. rewrite <- app_assoc. reflexivity.
Qed.

(** C9 (as the code has it). For a record whose place type is in the
    table, with an acceptance set that does not hold the empty string,
    once the search has found an entity that is not in [edited] and its
    [P31] claims have been read: when the entity has type claims whose
    classes can all be read and none of them is in the acceptance set,
    the candidate is skipped with its types logged, and neither a token
    request nor a write is made; when it has no type claims, or at least
    one of the classes is in the set, [edit] goes on to the write: it
    prints the opening line, asks for a token, posts the claim for the
    entity with the id of the record and that token, and prints the
    closing line. *)
Theorem one_accepted_class_is_enough
    (pt : GnId.placetypes) (edited : jsset) (it : item) (w : world)
    (p : string) (classes : list string)
    (ios : list io) (searchData : value) (rest : list outcome) (entityId : value)
    (ios1 : list io) (instanceData : value) (rest1 : list outcome) (claims : value)
    (typed : placetype it = VStr p)
    (known : assoc p pt = Some classes)
    (named_classes : existsb (String.eqb EmptyString) classes = false)
    (searched_ok : Transport.backoffFetch
                     (searchUrl GnId.otherProperty GnId.wofProperty (other_id it))
                     (script w) 0 = (ios, Done searchData, rest))
    (found : GnId.no_entity_found searchData = Ok false)
    (first_hit : GnId.first_title searchData = Ok entityId)
    (not_edited : set_has edited entityId = false)
    (claims_answer : Transport.backoffFetch (claimsUrl GnId.instanceProperty entityId) rest 0
                     = (ios1, Done instanceData, rest1))
    (claims_read_back : get instanceData "claims" = Ok claims)
    (defined : is_undefined claims = false) :
  (forall c instanceOf,
     get claims GnId.instanceProperty = Ok c -> truthy c = true ->
     JS.map c GnId.claim_class = Ok instanceOf ->
     (0 <? Z.of_nat (List.length instanceOf)) = true ->
     existsb (fun id => existsb (is_string id) classes) instanceOf = false ->
     GnId.edit pt edited it w =
       (Done tt,
        mkWorld rest1 (db w)
          (trace w ++
           [Call BackoffFetch (searchUrl GnId.otherProperty GnId.wofProperty (other_id it))
              ios (Done searchData);
            Call BackoffFetch (claimsUrl GnId.instanceProperty entityId) ios1
              (Done instanceData);
            Log [Lit "Skipping "; Sub entityId; Lit " with "; Lit "P31"; Lit " of ";
                 Join instanceOf ", "]]))) /\
  (forall c instanceOf ios2 data rest2 token ios3 answer rest3,
     get claims GnId.instanceProperty = Ok c ->
     truthy c = false \/
     (truthy c = true /\ JS.map c GnId.claim_class = Ok instanceOf /\
      ((0 <? Z.of_nat (List.length instanceOf)) = false \/
       existsb (fun id => existsb (is_string id) classes) instanceOf = true)) ->
     Transport.retryFetch csrfTokenUrl rest1 0 = (ios2, Done data, rest2) ->
     (query <- get data "query" ;; tokens <- get query "tokens" ;;
      get tokens "csrftoken")%res = Ok token ->
     Transport.retryFetch (editRequest GnId.wofProperty entityId (id it) token) rest2 0
     = (ios3, Done answer, rest3) ->
     GnId.edit pt edited it w =
       (Done tt,
        mkWorld rest3 (db w)
          (trace w ++
           [Call BackoffFetch (searchUrl GnId.otherProperty GnId.wofProperty (other_id it))
              ios (Done searchData);
            Call BackoffFetch (claimsUrl GnId.instanceProperty entityId) ios1
              (Done instanceData);
            Log [Lit "Editing "; Sub entityId; Lit " start"];
            Call RetryFetch csrfTokenUrl ios2 (Done data);
            Call RetryFetch (editRequest GnId.wofProperty entityId (id it) token)
              ios3 (Done answer);
            Log [Lit "Editing "; Sub entityId; Lit " end"]]))).
Proof.
  split.
  - intros c instanceOf Hc Ht Hm Hl Hx.
    rewrite (gn_edit_after_the_check pt edited it w ios searchData rest entityId
               ios1 instanceData rest1 claims (Some instanceOf)); auto.
    + unfold log, emit. cbn [script db trace]. rewrite <- app_assoc. reflexivity.
    + rewrite typed.
      rewrite (rejected_with_claims pt p classes claims c instanceOf); auto.
      rewrite Hl, Hx. reflexivity.
  - intros c instanceOf ios2 data rest2 token ios3 answer rest3 Hc Hacc Hk Hq Hw.
    rewrite (gn_edit_after_the_check pt edited it w ios searchData rest entityId
               ios1 instanceData rest1 claims None); auto.
    + unfold GnId.getToken, GnId.retry, bind, call, log, emit, eval, ret.
      cbn [fst snd script db trace]. rewrite Hk. cbn [fst snd script db trace].
      rewrite Hq. cbn [fst snd script db trace]. rewrite Hw.
      cbn [fst snd script db trace]. rewrite <- !app_assoc. reflexivity.
    + destruct Hacc as [Ht|(Ht & Hm & Hacc)].
      * apply (rejected_without_claims pt (placetype it) claims c); assumption.
      * rewrite typed.
        rewrite (rejected_with_claims pt p classes claims c instanceOf); auto.
        destruct Hacc as [Hl|Hx]; [rewrite Hl|rewrite Hx, andb_false_r]; reflexivity.
Qed.

Lemma one_accepted_class_is_enough_witness :
  assoc "locality" Sample.acceptance = Some ["Q486972"; "Q515"] /\
  existsb (String.eqb EmptyString) ["Q486972"; "Q515"] = false /\
  existsb (fun id => existsb (is_string id) ["Q486972"; "Q515"]) [VStr "Q4830453"] = false /\
  GnId.edit Sample.acceptance [] Sample.locality_3333
    (Sample.start [Sample.ok200 (Sample.hits ["Q5"]);
                   Sample.ok200 (VObj [("claims",
                                        VObj [("P31", VArr [Sample.item_claim "Q4830453"])])]);
                   Sample.ok200 (Sample.tokens "csrftoken" "c1");
                   Sample.ok200 Sample.created] Sample.empty)
  = (Done tt,
     mkWorld [Sample.ok200 (Sample.tokens "csrftoken" "c1"); Sample.ok200 Sample.created]
       Sample.empty
       [Call BackoffFetch (searchUrl GnId.otherProperty GnId.wofProperty (VNum 3333))
          [Fetch PlainFetch (searchUrl GnId.otherProperty GnId.wofProperty (VNum 3333))]
          (Done (Sample.hits ["Q5"]));
        Call BackoffFetch (claimsUrl GnId.instanceProperty (VStr "Q5"))
          [Fetch PlainFetch (claimsUrl GnId.instanceProperty (VStr "Q5"))]
          (Done (VObj [("claims", VObj [("P31", VArr [Sample.item_claim "Q4830453"])])]));
        Log [Lit "Skipping "; Sub (VStr "Q5"); Lit " with "; Lit "P31"; Lit " of ";
             Join [VStr "Q4830453"] ", "]]).
Proof.
  split; [reflexivity|]. split; [reflexivity|]. split; [reflexivity|].
  destruct (one_accepted_class_is_enough Sample.acceptance [] Sample.locality_3333
              (Sample.start [Sample.ok200 (Sample.hits ["Q5"]);
                             Sample.ok200 (VObj [("claims",
                                                  VObj [("P31",
                                                         VArr [Sample.item_claim "Q4830453"])])]);
                             Sample.ok200 (Sample.tokens "csrftoken" "c1");
                             Sample.ok200 Sample.created] Sample.empty)
              "locality" ["Q486972"; "Q515"]
              [Fetch PlainFetch (searchUrl GnId.otherProperty GnId.wofProperty (VNum 3333))]
              (Sample.hits ["Q5"])
              [Sample.ok200 (VObj [("claims",
                                    VObj [("P31", VArr [Sample.item_claim "Q4830453"])])]);
               Sample.ok200 (Sample.tokens "csrftoken" "c1");
               Sample.ok200 Sample.created]
              (VStr "Q5")
              [Fetch PlainFetch (claimsUrl GnId.instanceProperty (VStr "Q5"))]
              (VObj [("claims", VObj [("P31", VArr [Sample.item_claim "Q4830453"])])])
              [Sample.ok200 (Sample.tokens "csrftoken" "c1"); Sample.ok200 Sample.created]
              (VObj [("P31", VArr [Sample.item_claim "Q4830453"])])
              eq_refl eq_refl eq_refl eq_refl eq_refl eq_refl eq_refl eq_refl eq_refl eq_refl)
    as [Hskip _].
  apply (Hskip (VArr [Sample.item_claim "Q4830453"]) [VStr "Q4830453"]); reflexivity.
Defined.

(** C9 (as stated) fails: the entity is an instance of [Q515], which is
    accepted for a locality, and of [Q4830453], which is not; it is not
    skipped, and the run writes to it. *)
Lemma entity_with_a_foreign_class_is_written :
  existsb (is_string (VStr "Q4830453")) ["Q486972"; "Q515"] = false /\
  GnId.rejected Sample.acceptance (VStr "locality")
    (VObj [("P31", VArr [Sample.item_claim "Q515"; Sample.item_claim "Q4830453"])])
  = Ok None /\
  writes (trace (snd (GnId.edit Sample.acceptance [] Sample.locality_3333
                        (Sample.start [Sample.ok200 (Sample.hits ["Q5"]);
                                       Sample.ok200 Sample.city_and_company;
                                       Sample.ok200 (Sample.tokens "csrftoken" "c1");
                                       Sample.ok200 Sample.created] Sample.empty))))
  = [VStr "Q5"].
Proof. vm_compute. repeat split. Qed.

(** *** Witnesses *)

Lemma throttle_waits_sixty_seconds_witness :
  ok (mkResponse 200 "OK" (Some (Sample.failed "actionthrottledtext"))) = true /\
  json (mkResponse 200 "OK" (Some (Sample.failed "actionthrottledtext")))
  = Some (Sample.failed "actionthrottledtext") /\
  envelope_names "actionthrottledtext" (Sample.failed "actionthrottledtext") = true /\
  Transport.retryFetch_attempt
    (Response (mkResponse 200 "OK" (Some (Sample.failed "actionthrottledtext")))) 5
  = ([ConsoleLog (lit "Request Throttled, Retrying in 60 seconds"); Timeout 60000], Retry 0).
Proof.
  split; [reflexivity|]. split; [reflexivity|]. split; [reflexivity|].
  apply (throttle_waits_sixty_seconds csrfTokenUrl
           (mkResponse 200 "OK" (Some (Sample.failed "actionthrottledtext")))
           (Sample.failed "actionthrottledtext") [] 5); reflexivity.
Defined.

Lemma client_errors_are_retried_witness :
  400 <= status (mkResponse 404 "Not Found" (Some (Sample.failed "no-such-entity"))) <= 499 /\
  Transport.retryFetch csrfTokenUrl
    [Sample.not_found (Sample.failed "no-such-entity");
     Sample.ok200 (Sample.tokens "csrftoken" "c1")] 0
  = ([Fetch CookieFetch csrfTokenUrl;
      ConsoleLog [Lit "Request Error: "; Sub (VStr "repsonse is not defined")];
      ConsoleLog [Lit "Retrying in "; Locale (VNum 1); Lit " seconds"];
      Timeout 1000;
      Fetch CookieFetch csrfTokenUrl],
     Done (Sample.tokens "csrftoken" "c1"), []).
Proof.
  split; [simpl; lia|].
  unfold Sample.not_found.
  rewrite (client_errors_are_retried csrfTokenUrl
             (mkResponse 404 "Not Found" (Some (Sample.failed "no-such-entity")))
             [Sample.ok200 (Sample.tokens "csrftoken" "c1")] 0); [reflexivity|simpl; lia].
Defined.


Lemma bad_foreign_ids_are_left_out_witness :
  (forall r g, In (Sample.pick_first r g) (r :: g)) /\
  Sql.gp_query Sample.pick_first GpId.otherSource Sample.distribution
  = [mkItem (VNum 101) VUndef (VNum 10); mkItem (VNum 102) VUndef (VNum 20)] /\
  Sql.gn_query Sample.pick_first Sample.distribution
  = [mkItem (VNum 101) (VStr "locality") (VNum 3333)] /\
  Forall (stems_from (flat_map (Sql.gp_query Sample.pick_first GpId.otherSource)
                        [Sample.distribution]))
    (trace (snd (GpId.main Sample.pick_first (VStr "secret") [Sample.distribution]
                   (Sample.start Sample.same_entity Sample.empty)))).
Proof.
  split; [intros r g; left; reflexivity|]. split; [reflexivity|]. split; [reflexivity|].
  apply (bad_foreign_ids_are_left_out Sample.pick_first
           (fun r g => or_introl eq_refl) (VStr "secret") Sample.acceptance []
           [Sample.distribution] (Sample.start Sample.same_entity Sample.empty)).
  reflexivity.
Defined.

(** * More properties of the code *)

(** ** Transports of [part_001] *)

Lemma backoffFetch_attempt_no_body o iteration :
  no_body o = true ->
  exists line,
    Transport.backoffFetch_attempt o iteration =
      (ConsoleLog line :: backoff_wait (2 ^ iteration), Retry (iteration + 1)).
Proof.
  unfold no_body, Transport.backoffFetch_attempt, Transport.backoffFetch_try.
  destruct o as [msg|r]; simpl; intros H.
  - eexists. reflexivity.
  - destruct (ok r); simpl in *.
    + unfold decode. destruct (json r); [discriminate|]. eexists. reflexivity.
    + eexists. reflexivity.
Qed.

Lemma retryFetch_attempt_no_body o iteration :
  no_body o = true ->
  exists line,
    Transport.retryFetch_attempt o iteration =
      (ConsoleLog line :: backoff_wait (2 ^ iteration), Retry (iteration + 1)).
Proof.
  unfold no_body, Transport.retryFetch_attempt, Transport.retryFetch_try.
  destruct o as [msg|r]; simpl; intros H.
  - eexists. reflexivity.
  - destruct (ok r); simpl in *.
    + unfold decode. destruct (json r); [discriminate|]. eexists. reflexivity.
    + eexists. reflexivity.
Qed.

Lemma timeouts_app a b : timeouts (a ++ b) = timeouts a ++ timeouts b.
Proof. apply flat_map_app. Qed.

Lemma attempts_app a b : attempts (a ++ b) = (attempts a + attempts b)%nat.
Proof. unfold attempts. rewrite filter_app, length_app. reflexivity. Qed.

(** X1. Exponential backoff.  When [backoffFetch] meets [n] outcomes
    without a usable body (connection failure, status outside 2xx, body
    that is not JSON) and then an ok response with a JSON body, it sends
    [n + 1] requests, waits [2 ^ (iteration + k)] seconds after the
    [k]-th failure, returns the body of the ok response and leaves the
    rest of the outcomes untouched. *)
Theorem backoffFetch_waits_double
    (input : request) (failures : list outcome) (response : response) (data : value)
    (rest : list outcome)
    (failing : forallb no_body failures = true)
    (is_ok : ok response = true)
    (decoded : json response = Some data) :
  forall iteration,
    exists ios,
      Transport.backoffFetch input (failures ++ Response response :: rest) iteration
      = (ios, Done data, rest) /\
      attempts ios = S (List.length failures) /\
      timeouts ios =
        List.map (fun k => 2 ^ (iteration + Z.of_nat k) * 1000)
          (seq 0 (List.length failures)).
Proof.
  induction failures as [|o failures IH]; intros iteration.
  - simpl. unfold Transport.backoffFetch_attempt, Transport.backoffFetch_try, decode.
    rewrite is_ok, decoded. simpl. eexists. split; [reflexivity|]. split; reflexivity.
  - simpl in failing. apply andb_true_iff in failing as [Ho Hf].
    destruct (backoffFetch_attempt_no_body o iteration Ho) as (line & Ha).
    destruct (IH Hf (iteration + 1)) as (ios & Hr & Hn & Ht).
    cbn [app Transport.backoffFetch]. rewrite Ha, Hr.
    eexists. split; [reflexivity|]. split.
    + cbn. unfold attempts in Hn. cbn in Hn |- *. rewrite Hn. reflexivity.
    + cbn [List.length seq List.map]. unfold timeouts in *. cbn. rewrite Ht.
      rewrite Z.add_0_r. f_equal. rewrite <- seq_shift, map_map.
      apply map_ext. intros k. f_equal. f_equal. lia.
Qed.

Lemma backoffFetch_waits_double_witness :
  forallb no_body [NetworkError "ECONNRESET"; Sample.not_found (VObj [])] = true /\
  ok (mkResponse 200 "OK" (Some (Sample.hits ["Q5"]))) = true /\
  json (mkResponse 200 "OK" (Some (Sample.hits ["Q5"]))) = Some (Sample.hits ["Q5"]) /\
  exists ios,
    Transport.backoffFetch csrfTokenUrl
      ([NetworkError "ECONNRESET"; Sample.not_found (VObj [])]
       ++ Response (mkResponse 200 "OK" (Some (Sample.hits ["Q5"]))) :: []) 0
    = (ios, Done (Sample.hits ["Q5"]), []) /\
    attempts ios = 3%nat /\
    timeouts ios = [1000; 2000].
Proof.
  split; [reflexivity|]. split; [reflexivity|]. split; [reflexivity|].
  exact (backoffFetch_waits_double csrfTokenUrl
           [NetworkError "ECONNRESET"; Sample.not_found (VObj [])]
           (mkResponse 200 "OK" (Some (Sample.hits ["Q5"]))) (Sample.hits ["Q5"]) []
           eq_refl eq_refl eq_refl 0).
Defined.

(** X2. Neither transport ever throws: whatever the outcomes are, a call
    of [backoffFetch] or [retryFetch] returns a body or is still waiting
    for an answer when the outcomes run out. *)
Theorem transports_never_throw
    (input : request) (sc : list outcome) (iteration : Z) (e : exn) :
  snd (fst (Transport.backoffFetch input sc iteration)) <> Threw e /\
  snd (fst (Transport.retryFetch input sc iteration)) <> Threw e.
Proof.
  split; revert iteration.
  - induction sc as [|o sc IH]; intros iteration; simpl; [discriminate|].
    destruct (Transport.backoffFetch_attempt o iteration) as [log [data|n]]; simpl.
    + discriminate.
    + specialize (IH n).
      destruct (Transport.backoffFetch input sc n) as [[log' r] rest]. exact IH.
  - induction sc as [|o sc IH]; intros iteration; simpl; [discriminate|].
    destruct (Transport.retryFetch_attempt o iteration) as [log [data|n]]; simpl.
    + discriminate.
    + specialize (IH n).
      destruct (Transport.retryFetch input sc n) as [[log' r] rest]. exact IH.
Qed.

Lemma retryFetch_attempt_returns r iteration log d :
  Transport.retryFetch_attempt (Response r) iteration = (log, Return d) ->
  ok r = true /\ json r = Some d /\ envelope_names "actionthrottledtext" d = false.
Proof.
  unfold Transport.retryFetch_attempt, Transport.retryFetch_try.
  destruct (ok r) eqn:Hok; simpl; [|discriminate].
  unfold decode. destruct (json r) as [data|] eqn:Hj; simpl; [|discriminate].
  destruct (envelope_names "actionthrottledtext" data) eqn:Hthr.
  - destruct (envelope_names_shape _ _ Hthr)
      as (error & messages & m & He & Hte & Hm & Htm & Hf & Ht).
    unfold Transport.envelope_block. rewrite He, Hte, Hm, Htm, Hf, Ht. discriminate.
  - intros H.
    assert (E : data = d).
    { unfold Transport.envelope_block in H.
      destruct (get data "error") as [error|]; [|discriminate H].
      destruct (truthy error); [|inversion H; reflexivity].
      destruct (get error "messages") as [messages|]; [|discriminate H].
      destruct (truthy messages); [|inversion H; reflexivity].
      destruct (find messages (named "actionthrottledtext")) as [t|]; [|discriminate H].
      destruct (truthy t); [discriminate H|].
      destruct (find messages (named "no-permission")) as [p|]; [|discriminate H].
      destruct (truthy p); inversion H; reflexivity. }
    subst d. auto.
Qed.

(** X3. What [retryFetch] returns is always the decoded body of a
    response with a 2xx status, met somewhere in the outcomes, and never
    an error envelope naming the throttle; the outcomes after that
    response are left for the next call. *)
Theorem retryFetch_returns_an_ok_body
    (input : request) (sc : list outcome) (iteration : Z)
    (ios : list io) (data : value) (rest : list outcome)
    (returned : Transport.retryFetch input sc iteration = (ios, Done data, rest)) :
  exists skipped response,
    sc = skipped ++ Response response :: rest /\
    ok response = true /\
    json response = Some data /\
    envelope_names "actionthrottledtext" data = false.
Proof.
  revert iteration ios returned.
  induction sc as [|o sc IH]; intros iteration ios H; simpl in H; [discriminate|].
  destruct (Transport.retryFetch_attempt o iteration) as [log [d|n]] eqn:Ha.
  - inversion H; subst. destruct o as [msg|r].
    + unfold Transport.retryFetch_attempt in Ha. simpl in Ha. discriminate.
    + apply retryFetch_attempt_returns in Ha as (Hok & Hj & Ht).
      exists [], r. auto.
  - destruct (Transport.retryFetch input sc n) as [[log' r'] rest'] eqn:Hr.
    inversion H; subst.
    destruct (IH n log' Hr) as (skipped & response & Hsc & Hok & Hj & Ht).
    exists (o :: skipped), response. rewrite Hsc. auto.
Qed.

Lemma retryFetch_returns_an_ok_body_witness :
  Transport.retryFetch csrfTokenUrl
    [NetworkError "ECONNRESET"; Sample.ok200 (Sample.failed "actionthrottledtext");
     Sample.ok200 (Sample.tokens "csrftoken" "c1"); Sample.ok200 Sample.created] 0
  = ([Fetch CookieFetch csrfTokenUrl;
      ConsoleLog [Lit "Request Error: "; Sub (VStr "ECONNRESET")];
      ConsoleLog [Lit "Retrying in "; Locale (VNum 1); Lit " seconds"];
      Timeout 1000;
      Fetch CookieFetch csrfTokenUrl;
      ConsoleLog (lit "Request Throttled, Retrying in 60 seconds");
      Timeout 60000;
      Fetch CookieFetch csrfTokenUrl],
     Done (Sample.tokens "csrftoken" "c1"), [Sample.ok200 Sample.created]) /\
  exists skipped response,
    [NetworkError "ECONNRESET"; Sample.ok200 (Sample.failed "actionthrottledtext");
     Sample.ok200 (Sample.tokens "csrftoken" "c1"); Sample.ok200 Sample.created]
    = skipped ++ Response response :: [Sample.ok200 Sample.created] /\
    ok response = true /\
    json response = Some (Sample.tokens "csrftoken" "c1") /\
    envelope_names "actionthrottledtext" (Sample.tokens "csrftoken" "c1") = false.
Proof.
  split; [reflexivity|].
  apply (retryFetch_returns_an_ok_body csrfTokenUrl
           [NetworkError "ECONNRESET"; Sample.ok200 (Sample.failed "actionthrottledtext");
            Sample.ok200 (Sample.tokens "csrftoken" "c1"); Sample.ok200 Sample.created] 0
           [Fetch CookieFetch csrfTokenUrl;
            ConsoleLog [Lit "Request Error: "; Sub (VStr "ECONNRESET")];
            ConsoleLog [Lit "Retrying in "; Locale (VNum 1); Lit " seconds"];
            Timeout 1000;
            Fetch CookieFetch csrfTokenUrl;
            ConsoleLog (lit "Request Throttled, Retrying in 60 seconds");
            Timeout 60000;
            Fetch CookieFetch csrfTokenUrl]
           (Sample.tokens "csrftoken" "c1") [Sample.ok200 Sample.created]).
  reflexivity.
Defined.

Lemma find_named_miss lit ms :
  forallb is_object ms = true ->
  existsb (message_named lit) ms = false ->
  find_in (named lit) ms = Ok VUndef.
Proof.
  induction ms as [|m ms IH]; simpl; intros Hobj Hex; [reflexivity|].
  apply andb_true_iff in Hobj as [Hm Hobj].
  apply orb_false_iff in Hex as [Hn Hex].
  destruct m as [| |b|n| |s|l|fs]; try discriminate Hm.
  unfold message_named in Hn. unfold named at 1. simpl in *.
  destruct (assoc "name" fs) as [[| |b|n| |s|l|gs]|]; simpl in *; auto.
  rewrite Hn. auto.
Qed.

(** X4. Permission denial.  An ok response whose error envelope names
    [no-permission] and not the throttle is given back to the caller as
    it is, after one request and the line [Permission Denied!]: there is
    no wait and no retry. *)
Theorem permission_denial_is_returned
    (input : request) (response : response) (data : value)
    (rest : list outcome) (iteration : Z)
    (is_ok : ok response = true)
    (decoded : json response = Some data)
    (denied : envelope_names "no-permission" data = true)
    (not_throttled : envelope_names "actionthrottledtext" data = false) :
  Transport.retryFetch input (Response response :: rest) iteration =
    ([Fetch CookieFetch input; ConsoleErrorText (lit "Permission Denied!")], Done data, rest).
Proof.
  destruct (envelope_names_shape _ _ denied)
    as (error & messages & m & He & Hte & Hm & Htm & Hf & Ht).
  assert (Hmiss : find messages (named "actionthrottledtext") = Ok VUndef).
  { unfold envelope_names in denied, not_throttled.
    destruct data as [| |b|n| |s|l|fs]; try discriminate.
    destruct (assoc "error" fs) as [[| |b|n| |s|l|efs]|] eqn:Ee; try discriminate.
    destruct (assoc "messages" efs) as [[| |b|n| |s|l|gs]|] eqn:Em; try discriminate.
    apply andb_true_iff in denied as [Hobj _]. rewrite Hobj in not_throttled.
    simpl in He. rewrite Ee in He. inversion He; subst.
    simpl in Hm. rewrite Em in Hm. inversion Hm; subst.
    simpl. apply find_named_miss; auto. }
  simpl. unfold Transport.retryFetch_attempt, Transport.retryFetch_try, decode,
    Transport.envelope_block.
  rewrite is_ok, decoded. simpl. rewrite He, Hte, Hm, Htm, Hmiss. simpl.
  rewrite Hf, Ht. reflexivity.
Qed.

Lemma permission_denial_is_returned_witness :
  ok (mkResponse 200 "OK" (Some (Sample.failed "no-permission"))) = true /\
  json (mkResponse 200 "OK" (Some (Sample.failed "no-permission")))
  = Some (Sample.failed "no-permission") /\
  envelope_names "no-permission" (Sample.failed "no-permission") = true /\
  envelope_names "actionthrottledtext" (Sample.failed "no-permission") = false /\
  Transport.retryFetch csrfTokenUrl
    (Response (mkResponse 200 "OK" (Some (Sample.failed "no-permission"))) :: []) 7
  = ([Fetch CookieFetch csrfTokenUrl; ConsoleErrorText (lit "Permission Denied!")],
     Done (Sample.failed "no-permission"), []).
Proof.
  split; [reflexivity|]. split; [reflexivity|]. split; [reflexivity|]. split; [reflexivity|].
  exact (permission_denial_is_returned csrfTokenUrl
           (mkResponse 200 "OK" (Some (Sample.failed "no-permission")))
           (Sample.failed "no-permission") [] 7 eq_refl eq_refl eq_refl eq_refl).
Defined.

(** ** The candidates of the [gp:id] revision *)

Lemma same_value_zero_eq a b : same_value_zero a b = true -> a = b.
Proof.
  destruct a, b; simpl; try discriminate; intros H; try reflexivity.
  - apply Bool.eqb_prop in H. congruence.
  - apply Z.eqb_eq in H. congruence.
  - apply String.eqb_eq in H. congruence.
Qed.

Lemma same_value_zero_sym a b : same_value_zero a b = same_value_zero b a.
Proof.
  destruct a, b; simpl; try reflexivity.
  - destruct b, b0; reflexivity.
  - apply Z.eqb_sym.
  - apply String.eqb_sym.
Qed.

Lemma number_of_same o sign :
  same_value_zero (number_of o sign) (number_of o sign) = true.
Proof. destruct o; simpl; [apply Z.eqb_refl|reflexivity]. Qed.

Lemma parseInt_string_same s :
  same_value_zero (parseInt_string s) (parseInt_string s) = true.
Proof.
  unfold parseInt_string. destruct (skip_spaces s) as [|c s']; [apply number_of_same|].
  destruct c as [[] [] [] [] [] [] [] []]; apply number_of_same.
Qed.

Lemma parseInt_same : forall v, same_value_zero (parseInt v) (parseInt v) = true.
Proof.
  fix IH 1. intros v. destruct v as [| |b|n| |s|l|fs]; try reflexivity.
  - simpl. apply Z.eqb_refl.
  - apply parseInt_string_same.
  - destruct l as [|x l]; [reflexivity|].
    pose proof (IH x) as Hx.
    destruct x as [| |b|n| |s|l'|fs]; try reflexivity; exact Hx.
Qed.

Lemma map_has_set {A} (m : jsmap A) k a x :
  map_has (map_set m k a) x = map_has m x || same_value_zero x k.
Proof.
  unfold map_has. induction m as [|[k' a'] m IH]; simpl.
  - apply orb_comm.
  - destruct (same_value_zero k k') eqn:E; simpl.
    + apply same_value_zero_eq in E. subst k'.
      destruct (same_value_zero x k); simpl; [reflexivity|].
      symmetry. apply orb_false_r.
    + rewrite IH. apply orb_assoc.
Qed.

Lemma distinct_keys_set {A} (m : jsmap A) k a :
  distinct_keys m = true -> distinct_keys (map_set m k a) = true.
Proof.
  induction m as [|[k' a'] m IH]; simpl; intros H; [reflexivity|].
  apply andb_true_iff in H as [Hk Hm].
  destruct (same_value_zero k k') eqn:E; simpl.
  - apply same_value_zero_eq in E. subst k'. rewrite Hk, Hm. reflexivity.
  - rewrite map_has_set, (same_value_zero_sym k' k), E, orb_false_r, Hk, (IH Hm). reflexivity.
Qed.

Lemma map_get_set_same {A} (m : jsmap A) k a :
  same_value_zero k k = true -> map_get (map_set m k a) k = Some a.
Proof.
  intros Hk. induction m as [|[k' a'] m IH]; simpl.
  - rewrite Hk. reflexivity.
  - destruct (same_value_zero k k') eqn:E; simpl; rewrite ?Hk, ?E; auto.
Qed.

Lemma map_get_set_other {A} (m : jsmap A) k k' a :
  same_value_zero k k' = false -> map_get (map_set m k' a) k = map_get m k.
Proof.
  intros Hk. induction m as [|[k0 a0] m IH]; simpl.
  - rewrite Hk. reflexivity.
  - destruct (same_value_zero k' k0) eqn:E; simpl.
    + apply same_value_zero_eq in E. subst k0. rewrite Hk. reflexivity.
    + rewrite IH. reflexivity.
Qed.

Lemma dedup_fold_get rows : forall (m : jsmap item) k,
  Forall (fun x => same_value_zero k (parseInt (id x)) = false) rows ->
  map_get (fold_left (fun m it => map_set m (parseInt (id it)) it) rows m) k = map_get m k.
Proof.
  induction rows as [|x rows IH]; simpl; intros m k H; [reflexivity|].
  inversion H; subst. rewrite IH by assumption. apply map_get_set_other. assumption.
Qed.

Lemma dedup_fold_distinct rows : forall (m : jsmap item),
  distinct_keys m = true ->
  distinct_keys (fold_left (fun m it => map_set m (parseInt (id it)) it) rows m) = true.
Proof.
  induction rows as [|x rows IH]; simpl; intros m H; [exact H|].
  apply IH, distinct_keys_set, H.
Qed.

Lemma dedup_distinct rows : distinct_keys (GpId.dedup rows) = true.
Proof. unfold GpId.dedup. apply dedup_fold_distinct. reflexivity. Qed.

(** X5. Last write wins.  After the rows of all distributions are folded
    into [items], no two entries have the same key, and the entry under
    the id of a row is that row whenever no later row has the same id. *)
Theorem dedup_keeps_the_last_row
    (before after : list item) (it : item)
    (last : Forall (fun x => same_value_zero (parseInt (id it)) (parseInt (id x)) = false)
              after) :
  distinct_keys (GpId.dedup (before ++ it :: after)) = true /\
  map_get (GpId.dedup (before ++ it :: after)) (parseInt (id it)) = Some it.
Proof.
  unfold GpId.dedup. split.
  - apply dedup_fold_distinct. reflexivity.
  - rewrite fold_left_app. simpl. rewrite dedup_fold_get by exact last.
    apply map_get_set_same, parseInt_same.
Qed.

Lemma dedup_keeps_the_last_row_witness :
  Forall (fun x => same_value_zero (parseInt (id (mkItem (VNum 1) VUndef (VStr "Q200"))))
                     (parseInt (id x)) = false) [] /\
  map_values (GpId.dedup ([mkItem (VNum 1) VUndef (VStr "Q100")]
                          ++ mkItem (VNum 1) VUndef (VStr "Q200") :: []))
  = [mkItem (VNum 1) VUndef (VStr "Q200")] /\
  map_get (GpId.dedup ([mkItem (VNum 1) VUndef (VStr "Q100")]
                       ++ mkItem (VNum 1) VUndef (VStr "Q200") :: []))
    (parseInt (id (mkItem (VNum 1) VUndef (VStr "Q200"))))
  = Some (mkItem (VNum 1) VUndef (VStr "Q200")).
Proof.
  split; [constructor|]. split; [reflexivity|].
  apply (dedup_keeps_the_last_row [mkItem (VNum 1) VUndef (VStr "Q100")] []
           (mkItem (VNum 1) VUndef (VStr "Q200"))).
  constructor.
Defined.

Lemma map_delete_absent {A} (m : jsmap A) x : map_has m x = false -> map_delete m x = m.
Proof.
  unfold map_has, map_delete. induction m as [|e m IH]; simpl; intros H; [reflexivity|].
  apply orb_false_iff in H as [He Hm]. rewrite He. simpl. rewrite IH by exact Hm. reflexivity.
Qed.

Lemma filter_filter {A} (f g : A -> bool) l :
  filter f (filter g l) = filter (fun x => g x && f x) l.
Proof.
  induction l as [|x l IH]; simpl; [reflexivity|].
  destruct (g x); simpl; [destruct (f x); rewrite IH; reflexivity|exact IH].
Qed.

Lemma drop_linked_filter (wofIds : jsset) (items : jsmap item) :
  GpId.drop_linked items wofIds
  = filter (fun e => negb (set_has wofIds (fst e))) items.
Proof.
  unfold GpId.drop_linked. revert items.
  induction wofIds as [|x wofIds IH]; intros items; simpl.
  - induction items as [|e items IHi]; simpl; [reflexivity|]. rewrite <- IHi. reflexivity.
  - assert (E : (if map_has items x then map_delete items x else items) = map_delete items x).
    { destruct (map_has items x) eqn:H; [reflexivity|]. symmetry. apply map_delete_absent, H. }
    rewrite E, IH. unfold map_delete. rewrite filter_filter.
    apply filter_ext. intros e. unfold set_has. simpl.
    rewrite (same_value_zero_sym x (fst e)), negb_orb. reflexivity.
Qed.

(** X6. Dropping the linked records one id at a time comes to one pass:
    [items] keeps, in order, exactly the entries whose key is not in
    [wofIds]; in particular an entry is kept whatever the other ids of
    [wofIds] are. *)
Theorem drop_linked_is_a_filter (wofIds : jsset) (items : jsmap item) :
  GpId.drop_linked items wofIds
  = filter (fun e => negb (set_has wofIds (fst e))) items.
Proof. apply drop_linked_filter. Qed.

Lemma dedup_entries rows :
  Forall (fun e : value * item => fst e = parseInt (id (snd e)) /\ In (snd e) rows)
    (GpId.dedup rows).
Proof.
  unfold GpId.dedup.
  assert (G : forall done todo (m : jsmap item),
             Forall (fun e : value * item =>
                       fst e = parseInt (id (snd e)) /\ In (snd e) (done ++ todo)) m ->
             Forall (fun e : value * item =>
                       fst e = parseInt (id (snd e)) /\ In (snd e) (done ++ todo))
               (fold_left (fun m it => map_set m (parseInt (id it)) it) todo m)).
  { intros done todo. revert done.
    induction todo as [|x todo IH]; intros done m Hm; simpl; [exact Hm|].
    replace (done ++ x :: todo) with ((done ++ [x]) ++ todo) in *
      by (rewrite <- app_assoc; reflexivity).
    apply IH. clear IH.
    induction m as [|[k a] m IHm]; simpl.
    - constructor; [|constructor]. simpl. split; [reflexivity|].
      apply in_or_app. left. apply in_or_app. right. left. reflexivity.
    - inversion Hm; subst. destruct (same_value_zero (parseInt (id x)) k).
      + constructor; [|assumption]. simpl. split; [reflexivity|].
        apply in_or_app. left. apply in_or_app. right. left. reflexivity.
      + constructor; auto. }
  apply (G [] rows []). constructor.
Qed.

Lemma map_has_filter {A} (f : value * A -> bool) (m : jsmap A) k :
  map_has (filter f m) k = true -> map_has m k = true.
Proof.
  unfold map_has. induction m as [|e m IH]; simpl; [auto|].
  destruct (f e); simpl; intros H.
  - apply orb_true_iff in H as [H|H]; [rewrite H; reflexivity|].
    rewrite (IH H). apply orb_true_r.
  - rewrite (IH H). apply orb_true_r.
Qed.

Lemma distinct_keys_filter {A} (f : value * A -> bool) (m : jsmap A) :
  distinct_keys m = true -> distinct_keys (filter f m) = true.
Proof.
  induction m as [|[k a] m IH]; simpl; intros H; [reflexivity|].
  apply andb_true_iff in H as [Hk Hm].
  destruct (f (k, a)); simpl; [|auto].
  rewrite (IH Hm), andb_true_r.
  destruct (map_has (filter f m) k) eqn:E; [|reflexivity].
  apply map_has_filter in E. rewrite E in Hk. discriminate.
Qed.

(** X7. The candidates that reach the edits.  After the three steps
    (fold by id, drop the linked ids, drop the foreign ids known to be
    missing) the entries have pairwise different keys, and every entry
    is a row of the queries, filed under its parsed id, whose id is not
    in [wofIds] and whose foreign id is not in [others]. *)
Theorem candidates_are_new
    (rows : list item) (wofIds others : jsset) (k : value) (it : item)
    (candidate : In (k, it)
                   (GpId.drop_missing (GpId.drop_linked (GpId.dedup rows) wofIds) others)) :
  distinct_keys (GpId.drop_missing (GpId.drop_linked (GpId.dedup rows) wofIds) others) = true /\
  k = parseInt (id it) /\
  In it rows /\
  set_has wofIds k = false /\
  set_has others (parseInt (other_id it)) = false.
Proof.
  split.
  - unfold GpId.drop_missing. apply distinct_keys_filter.
    rewrite drop_linked_filter. apply distinct_keys_filter.
    apply dedup_distinct.
  - unfold GpId.drop_missing in candidate. apply filter_In in candidate as [Hc Ho].
    rewrite drop_linked_filter in Hc. apply filter_In in Hc as [Hc Hw].
    pose proof (dedup_entries rows) as H. rewrite Forall_forall in H.
    destruct (H _ Hc) as [Hk Hin]. simpl in *.
    apply negb_true_iff in Ho, Hw. auto.
Qed.

Lemma candidates_are_new_witness :
  In (VNum 102, mkItem (VNum 102) VUndef (VNum 20))
    (GpId.drop_missing (GpId.drop_linked (GpId.dedup Sample.two_items) [VNum 101]) [VNum 30]) /\
  GpId.drop_missing (GpId.drop_linked (GpId.dedup Sample.two_items) [VNum 101]) [VNum 30]
  = [(VNum 102, mkItem (VNum 102) VUndef (VNum 20))] /\
  set_has [VNum 101] (VNum 102) = false.
Proof.
  split; [left; reflexivity|]. split; [reflexivity|].
  apply (candidates_are_new Sample.two_items [VNum 101] [VNum 30] (VNum 102)
           (mkItem (VNum 102) VUndef (VNum 20))).
  left. reflexivity.
Defined.

(** ** Records linked in the local table *)

Lemma set_has_add_same s n : set_has (set_add s (VNum n)) (VNum n) = true.
Proof.
  unfold set_add. destruct (set_has s (VNum n)) eqn:E; [exact E|].
  unfold set_has. rewrite existsb_app. simpl. rewrite Z.eqb_refl. apply orb_true_r.
Qed.

Lemma known_rows_wofIds rows : forall missing ids missing' ids' x,
  GpId.known_rows rows missing ids = Ok (missing', ids') ->
  set_has ids x = true -> set_has ids' x = true.
Proof.
  induction rows as [|row rows IH]; simpl; intros missing ids missing' ids' x H Hx.
  - inversion H; subst. exact Hx.
  - unfold rbind in H. destruct (get row "wd") as [wd|]; [|discriminate].
    destruct (get row "wof") as [wof|]; [|discriminate].
    eapply IH; [exact H|]. apply set_has_add, Hx.
Qed.

Lemma known_rows_linked rows : forall missing ids missing' ids' s n,
  GpId.known_rows rows missing ids = Ok (missing', ids') ->
  In (VObj [("wd", VStr s); ("wof", VNum n)]) rows ->
  set_has ids' (VNum n) = true.
Proof.
  induction rows as [|row rows IH]; simpl; intros missing ids missing' ids' s n H Hin;
    [contradiction|].
  destruct Hin as [->|Hin].
  - simpl in H. eapply known_rows_wofIds; [exact H|]. apply set_has_add_same.
  - unfold rbind in H. destruct (get row "wd") as [wd|]; [|discriminate].
    destruct (get row "wof") as [wof|]; [|discriminate].
    eapply IH; eauto.
Qed.

Section Linked.

Context {Inv : store -> Prop} {P : event -> Prop}.
Hypothesis P_plain : forall ev, plain ev -> P ev.
Hypothesis Inv_insert_map :
  forall d wd wof d', Inv d -> insert_map wd wof d = Ok d' -> Inv d'.
Variable x : value.

Lemma claims_loop_keeps entity claims : forall wofIds,
  set_has wofIds x = true ->
  hoare Inv P (GpId.claims_loop entity claims wofIds) (fun ids => set_has ids x = true).
Proof.
  induction claims as [|claim more IH]; intros wofIds Hx; simpl.
  - apply hoare_ret. exact Hx.
  - eapply hoare_bind; [apply hoare_eval_any|intros v _].
    destruct v as [v|]; [|apply IH; exact Hx].
    eapply hoare_bind; [|intros _ _; apply IH, set_has_add, Hx].
    apply hoare_db_run_await; [apply P_plain, plain_no_request; reflexivity|].
    intros d d' Hd E. eauto.
Qed.

Lemma missing_loop_keeps missing : forall wofIds,
  set_has wofIds x = true ->
  hoare Inv P (GpId.missing_loop missing wofIds) (fun ids => set_has ids x = true).
Proof.
  induction missing as [|entity more IH]; intros wofIds Hx; simpl.
  - apply hoare_ret. exact Hx.
  - eapply hoare_bind; [apply hoare_log, P_plain, plain_no_request; reflexivity|intros _ _].
    eapply hoare_bind; [apply retry_plain_hoare; auto|intros wofData _].
    eapply hoare_bind; [apply hoare_eval_any|intros claims _].
    eapply hoare_bind; [|intros ids Hids; apply IH, Hids].
    destruct claims; [apply claims_loop_keeps, Hx|apply hoare_ret, Hx].
Qed.

End Linked.

(** X8. A record linked in the local table is left alone.  When the
    [map] table holds a row with the Who's on First id [n] at the start
    of a run of the [gp:id] revision, no write of that run carries an id
    that parses to [n], and every search of the run is made for a row of
    the queries whose id does not parse to [n]. *)
Theorem linked_records_are_left_alone
    (pick : Sql.joined -> list Sql.joined -> Sql.joined)
    (PASSWORD : value) (files : list wof_db) (w : world) (s : string) (n : Z)
    (evs : list event)
    (linked : In (s, n) (map_table (db w)))
    (run : trace (snd (GpId.main pick PASSWORD files w)) = trace w ++ evs) :
  Forall (fun ev =>
            (forall o, searched ev = Some o ->
               exists it, In it (flat_map (Sql.gp_query pick GpId.otherSource) files) /\
                          other_id it = o /\ parseInt (id it) <> VNum n) /\
            (forall e i k, written ev = Some (e, i, k) -> parseInt i <> VNum n))
    evs.
Proof.
  set (cands := flat_map (Sql.gp_query pick GpId.otherSource) files).
  set (P := fun ev =>
              (forall o, searched ev = Some o ->
                 exists it, In it cands /\ other_id it = o /\ parseInt (id it) <> VNum n) /\
              (forall e i k, written ev = Some (e, i, k) -> parseInt i <> VNum n)).
  set (Inv := fun d => In (s, n) (map_table d)).
  assert (P_plain : forall ev, plain ev -> P ev).
  { intros ev [Hs Hw]. split; intros; congruence. }
  assert (Inv_map : forall d wd wof d', Inv d -> insert_map wd wof d = Ok d' -> Inv d').
  { intros d wd wof d' Hd E. eapply insert_map_keeps; eauto. }
  assert (H : hoare Inv P (GpId.main pick PASSWORD files) (fun _ => True)).
  { unfold GpId.main.
    eapply hoare_bind; [apply login_hoare; exact P_plain|intros _ _].
    eapply hoare_bind; [apply history_hoare; exact P_plain|intros edited _].
    eapply hoare_bind.
    { unfold GpId.links.
      eapply hoare_bind;
        [apply hoare_emit_any, P_plain, plain_no_request; reflexivity|intros _ _].
      eapply hoare_bind;
        [apply hoare_emit_any, P_plain, plain_no_request; reflexivity|intros _ _].
      eapply hoare_bind.
      { intros w0 Hw0. simpl. repeat split; eauto.
        - exists [Sql SelectMap]. split; [reflexivity|]. constructor; [|constructor].
          apply P_plain, plain_no_request. reflexivity.
        - intros a E. inversion E; subst a.
          exact (in_map (fun r => VObj [("wd", VStr (fst r)); ("wof", VNum (snd r))])
                   _ _ Hw0). }
      intros rows Hrows. simpl in Hrows.
      eapply hoare_bind.
      { apply (hoare_eval _ _ (fun known : jsset * jsset => set_has (snd known) (VNum n) = true)).
        intros known E. destruct rows as [|row rows']; [contradiction|].
        destruct (0 <? Z.of_nat (List.length (row :: rows'))) eqn:Hl;
          [|apply Z.ltb_ge in Hl; simpl List.length in Hl; lia].
        destruct known as [missing ids]. eapply known_rows_linked; eauto. }
      intros known Hknown. apply (missing_loop_keeps P_plain Inv_map); exact Hknown. }
    intros wofIds HwofIds.
    eapply hoare_bind.
    { unfold GpId.candidates.
      eapply hoare_bind;
        [apply (query_files_hoare pick P_plain (fun it => In it cands))|].
      - apply Forall_forall. intros d Hd. apply Forall_forall. intros it Hit.
        apply in_flat_map. exists d. auto.
      - constructor.
      - intros rows Hrows.
        apply (hoare_ret _ _
                 (fun items : jsmap item =>
                    Forall (fun it => In it cands /\ parseInt (id it) <> VNum n)
                      (map_values items))).
        unfold map_values. apply Forall_map, Forall_forall. intros [k it] He.
        rewrite drop_linked_filter in He. apply filter_In in He as [He Hk].
        pose proof (dedup_entries rows) as D. rewrite Forall_forall in D.
        destruct (D _ He) as [Dk Din]. simpl in *. split.
        + rewrite Forall_forall in Hrows. auto.
        + intros E. rewrite Dk, E, HwofIds in Hk. discriminate. }
    intros items Hitems. unfold GpId.finish.
    eapply hoare_bind;
      [apply (hoare_select_other (fun _ => True)); auto;
       apply P_plain, plain_no_request; reflexivity|intros otherRows _].
    eapply hoare_bind; [apply hoare_eval_any|intros others _].
    eapply hoare_bind;
      [apply hoare_log, P_plain, plain_no_request; reflexivity|intros _ _].
    apply (edit_loop_hoare (fun it => In it cands /\ parseInt (id it) <> VNum n)); auto;
      try (intros; apply P_plain;
           first [apply plain_no_request; reflexivity | split; reflexivity]).
    - intros it ios r [Hin Hid]. split.
      + intros o E. inversion E; subst. exists it. auto.
      + intros e i k E. discriminate E.
    - intros it e k ios r [Hin Hid]. split.
      + intros o E. discriminate E.
      + intros e' i k' E. inversion E; subst. exact Hid.
    - intros d v d' Hd E. unfold Inv in *.
      rewrite (insert_other_map_table _ _ _ E). exact Hd.
    - apply drop_missing_values. exact Hitems. }
  eapply hoare_events; [exact H|exact linked|exact run].
Qed.

Lemma linked_records_are_left_alone_witness :
  In ("Q5", 101) (map_table (db (Sample.start Sample.same_entity (mkStore [("Q5", 101)] [])))) /\
  trace (snd (GpId.main Sample.pick_first (VStr "secret") [Sample.distribution]
                (Sample.start Sample.same_entity (mkStore [("Q5", 101)] []))))
  = trace (Sample.start Sample.same_entity (mkStore [("Q5", 101)] []))
    ++ trace (snd (GpId.main Sample.pick_first (VStr "secret") [Sample.distribution]
                     (Sample.start Sample.same_entity (mkStore [("Q5", 101)] [])))) /\
  List.map (fun ev => match written ev with Some (_, i, _) => Some i | None => None end)
    (trace (snd (GpId.main Sample.pick_first (VStr "secret") [Sample.distribution]
                   (Sample.start Sample.same_entity (mkStore [("Q5", 101)] [])))))
  = [None; None; None; None; None; None; None; None; None; None; None; None; None;
     None; None; None; Some (VNum 102); None] /\
  Forall (fun ev =>
            (forall o, searched ev = Some o ->
               exists it,
                 In it (flat_map (Sql.gp_query Sample.pick_first GpId.otherSource)
                          [Sample.distribution]) /\
                 other_id it = o /\ parseInt (id it) <> VNum 101) /\
            (forall e i k, written ev = Some (e, i, k) -> parseInt i <> VNum 101))
    (trace (snd (GpId.main Sample.pick_first (VStr "secret") [Sample.distribution]
                   (Sample.start Sample.same_entity (mkStore [("Q5", 101)] []))))).
Proof.
  split; [left; reflexivity|]. split; [reflexivity|]. split; [reflexivity|].
  apply (linked_records_are_left_alone Sample.pick_first (VStr "secret")
           [Sample.distribution] (Sample.start Sample.same_entity (mkStore [("Q5", 101)] []))
           "Q5" 101).
  - left. reflexivity.
  - reflexivity.
Defined.

Lemma set_delete_absent s x : set_has s x = false -> set_delete s x = s.
Proof.
  unfold set_has, set_delete. induction s as [|y s IH]; simpl; intros H; [reflexivity|].
  apply orb_false_iff in H as [Hy Hs]. rewrite Hy. simpl. rewrite IH by exact Hs. reflexivity.
Qed.

Lemma known_rows_result table : forall missing ids,
  GpId.known_rows
    (List.map (fun r => VObj [("wd", VStr (fst r)); ("wof", VNum (snd r))]) table) missing ids
  = Ok (filter (fun e => negb (existsb (fun r => same_value_zero (VStr (fst r)) e) table))
          missing,
        fold_left set_add (List.map (fun r => VNum (snd r)) table) ids).
Proof.
  induction table as [|[s n] table IH]; intros missing ids; simpl.
  - f_equal. f_equal. induction missing as [|e m IHm]; simpl; [reflexivity|].
    rewrite <- IHm. reflexivity.
  - assert (E : (if set_has missing (VStr s) then set_delete missing (VStr s) else missing)
                = set_delete missing (VStr s)).
    { destruct (set_has missing (VStr s)) eqn:H; [reflexivity|].
      symmetry. apply set_delete_absent, H. }
    rewrite E, IH. unfold set_delete. rewrite filter_filter. f_equal. f_equal.
    apply filter_ext. intros e. rewrite negb_orb. reflexivity.
Qed.

(** X9. Which entities are asked for their Who's on First id.  From the
    rows of [map] and the contribution history, the pass that follows
    keeps for [missingEntity] exactly the entities of the history that no
    row names, and [wofIds] holds the id of every row. *)
Theorem entities_with_a_row_are_not_missing
    (table : list (string * Z)) (edited : jsset) :
  exists missingEntity wofIds,
    GpId.known_rows
      (List.map (fun r => VObj [("wd", VStr (fst r)); ("wof", VNum (snd r))]) table) edited []
    = Ok (missingEntity, wofIds) /\
    (forall e, In e missingEntity <->
               In e edited /\
               existsb (fun r => same_value_zero (VStr (fst r)) e) table = false) /\
    (forall r, In r table -> set_has wofIds (VNum (snd r)) = true).
Proof.
  eexists. eexists. split; [apply known_rows_result|]. split.
  - intros e. rewrite filter_In, negb_true_iff. reflexivity.
  - intros r Hr. apply set_has_added. apply in_map_iff. exists r. auto.
Qed.

Lemma pair_eqb_refl p : pair_eqb p p = true.
Proof. unfold pair_eqb. rewrite String.eqb_refl, Z.eqb_refl. reflexivity. Qed.

(** X10. An entity with the same Who's on First id in two claims stops
    the run.  The first claim is inserted into [map]; the insert of the
    second meets the primary key, the awaited [db.run] throws, and the
    pass ends there with the first row written. *)
Theorem duplicate_claim_values_abort
    (entity c1 c2 : value) (more : list value) (wofIds : jsset) (w : world)
    (v1 v2 : value) (s : string) (n : Z)
    (first_value : GpId.claim_value c1 = Ok (Some v1))
    (second_value : GpId.claim_value c2 = Ok (Some v2))
    (first_id : parseInt v1 = VNum n)
    (second_id : parseInt v2 = VNum n)
    (text : bind_text entity = Some s)
    (fresh : existsb (pair_eqb (s, n)) (map_table (db w)) = false) :
  GpId.claims_loop entity (c1 :: c2 :: more) wofIds w =
    (Threw (SqliteError "SQLITE_CONSTRAINT: UNIQUE constraint failed: map.wd, map.wof"),
     mkWorld (script w)
       (mkStore (map_table (db w) ++ [(s, n)]) (other_table (db w)))
       (trace w ++ [Sql (InsertMap entity (VNum n)); Sql (InsertMap entity (VNum n))])).
Proof.
  cbn [GpId.claims_loop]. unfold bind at 1. unfold eval. rewrite first_value. cbn [ret].
  unfold bind at 1. unfold db_run_await, insert_map. rewrite first_id, text.
  cbn [bind_integer]. rewrite fresh. cbn [db script trace].
  unfold bind at 1. rewrite second_value. cbn [ret].
  rewrite second_id. unfold bind at 1. cbn [bind_integer db script trace map_table].
  rewrite existsb_app. simpl existsb. rewrite pair_eqb_refl, orb_true_r. cbn.
  rewrite <- app_assoc. reflexivity.
Qed.

Lemma duplicate_claim_values_abort_witness :
  GpId.claim_value (Sample.string_claim "85633793") = Ok (Some (VStr "85633793")) /\
  parseInt (VStr "85633793") = VNum 85633793 /\
  bind_text (VStr "Q30") = Some "Q30" /\
  existsb (pair_eqb ("Q30", 85633793)) (map_table (db (Sample.start [] Sample.empty))) = false /\
  GpId.claims_loop (VStr "Q30")
    [Sample.string_claim "85633793"; Sample.string_claim "85633793"] []
    (Sample.start [] Sample.empty) =
    (Threw (SqliteError "SQLITE_CONSTRAINT: UNIQUE constraint failed: map.wd, map.wof"),
     mkWorld [] (mkStore [("Q30", 85633793)] [])
       [Sql (InsertMap (VStr "Q30") (VNum 85633793));
        Sql (InsertMap (VStr "Q30") (VNum 85633793))]).
Proof.
  split; [reflexivity|]. split; [reflexivity|]. split; [reflexivity|]. split; [reflexivity|].
  exact (duplicate_claim_values_abort (VStr "Q30") (Sample.string_claim "85633793")
           (Sample.string_claim "85633793") [] [] (Sample.start [] Sample.empty)
           (VStr "85633793") (VStr "85633793") "Q30" 85633793
           eq_refl eq_refl eq_refl eq_refl eq_refl eq_refl).
Defined.

(** ** The contribution history *)

Lemma add_titles_in_grows l : forall edited edited' x,
  GpId.add_titles_in l edited = Ok edited' ->
  set_has edited x = true -> set_has edited' x = true.
Proof.
  induction l as [|c l IH]; simpl; intros edited edited' x H Hx.
  - inversion H; subst. exact Hx.
  - destruct (get c "title") as [title|]; [|discriminate].
    eapply IH; [exact H|]. apply set_has_add, Hx.
Qed.

Lemma page_grows data edited cont edited' x :
  GpId.page data edited = Ok (cont, edited') ->
  set_has edited x = true -> set_has edited' x = true.
Proof.
  unfold GpId.page, rbind. intros H Hx.
  destruct (get data "continue") as [c|]; [|discriminate].
  destruct (if truthy c then _ else _) as [cont0|]; [|discriminate].
  destruct (get data "query") as [q|]; [|discriminate].
  destruct (truthy q).
  - destruct (get q "usercontribs") as [u|]; [|discriminate].
    destruct (truthy u).
    + destruct u as [| |b|n| |s|l|fs]; simpl in H; try discriminate.
      destruct (GpId.add_titles_in l edited) as [e'|] eqn:E; [|discriminate].
      inversion H; subst. eapply add_titles_in_grows; eauto.
    + inversion H; subst. exact Hx.
  - inversion H; subst. exact Hx.
Qed.

(** X11. Loading the contribution history only adds to the set: an
    entity that is in [edited] before a page is read is in the set the
    loop returns, however many pages follow. *)
Theorem history_only_grows
    (sc : list outcome) (url : request) (cont : value) (edited : jsset)
    (evs : list event) (result : jsset) (rest : list outcome) (x : value)
    (loaded : GpId.contributions sc url cont edited = (evs, Done result, rest))
    (member : set_has edited x = true) :
  set_has result x = true.
Proof.
  revert url cont edited evs loaded member.
  induction sc as [|o sc IH]; intros url cont edited evs H Hx; simpl in H.
  - destruct (GpId.is_false cont); [|discriminate]. inversion H; subst. exact Hx.
  - destruct (GpId.is_false cont); [inversion H; subst; exact Hx|].
    destruct o as [msg|r]; [discriminate|].
    destruct (rbind (decode r) (fun data => GpId.page data edited))
      as [[cont' edited']|] eqn:Ep; [|discriminate].
    destruct (GpId.contributions sc _ cont' edited') as [[evs' c] rest'] eqn:Er.
    inversion H; subst.
    unfold rbind in Ep. destruct (decode r) as [data|]; [|discriminate].
    eapply IH; [exact Er|]. eapply page_grows; eauto.
Qed.

Lemma history_only_grows_witness :
  GpId.contributions [Sample.ok200 (Sample.contribs ["Q5"; "Q7"; "Q5"])]
    userContribsUrl VNull [VStr "Q1"]
  = ([Direct CookieFetch userContribsUrl], Done [VStr "Q1"; VStr "Q5"; VStr "Q7"], []) /\
  set_has [VStr "Q1"] (VStr "Q1") = true /\
  set_has [VStr "Q1"; VStr "Q5"; VStr "Q7"] (VStr "Q1") = true.
Proof.
  split; [reflexivity|]. split; [reflexivity|].
  apply (history_only_grows [Sample.ok200 (Sample.contribs ["Q5"; "Q7"; "Q5"])]
           userContribsUrl VNull [VStr "Q1"] [Direct CookieFetch userContribsUrl]
           [VStr "Q1"; VStr "Q5"; VStr "Q7"] [] (VStr "Q1")); reflexivity.
Defined.

(** X12. An empty first page is no error.  When the first answer has
    neither [continue] nor [query], the history is the empty set after
    one request, and the run goes on. *)
Theorem empty_first_page_is_tolerated
    (w : world) (response : response) (data c q : value) (rest : list outcome)
    (answered : script w = Response response :: rest)
    (decoded : json response = Some data)
    (no_continue : get data "continue" = Ok c)
    (c_falsy : truthy c = false)
    (no_query : get data "query" = Ok q)
    (q_falsy : truthy q = false) :
  GpId.loadEdited w =
    (Done [], mkWorld rest (db w) (trace w ++ [Direct CookieFetch userContribsUrl])).
Proof.
  unfold GpId.loadEdited. rewrite answered. cbn [GpId.contributions GpId.is_false truthy].
  unfold decode. rewrite decoded. unfold rbind, GpId.page, rbind.
  rewrite no_continue, c_falsy, no_query, q_falsy.
  destruct rest; reflexivity.
Qed.

Lemma empty_first_page_is_tolerated_witness :
  script (Sample.start [Sample.ok200 (VObj [("batchcomplete", VBool true)])] Sample.empty)
  = Response (mkResponse 200 "OK" (Some (VObj [("batchcomplete", VBool true)]))) :: [] /\
  get (VObj [("batchcomplete", VBool true)]) "continue" = Ok VUndef /\
  get (VObj [("batchcomplete", VBool true)]) "query" = Ok VUndef /\
  GpId.loadEdited
    (Sample.start [Sample.ok200 (VObj [("batchcomplete", VBool true)])] Sample.empty)
  = (Done [], mkWorld [] Sample.empty [Direct CookieFetch userContribsUrl]).
Proof.
  split; [reflexivity|]. split; [reflexivity|]. split; [reflexivity|].
  exact (empty_first_page_is_tolerated
           (Sample.start [Sample.ok200 (VObj [("batchcomplete", VBool true)])] Sample.empty)
           (mkResponse 200 "OK" (Some (VObj [("batchcomplete", VBool true)])))
           (VObj [("batchcomplete", VBool true)]) VUndef VUndef []
           eq_refl eq_refl eq_refl eq_refl eq_refl eq_refl).
Defined.

(** ** One edit of the [gp:id] revision *)

(** X13. A token request answered without [query] stops the run.
    When the search found an entity that is not in [edited] and the
    answer to the token request has no [query] (an error envelope that
    [retryFetch] handed back, say), [edit] throws a [TypeError]: no write
    is made, and the exception leaves the loop. *)
Theorem token_answer_without_query_aborts
    (size : Z) (edited : jsset) (it : item) (i : Z) (w : world)
    (ios : list io) (searchData : value) (rest : list outcome) (entityId : value)
    (ios1 : list io) (data : value) (rest1 : list outcome)
    (searched_ok : Transport.backoffFetch
                     (searchUrl GpId.otherProperty GpId.wofProperty (other_id it))
                     (script w) 0 = (ios, Done searchData, rest))
    (found : GpId.no_entity_found searchData = Ok false)
    (first_hit : GpId.first_title searchData = Ok entityId)
    (not_edited : set_has edited entityId = false)
    (token_answer : Transport.retryFetch csrfTokenUrl rest 0 = (ios1, Done data, rest1))
    (no_query : get data "query" = Ok VUndef) :
  GpId.edit size edited it i w =
    (Threw (TypeError "Cannot read property 'tokens' of undefined"),
     mkWorld rest1 (db w)
       (trace w ++
        [Call BackoffFetch (searchUrl GpId.otherProperty GpId.wofProperty (other_id it))
           ios (Done searchData);
         Log [Lit "("; Percent i size; Lit "%) Editing "; Sub entityId; Lit " start"];
         Call RetryFetch csrfTokenUrl ios1 (Done data)])) /\
  forall more,
    fst (GpId.edit_loop size edited (it :: more) (i - 1) w)
    = Threw (TypeError "Cannot read property 'tokens' of undefined").
Proof.
  assert (E : GpId.edit size edited it i w =
    (Threw (TypeError "Cannot read property 'tokens' of undefined"),
     mkWorld rest1 (db w)
       (trace w ++
        [Call BackoffFetch (searchUrl GpId.otherProperty GpId.wofProperty (other_id it))
           ios (Done searchData);
         Log [Lit "("; Percent i size; Lit "%) Editing "; Sub entityId; Lit " start"];
         Call RetryFetch csrfTokenUrl ios1 (Done data)]))).
  { unfold GpId.edit, GpId.backoff, GpId.getToken, GpId.retry, bind, call, log, emit, eval, ret.
    rewrite searched_ok. cbn [fst snd script db trace]. rewrite found, first_hit.
    cbn [fst snd script db trace]. rewrite not_edited. cbn [fst snd script db trace].
    rewrite token_answer. cbn [fst snd script db trace]. unfold rbind. rewrite no_query.
    cbn. rewrite <- !app_assoc. reflexivity. }
  split; [exact E|]. intros more. cbn [GpId.edit_loop]. unfold bind.
  replace (i - 1 + 1) with i by lia. rewrite E. reflexivity.
Qed.

Lemma token_answer_without_query_aborts_witness :
  Transport.backoffFetch
    (searchUrl GpId.otherProperty GpId.wofProperty (other_id (mkItem (VNum 101) VUndef (VNum 10))))
    (script (Sample.start [Sample.ok200 (Sample.hits ["Q5"]);
                           Sample.ok200 (Sample.failed "no-permission")] Sample.empty)) 0
  = ([Fetch PlainFetch (searchUrl GpId.otherProperty GpId.wofProperty (VNum 10))],
     Done (Sample.hits ["Q5"]), [Sample.ok200 (Sample.failed "no-permission")]) /\
  GpId.no_entity_found (Sample.hits ["Q5"]) = Ok false /\
  GpId.first_title (Sample.hits ["Q5"]) = Ok (VStr "Q5") /\
  set_has [] (VStr "Q5") = false /\
  Transport.retryFetch csrfTokenUrl [Sample.ok200 (Sample.failed "no-permission")] 0
  = ([Fetch CookieFetch csrfTokenUrl; ConsoleErrorText (lit "Permission Denied!")],
     Done (Sample.failed "no-permission"), []) /\
  get (Sample.failed "no-permission") "query" = Ok VUndef /\
  fst (GpId.edit_loop 2 [] (mkItem (VNum 101) VUndef (VNum 10) :: Sample.two_items) (1 - 1)
         (Sample.start [Sample.ok200 (Sample.hits ["Q5"]);
                        Sample.ok200 (Sample.failed "no-permission")] Sample.empty))
  = Threw (TypeError "Cannot read property 'tokens' of undefined").
Proof.
  split; [reflexivity|]. split; [reflexivity|]. split; [reflexivity|].
  split; [reflexivity|]. split; [reflexivity|]. split; [reflexivity|].
  apply (token_answer_without_query_aborts 2 [] (mkItem (VNum 101) VUndef (VNum 10)) 1
           (Sample.start [Sample.ok200 (Sample.hits ["Q5"]);
                          Sample.ok200 (Sample.failed "no-permission")] Sample.empty)
           [Fetch PlainFetch (searchUrl GpId.otherProperty GpId.wofProperty (VNum 10))]
           (Sample.hits ["Q5"]) [Sample.ok200 (Sample.failed "no-permission")] (VStr "Q5")
           [Fetch CookieFetch csrfTokenUrl; ConsoleErrorText (lit "Permission Denied!")]
           (Sample.failed "no-permission") []); reflexivity.
Defined.

(** X14. The answer to a write is not looked at.  Whatever body
    [retryFetch] returns for the [wbcreateclaim] request, an error
    envelope included, [edit] prints the closing line and completes, and
    the loop goes on with the next candidate. *)
Theorem write_answer_is_not_inspected
    (size : Z) (edited : jsset) (it : item) (i : Z) (w : world)
    (ios : list io) (searchData : value) (rest : list outcome) (entityId : value)
    (ios1 : list io) (data : value) (rest1 : list outcome) (token : value)
    (ios2 : list io) (answer : value) (rest2 : list outcome)
    (searched_ok : Transport.backoffFetch
                     (searchUrl GpId.otherProperty GpId.wofProperty (other_id it))
                     (script w) 0 = (ios, Done searchData, rest))
    (found : GpId.no_entity_found searchData = Ok false)
    (first_hit : GpId.first_title searchData = Ok entityId)
    (not_edited : set_has edited entityId = false)
    (token_answer : Transport.retryFetch csrfTokenUrl rest 0 = (ios1, Done data, rest1))
    (token_read : (query <- get data "query" ;; tokens <- get query "tokens" ;;
                   get tokens "csrftoken")%res = Ok token)
    (written_back : Transport.retryFetch
                      (editRequest GpId.wofProperty entityId (id it) token) rest1 0
                    = (ios2, Done answer, rest2)) :
  GpId.edit size edited it i w =
    (Done tt,
     mkWorld rest2 (db w)
       (trace w ++
        [Call BackoffFetch (searchUrl GpId.otherProperty GpId.wofProperty (other_id it))
           ios (Done searchData);
         Log [Lit "("; Percent i size; Lit "%) Editing "; Sub entityId; Lit " start"];
         Call RetryFetch csrfTokenUrl ios1 (Done data);
         Call RetryFetch (editRequest GpId.wofProperty entityId (id it) token) ios2 (Done answer);
         Log [Lit "("; Percent i size; Lit "%) Editing "; Sub entityId; Lit " end"]])).
Proof.
  unfold GpId.edit, GpId.backoff, GpId.getToken, GpId.retry, bind, call, log, emit, eval, ret.
  rewrite searched_ok. cbn [fst snd script db trace]. rewrite found, first_hit.
  cbn [fst snd script db trace]. rewrite not_edited. cbn [fst snd script db trace].
  rewrite token_answer. cbn [fst snd script db trace]. rewrite token_read.
  cbn [fst snd script db trace]. rewrite written_back. cbn.
  rewrite <- !app_assoc. reflexivity.
Qed.

Lemma write_answer_is_not_inspected_witness :
  fst (GpId.edit 2 [] (mkItem (VNum 101) VUndef (VNum 10)) 1
         (Sample.start [Sample.ok200 (Sample.hits ["Q5"]);
                        Sample.ok200 (Sample.tokens "csrftoken" "c1");
                        Sample.ok200 (Sample.failed "no-permission")] Sample.empty))
  = Done tt /\
  script (snd (GpId.edit 2 [] (mkItem (VNum 101) VUndef (VNum 10)) 1
                 (Sample.start [Sample.ok200 (Sample.hits ["Q5"]);
                                Sample.ok200 (Sample.tokens "csrftoken" "c1");
                                Sample.ok200 (Sample.failed "no-permission")] Sample.empty)))
  = [].
Proof.
  rewrite (write_answer_is_not_inspected 2 [] (mkItem (VNum 101) VUndef (VNum 10)) 1
           (Sample.start [Sample.ok200 (Sample.hits ["Q5"]);
                          Sample.ok200 (Sample.tokens "csrftoken" "c1");
                          Sample.ok200 (Sample.failed "no-permission")] Sample.empty)
           [Fetch PlainFetch (searchUrl GpId.otherProperty GpId.wofProperty (VNum 10))]
           (Sample.hits ["Q5"])
           [Sample.ok200 (Sample.tokens "csrftoken" "c1");
            Sample.ok200 (Sample.failed "no-permission")]
           (VStr "Q5")
           [Fetch CookieFetch csrfTokenUrl] (Sample.tokens "csrftoken" "c1")
           [Sample.ok200 (Sample.failed "no-permission")] (VStr "c1")
           [Fetch CookieFetch (editRequest GpId.wofProperty (VStr "Q5") (VNum 101) (VStr "c1"));
            ConsoleErrorText (lit "Permission Denied!")]
           (Sample.failed "no-permission") []
           eq_refl eq_refl eq_refl eq_refl eq_refl eq_refl eq_refl).
  split; reflexivity.
Defined.

Lemma gp_login_failure_aborts_witness :
  GpId.main Sample.pick_first (VStr "wrong") [Sample.distribution]
    (Sample.start Sample.refused_login Sample.empty)
  = (Threw (Error "Login Failure"),
     mkWorld [Sample.ok200 (Sample.tokens "csrftoken" "c0");
              Sample.ok200 (VObj [("claims", VObj [])]); Sample.ok200 Sample.created;
              Sample.ok200 (VObj [("claims", VObj [])]); Sample.ok200 Sample.created]
       Sample.empty
       [Direct CookieFetch loginTokenUrl;
        Direct CookieFetch (loginRequest (VStr "wrong") (VStr "l1"));
        Log [Lit "Login Result: "; Sub (VStr "Failed")]]).
Proof.
  exact (gp_login_failure_aborts Sample.pick_first (VStr "wrong") [Sample.distribution]
           (Sample.start Sample.refused_login Sample.empty)
           (mkResponse 200 "OK" (Some (Sample.tokens "logintoken" "l1")))
           (mkResponse 200 "OK" (Some (Sample.loginResult "Failed")))
           [Sample.ok200 (Sample.tokens "csrftoken" "c0");
            Sample.ok200 (VObj [("claims", VObj [])]); Sample.ok200 Sample.created;
            Sample.ok200 (VObj [("claims", VObj [])]); Sample.ok200 Sample.created]
           (Sample.tokens "logintoken" "l1") (VStr "l1")
           (Sample.loginResult "Failed") (VObj [("result", VStr "Failed")]) (VStr "Failed")
           eq_refl eq_refl eq_refl eq_refl eq_refl eq_refl eq_refl).
Defined.

Lemma gp_edit_fetches_a_token_for_its_write_witness :
  exists tail,
    trace (snd (GpId.edit 2 [] (mkItem (VNum 101) VUndef (VNum 10)) 1
                  (Sample.start [Sample.ok200 (Sample.hits ["Q5"]);
                                 Sample.ok200 (Sample.tokens "csrftoken" "c1");
                                 Sample.ok200 Sample.created] Sample.empty)))
    = trace (Sample.start [Sample.ok200 (Sample.hits ["Q5"]);
                           Sample.ok200 (Sample.tokens "csrftoken" "c1");
                           Sample.ok200 Sample.created] Sample.empty) ++
      [Call BackoffFetch
         (searchUrl GpId.otherProperty GpId.wofProperty
            (other_id (mkItem (VNum 101) VUndef (VNum 10))))
         [Fetch PlainFetch (searchUrl GpId.otherProperty GpId.wofProperty (VNum 10))]
         (Done (Sample.hits ["Q5"]));
       Log [Lit "("; Percent 1 2; Lit "%) Editing "; Sub (VStr "Q5"); Lit " start"];
       Call RetryFetch csrfTokenUrl [Fetch CookieFetch csrfTokenUrl]
         (Done (Sample.tokens "csrftoken" "c1"));
       Call RetryFetch
         (editRequest GpId.wofProperty (VStr "Q5")
            (id (mkItem (VNum 101) VUndef (VNum 10))) (VStr "c1"))
         [Fetch CookieFetch (editRequest GpId.wofProperty (VStr "Q5") (VNum 101) (VStr "c1"))]
         (Done Sample.created)] ++ tail.
Proof.
  apply (gp_edit_fetches_a_token_for_its_write 2 [] (mkItem (VNum 101) VUndef (VNum 10)) 1
           (Sample.start [Sample.ok200 (Sample.hits ["Q5"]);
                          Sample.ok200 (Sample.tokens "csrftoken" "c1");
                          Sample.ok200 Sample.created] Sample.empty)
           [Fetch PlainFetch (searchUrl GpId.otherProperty GpId.wofProperty (VNum 10))]
           (Sample.hits ["Q5"])
           [Sample.ok200 (Sample.tokens "csrftoken" "c1"); Sample.ok200 Sample.created]
           (VStr "Q5") [Fetch CookieFetch csrfTokenUrl] (Sample.tokens "csrftoken" "c1")
           [Sample.ok200 Sample.created] (VStr "c1")
           [Fetch CookieFetch (editRequest GpId.wofProperty (VStr "Q5") (VNum 101) (VStr "c1"))]
           (Done Sample.created) []); reflexivity.
Defined.

(** ** More on the queries *)

Lemma same_group_eq a b : Sql.same_group a b = true <-> a = b.
Proof.
  destruct a, b; simpl; split; intros H; try discriminate; try reflexivity.
  - apply Z.eqb_eq in H. congruence.
  - inversion H. apply Z.eqb_refl.
  - apply String.eqb_eq in H. congruence.
  - inversion H. apply String.eqb_refl.
Qed.

Lemma add_to_groups_keys r gs :
  forall k, In k (List.map (fun g : Sql.group => spr_id (fst (fst g))) (Sql.add_to_groups r gs)) ->
            k = spr_id (fst r) \/
            In k (List.map (fun g : Sql.group => spr_id (fst (fst g))) gs).
Proof.
  induction gs as [|[r0 more] gs IH]; simpl; intros k H.
  - destruct H as [H|[]]. auto.
  - destruct (Sql.same_group (spr_id (fst r0)) (spr_id (fst r))); simpl in H.
    + auto.
    + destruct H as [H|H]; [auto|]. destruct (IH k H); auto.
Qed.

Lemma add_to_groups_grouped r gs : grouped gs -> grouped (Sql.add_to_groups r gs).
Proof.
  unfold grouped. induction gs as [|[r0 more] gs IH]; simpl; intros [Hnd Hmem].
  - split; repeat constructor. intros [].
  - inversion Hnd as [|? ? Hnotin Hnd']; subst. inversion Hmem as [|? ? Hg Hmem']; subst.
    destruct (Sql.same_group (spr_id (fst r0)) (spr_id (fst r))) eqn:E; simpl.
    + split; [exact Hnd|]. constructor; [|exact Hmem']. simpl in *.
      apply Forall_app. split; [exact Hg|]. constructor; [|constructor].
      apply same_group_eq in E. congruence.
    + destruct (IH (conj Hnd' Hmem')) as [Hnd2 Hmem2]. split.
      * constructor; [|exact Hnd2]. intros Hin.
        apply add_to_groups_keys in Hin as [Hin|Hin]; [|contradiction].
        assert (X : Sql.same_group (spr_id (fst r0)) (spr_id (fst r)) = true)
          by (apply same_group_eq; exact Hin).
        congruence.
      * constructor; assumption.
Qed.

Lemma group_by_grouped rows : grouped (Sql.group_by rows).
Proof.
  unfold Sql.group_by.
  assert (G : forall gs, grouped gs ->
                         grouped (fold_left (fun gs r => Sql.add_to_groups r gs) rows gs)).
  { induction rows as [|r rows IH]; simpl; intros gs H; [exact H|].
    apply IH, add_to_groups_grouped, H. }
  apply G. split; constructor.
Qed.

Lemma picked_keys pick rows :
  (forall r g, In (pick r g) (r :: g)) ->
  NoDup (List.map (fun r : Sql.joined => spr_id (fst r))
           (List.map (fun g : Sql.group => pick (fst g) (snd g)) (Sql.group_by rows))).
Proof.
  intros Hpick. destruct (group_by_grouped rows) as [Hnd Hmem].
  rewrite map_map.
  replace (List.map (fun g : Sql.group => spr_id (fst (pick (fst g) (snd g)))) (Sql.group_by rows))
    with (List.map (fun g : Sql.group => spr_id (fst (fst g))) (Sql.group_by rows));
    [exact Hnd|].
  apply map_ext_in. intros [r0 more] Hg. simpl.
  rewrite Forall_forall in Hmem. specialize (Hmem _ Hg). simpl in Hmem.
  destruct (Hpick r0 more) as [E|E]; [rewrite <- E; reflexivity|].
  rewrite Forall_forall in Hmem. symmetry. apply Hmem, E.
Qed.

Lemma js_of_sql_inj a b : js_of_sql a = js_of_sql b -> a = b.
Proof. destruct a, b; simpl; intros H; try discriminate; congruence. Qed.

Lemma NoDup_map_injective {A B} (f : A -> B) l :
  (forall a b, f a = f b -> a = b) -> NoDup l -> NoDup (List.map f l).
Proof.
  intros Hf. induction 1 as [|x l Hx Hl IH]; simpl; constructor; [|exact IH].
  intros Hin. apply in_map_iff in Hin as (y & Ey & Hy). apply Hf in Ey. subst y. auto.
Qed.

Lemma NoDup_map_filter {A B} (f : A -> B) (p : A -> bool) l :
  NoDup (List.map f l) -> NoDup (List.map f (filter p l)).
Proof.
  induction l as [|x l IH]; simpl; intros H; [constructor|].
  inversion H; subst. destruct (p x); simpl; [|auto].
  constructor; [|auto]. intros Hin. apply in_map_iff in Hin as (y & Ey & Hy).
  apply filter_In in Hy as [Hy _]. match goal with H1 : ~ In _ _ |- _ => apply H1 end.
  rewrite <- Ey. apply in_map, Hy.
Qed.

(** X15. One row per place.  Both queries return at most one row for
    an [spr.id]: the ids of the rows of a result are pairwise
    different, whichever row SQLite takes from a group. *)
Theorem queries_return_one_row_per_place
    (pick : Sql.joined -> list Sql.joined -> Sql.joined)
    (pick_member : forall r g, In (pick r g) (r :: g))
    (otherSource : sqlval) (d : wof_db) :
  NoDup (List.map id (Sql.gp_query pick otherSource d)) /\
  NoDup (List.map id (Sql.gn_query pick d)).
Proof.
  split.
  - unfold Sql.gp_query. rewrite map_map. cbn [id].
    rewrite <- (map_map (fun r : Sql.joined => spr_id (fst r)) js_of_sql).
    apply NoDup_map_injective; [intros a b; apply js_of_sql_inj|].
    apply picked_keys, pick_member.
  - unfold Sql.gn_query. rewrite map_map. cbn [id].
    rewrite <- (map_map (fun r : Sql.joined => spr_id (fst r)) js_of_sql).
    apply NoDup_map_injective; [intros a b; apply js_of_sql_inj|].
    apply NoDup_map_filter, picked_keys, pick_member.
Qed.

Lemma queries_return_one_row_per_place_witness :
  (forall r g, In (Sample.pick_first r g) (r :: g)) /\
  List.map id (Sql.gp_query Sample.pick_first GpId.otherSource Sample.distribution)
  = [VNum 101; VNum 102] /\
  NoDup (List.map id (Sql.gp_query Sample.pick_first GpId.otherSource Sample.distribution)).
Proof.
  split; [intros r g; left; reflexivity|]. split; [reflexivity|].
  apply (queries_return_one_row_per_place Sample.pick_first
           (fun r g => or_introl eq_refl) GpId.otherSource Sample.distribution).
Defined.

Lemma inner_join_rows d r :
  In r (Sql.inner_join d) ->
  In (fst r) (spr d) /\ In (snd r) (concordances d) /\
  Sql.holds (Sql.eq (spr_id (fst r)) (c_id (snd r))) = true.
Proof.
  unfold Sql.inner_join. intros H. apply in_flat_map in H as (s & Hs & H).
  apply in_map_iff in H as (c & E & Hc). apply filter_In in Hc as [Hc Hon].
  subst r. simpl. auto.
Qed.

(** X16. Where a candidate comes from.  Every row of the [gp:id] query
    joins a place that is current ([is_current != 0]) with one of its
    concordances of the source asked for, and every row of the [gn:id]
    query joins a place that is not deprecated ([is_deprecated != 1])
    with one of its [gn:id] concordances; the row carries the id (and
    place type) of the place and the foreign id of the concordance. *)
Theorem candidates_come_from_live_places
    (pick : Sql.joined -> list Sql.joined -> Sql.joined)
    (pick_member : forall r g, In (pick r g) (r :: g))
    (otherSource : sqlval) (d : wof_db) :
  Forall (fun it =>
            exists s c,
              In s (spr d) /\ In c (concordances d) /\
              Sql.holds (Sql.eq (spr_id s) (c_id c)) = true /\
              Sql.holds (Sql.not (Sql.eq (spr_is_current s) (SInt 0))) = true /\
              Sql.holds (Sql.eq (c_other_source c) otherSource) = true /\
              id it = js_of_sql (spr_id s) /\ other_id it = js_of_sql (c_other_id c))
    (Sql.gp_query pick otherSource d) /\
  Forall (fun it =>
            exists s c,
              In s (spr d) /\ In c (concordances d) /\
              Sql.holds (Sql.eq (spr_id s) (c_id c)) = true /\
              Sql.holds (Sql.not (Sql.eq (spr_is_deprecated s) (SInt 1))) = true /\
              Sql.holds (Sql.eq (c_other_source c) (SText "gn:id")) = true /\
              id it = js_of_sql (spr_id s) /\ placetype it = js_of_sql (spr_placetype s) /\
              other_id it = js_of_sql (c_other_id c))
    (Sql.gn_query pick d).
Proof.
  split.
  - unfold Sql.gp_query. apply Forall_map.
    eapply Forall_impl;
      [|apply (picked_rows pick pick_member
                 (fun r => In r (Sql.inner_join d) /\
                           Sql.holds (Sql.gp_where otherSource r) = true))].
    + intros [s c] [Hj Hw]. apply inner_join_rows in Hj as (Hs & Hc & Hon).
      unfold Sql.gp_where in Hw. apply and_holds in Hw as [Hw _].
      apply and_holds in Hw as [Hcur Hsrc]. exists s, c. simpl in *. auto 10.
    + apply Forall_forall. intros r Hr. apply filter_In in Hr. exact Hr.
  - unfold Sql.gn_query. apply Forall_map. apply Forall_forall. intros r Hr.
    apply filter_In in Hr as [Hr _]. revert r Hr. apply Forall_forall.
    eapply Forall_impl;
      [|apply (picked_rows pick pick_member
                 (fun r => In r (Sql.inner_join d) /\ Sql.holds (Sql.gn_where r) = true))].
    + intros [s c] [Hj Hw]. apply inner_join_rows in Hj as (Hs & Hc & Hon).
      unfold Sql.gn_where in Hw. apply and_holds in Hw as [Hw _].
      apply and_holds in Hw as [Hdep Hsrc]. exists s, c. simpl in *. auto 10.
    + apply Forall_forall. intros r Hr. apply filter_In in Hr. exact Hr.
Qed.

Lemma candidates_come_from_live_places_witness :
  (forall r g, In (Sample.pick_first r g) (r :: g)) /\
  Sql.gp_query Sample.pick_first GpId.otherSource
    (mkWof "db" [mkSpr (SInt 1) (SText "locality") (SInt 0) (SInt 0);
                 mkSpr (SInt 2) (SText "locality") (SInt 1) (SInt 0)]
       [mkConcordance (SInt 1) (SInt 10) (SText "gp:id");
        mkConcordance (SInt 2) (SInt 20) (SText "gp:id")])
  = [mkItem (VNum 2) VUndef (VNum 20)] /\
  Forall (fun it => exists s c,
            In s (spr Sample.distribution) /\ In c (concordances Sample.distribution) /\
            Sql.holds (Sql.eq (spr_id s) (c_id c)) = true /\
            Sql.holds (Sql.not (Sql.eq (spr_is_current s) (SInt 0))) = true /\
            Sql.holds (Sql.eq (c_other_source c) GpId.otherSource) = true /\
            id it = js_of_sql (spr_id s) /\ other_id it = js_of_sql (c_other_id c))
    (Sql.gp_query Sample.pick_first GpId.otherSource Sample.distribution).
Proof.
  split; [intros r g; left; reflexivity|]. split; [reflexivity|].
  apply (candidates_come_from_live_places Sample.pick_first
           (fun r g => or_introl eq_refl) GpId.otherSource Sample.distribution).
Defined.

(** ** The [wd:id] revision of [part_000] *)

(** X19. In the revision of [part_000] a login whose result is not
    ["Success"] ends the run with [Login Failure]: the two requests of
    the login are the only ones made. *)
Theorem wd_login_failure_aborts pick PASSWORD files w r1 r2 rest loginTokenData logintoken
    loginData login result :
  script w = Response r1 :: Response r2 :: rest ->
  json r1 = Some loginTokenData ->
  (query <- get loginTokenData "query" ;; tokens <- get query "tokens" ;;
   get tokens "logintoken")%res = Ok logintoken ->
  json r2 = Some loginData ->
  get loginData "login" = Ok login ->
  get login "result" = Ok result ->
  is_string result "Success" = false ->
  WdIdMain.main pick PASSWORD files w =
    (Threw (Error "Login Failure"),
     mkWorld rest (db w)
       (trace w ++ [Direct CookieFetch loginTokenUrl;
                    Direct CookieFetch (loginRequest PASSWORD logintoken);
                    Log [Lit "Login Result: "; Sub result]])).
Proof.
  intros Hs H1 Ht H2 Hl Hr Hn.
  unfold WdIdMain.main, bind at 1 2 3. unfold fetch_json at 1. rewrite Hs.
  unfold decode. rewrite H1. cbn [script db trace tl].
  unfold bind at 1. rewrite Ht. cbn [eval ret].
  unfold fetch_json, decode. cbn [script db trace tl]. rewrite H2.
  unfold bind at 1. unfold rbind. rewrite Hl, Hr. cbn [eval ret].
  unfold bind at 1. unfold log, emit. cbn [script db trace tl].
  rewrite Hn. cbn. rewrite <- !app_assoc. reflexivity.
Qed.

Lemma wd_login_failure_aborts_witness :
  fst (WdIdMain.main Sample.pick_first (VStr "wrong") [Sample.distribution]
         (Sample.start [Sample.ok200 (Sample.tokens "logintoken" "t0");
                        Sample.ok200 (Sample.loginResult "Failed");
                        Sample.ok200 (Sample.tokens "csrftoken" "c0")] Sample.empty))
  = Threw (Error "Login Failure") /\
  script (snd (WdIdMain.main Sample.pick_first (VStr "wrong") [Sample.distribution]
         (Sample.start [Sample.ok200 (Sample.tokens "logintoken" "t0");
                        Sample.ok200 (Sample.loginResult "Failed");
                        Sample.ok200 (Sample.tokens "csrftoken" "c0")] Sample.empty)))
  = [Sample.ok200 (Sample.tokens "csrftoken" "c0")].
Proof.
  rewrite (wd_login_failure_aborts Sample.pick_first (VStr "wrong") [Sample.distribution]
             (Sample.start [Sample.ok200 (Sample.tokens "logintoken" "t0");
                            Sample.ok200 (Sample.loginResult "Failed");
                            Sample.ok200 (Sample.tokens "csrftoken" "c0")] Sample.empty)
             (mkResponse 200 "OK" (Some (Sample.tokens "logintoken" "t0")))
             (mkResponse 200 "OK" (Some (Sample.loginResult "Failed")))
             [Sample.ok200 (Sample.tokens "csrftoken" "c0")]
             (Sample.tokens "logintoken" "t0") (VStr "t0")
             (Sample.loginResult "Failed")
             (VObj [("result", VStr "Failed")]) (VStr "Failed")
             eq_refl eq_refl eq_refl eq_refl eq_refl eq_refl eq_refl).
  split; reflexivity.
Defined.

Lemma wd_query_files_rows pick edited files it :
  In it (WdIdMain.query_files pick edited files) ->
  set_has edited (other_id it) = false /\
  exists file, In file files /\ In it (WdIdMain.wd_query pick file).
Proof.
  unfold WdIdMain.query_files.
  assert (G : forall fs rows,
             In it (fold_left
                      (fun rows file =>
                         let result := WdIdMain.wd_query pick file in
                         if 0 <? Z.of_nat (List.length result)
                         then rows ++ filter (fun it => negb (set_has edited (other_id it))) result
                         else rows) fs rows) ->
             In it rows \/
             (set_has edited (other_id it) = false /\
              exists file, In file fs /\ In it (WdIdMain.wd_query pick file))).
  { induction fs as [|file fs IH]; simpl; intros rows H; [auto|].
    apply IH in H as [H|(Hn & f & Hf & Hit)].
    - destruct (0 <? _); [|auto].
      apply in_app_or in H as [H|H]; [auto|].
      apply filter_In in H as [Hin Hn]. right. split.
      + apply negb_true_iff in Hn. exact Hn.
      + exists file. auto.
    - right. split; [exact Hn|]. exists f. auto. }
  intros H. apply G in H as [[]|H]. exact H.
Qed.

(** What the requests of the [wd:id] loop are made for: an entity read
    or written is the [other_id] of a row of [rows], and the id written
    is the [id] of that row. *)
Lemma wd_edit_loop_hoare (good : item -> Prop) csrftoken rows :
  Forall good rows ->
  hoare (fun _ => True)
    (fun ev =>
       (forall e, claims_read ev = Some e -> exists it, good it /\ other_id it = e) /\
       (forall e i k, written ev = Some (e, i, k) ->
          exists it, good it /\ other_id it = e /\ id it = i))
    (WdId.edit_loop csrftoken rows) (fun _ => True).
Proof.
  induction rows as [|it more IH]; intros Hrows; simpl.
  - apply hoare_ret_any.
  - inversion Hrows as [|? ? Hit Hmore]; subst.
    eapply hoare_bind; [|intros _ _; apply IH; exact Hmore].
    unfold WdId.edit.
    eapply hoare_bind; [apply hoare_fetch_json|intros data _].
    { split.
      - intros e E. inversion E; subst. exists it. auto.
      - intros e i k E. discriminate E. }
    eapply hoare_bind; [apply hoare_eval_any|intros claims _].
    destruct (is_undefined claims).
    { apply hoare_emit_any. split; intros; discriminate. }
    eapply hoare_bind; [apply hoare_eval_any|intros claim _].
    destruct (negb (truthy claim)).
    + eapply hoare_bind; [apply hoare_log; split; intros; discriminate|intros _ _].
      eapply hoare_bind; [|intros _ _; apply hoare_log; split; intros; discriminate].
      apply hoare_call. intros ios r. split.
      * intros e E. discriminate E.
      * intros e i k E. inversion E; subst. exists it. auto.
    + apply hoare_log; split; intros; discriminate.
Qed.

(** X20. The history is honoured before anything is asked.  In the
    revision of [part_000], once the history is loaded, every entity whose
    claims are read and every entity written to is the [other_id] of a row
    of the query on some distribution and is not in [edited]; the id
    written is the [id] of that row. *)
Theorem edited_entities_are_not_asked_about pick edited files w :
  exists evs,
    trace (snd (WdIdMain.finish pick edited files w)) = trace w ++ evs /\
    Forall (fun ev =>
      (forall e, claims_read ev = Some e ->
         set_has edited e = false /\
         exists file it, In file files /\ In it (WdIdMain.wd_query pick file) /\
                         other_id it = e) /\
      (forall e i k, written ev = Some (e, i, k) ->
         set_has edited e = false /\
         exists file it, In file files /\ In it (WdIdMain.wd_query pick file) /\
                         other_id it = e /\ id it = i)) evs.
Proof.
  set (good := fun it : item =>
                 set_has edited (other_id it) = false /\
                 exists file, In file files /\ In it (WdIdMain.wd_query pick file)).
  assert (H : hoare (fun _ => True)
                (fun ev =>
                   (forall e, claims_read ev = Some e -> exists it, good it /\ other_id it = e) /\
                   (forall e i k, written ev = Some (e, i, k) ->
                      exists it, good it /\ other_id it = e /\ id it = i))
                (WdIdMain.finish pick edited files) (fun _ => True)).
  { unfold WdIdMain.finish.
    eapply hoare_bind; [apply hoare_log; split; intros; discriminate|intros _ _].
    eapply hoare_bind; [apply hoare_fetch_json; split; intros; discriminate|intros data _].
    eapply hoare_bind; [apply hoare_eval_any|intros csrftoken _].
    apply wd_edit_loop_hoare. apply Forall_forall. intros it Hit.
    apply wd_query_files_rows. exact Hit. }
  destruct (H w Logic.I) as (_ & (evs & E & Hevs) & _).
  exists evs. split; [exact E|].
  eapply Forall_impl; [|exact Hevs].
  intros ev [Hr Hw]. split.
  - intros e E'. destruct (Hr e E') as (it & (Hn & file & Hf & Hq) & Ho). subst e.
    split; [exact Hn|]. exists file, it. auto.
  - intros e i k E'. destruct (Hw e i k E') as (it & (Hn & file & Hf & Hq) & Ho & Hi). subst e i.
    split; [exact Hn|]. exists file, it. auto.
Qed.

(** ** Entities that carry the claim already *)

Lemma has_claim_answer property o :
  has_claim property o = true ->
  exists r data claims claim,
    o = Response r /\ decode r = Ok data /\ get data "claims" = Ok claims /\
    is_undefined claims = false /\ get claims property = Ok claim /\ truthy claim = true.
Proof.
  destruct o as [msg|r]; simpl; [discriminate|].
  destruct (decode r) as [data|e] eqn:Ed; simpl; [|discriminate].
  destruct (get data "claims") as [claims|e] eqn:Ec; simpl; [|discriminate].
  destruct (get claims property) as [claim|e] eqn:E; [|discriminate].
  intros H. exists r, data, claims, claim.
  split; [reflexivity|]. split; [exact Ed|]. split; [exact Ec|].
  split; [|split; [exact E|exact H]].
  destruct claims; try reflexivity. discriminate E.
Qed.

Lemma index_js_skips csrftoken rows : forall w answers rest,
  script w = answers ++ rest ->
  List.length answers = List.length rows ->
  forallb (has_claim IndexJs.property) answers = true ->
  IndexJs.edit_loop csrftoken rows w =
    (Done tt, mkWorld rest (db w) (trace w ++ skips IndexJs.property rows)).
Proof.
  induction rows as [|it more IH]; intros w answers rest Hs Hl Ha.
  - destruct answers; [|discriminate Hl]. simpl in *. rewrite app_nil_r.
    destruct w; simpl in *. subst. reflexivity.
  - destruct answers as [|o answers]; [discriminate Hl|].
    simpl in Ha. apply andb_true_iff in Ha as [Ho Ha].
    apply has_claim_answer in Ho as (r & data & claims & claim & -> & Hd & Hc & _ & Hp & Ht).
    cbn [IndexJs.edit_loop]. unfold bind at 1. unfold IndexJs.edit.
    unfold bind at 1. unfold fetch_json. rewrite Hs. cbn [app tl]. rewrite Hd.
    unfold bind at 1. rewrite Hc. cbn [eval ret]. unfold bind at 1. rewrite Hp. cbn [eval ret].
    rewrite Ht. cbn [negb]. unfold log, emit. cbn [script db trace].
    rewrite (IH _ answers rest); cbn [script db trace]; auto.
    unfold skips. cbn [flat_map app]. rewrite <- !app_assoc. reflexivity.
Qed.

Lemma wd_id_skips csrftoken rows : forall w answers rest,
  script w = answers ++ rest ->
  List.length answers = List.length rows ->
  forallb (has_claim WdId.property) answers = true ->
  WdId.edit_loop csrftoken rows w =
    (Done tt, mkWorld rest (db w) (trace w ++ skips WdId.property rows)).
Proof.
  induction rows as [|it more IH]; intros w answers rest Hs Hl Ha.
  - destruct answers; [|discriminate Hl]. simpl in *. rewrite app_nil_r.
    destruct w; simpl in *. subst. reflexivity.
  - destruct answers as [|o answers]; [discriminate Hl|].
    simpl in Ha. apply andb_true_iff in Ha as [Ho Ha].
    apply has_claim_answer in Ho as (r & data & claims & claim & -> & Hd & Hc & Hu & Hp & Ht).
    cbn [WdId.edit_loop]. unfold bind at 1. unfold WdId.edit.
    unfold bind at 1. unfold fetch_json. rewrite Hs. cbn [app tl]. rewrite Hd.
    unfold bind at 1. rewrite Hc. cbn [eval ret]. rewrite Hu.
    unfold bind at 1. rewrite Hp. cbn [eval ret].
    rewrite Ht. cbn [negb]. unfold log, emit. cbn [script db trace].
    rewrite (IH _ answers rest); cbn [script db trace]; auto.
    unfold skips. cbn [flat_map app]. rewrite <- !app_assoc. reflexivity.
Qed.

(** X21. A run over entities that carry the claim writes nothing.  In
    both [wd:id] revisions, when every entity of the list answers with
    a claim for [P6766], the loop completes after one read per row, in
    the order of the list, each followed by its [Skipping] line: no form
    is posted. *)
Theorem claimed_entities_are_only_read
    (csrftoken : value) (rows : list item) (w : world) (answers rest : list outcome)
    (answered : script w = answers ++ rest)
    (one_each : List.length answers = List.length rows)
    (claimed : forallb (has_claim "P6766") answers = true) :
  IndexJs.edit_loop csrftoken rows w =
    (Done tt, mkWorld rest (db w) (trace w ++ skips "P6766" rows)) /\
  WdId.edit_loop csrftoken rows w =
    (Done tt, mkWorld rest (db w) (trace w ++ skips "P6766" rows)) /\
  writes (skips "P6766" rows) = [] /\
  reads (skips "P6766" rows) = List.map other_id rows.
Proof.
  split; [apply (index_js_skips csrftoken rows w answers rest); assumption|].
  split; [apply (wd_id_skips csrftoken rows w answers rest); assumption|].
  clear. split; (induction rows as [|it more IH]; [reflexivity|]).
  - change (skips "P6766" (it :: more))
      with ([Direct PlainFetch (claimsUrl "P6766" (other_id it));
             Log [Lit "Skipping "; Sub (other_id it)]] ++ skips "P6766" more).
    unfold writes in *. rewrite flat_map_app, IH. reflexivity.
  - change (skips "P6766" (it :: more))
      with ([Direct PlainFetch (claimsUrl "P6766" (other_id it));
             Log [Lit "Skipping "; Sub (other_id it)]] ++ skips "P6766" more).
    unfold reads in *. rewrite flat_map_app, IH. reflexivity.
Qed.

Lemma claimed_entities_are_only_read_witness :
  WdId.edit_loop (VStr "c0") Sample.wd_rows
    (Sample.start [Sample.ok200 (VObj [("claims", VObj [("P6766", VArr [Sample.string_claim "85633793"])])]);
                   Sample.ok200 (VObj [("claims", VObj [("P6766", VArr [Sample.string_claim "85633041"])])])]
       Sample.empty)
  = (Done tt, mkWorld [] Sample.empty (skips "P6766" Sample.wd_rows)) /\
  reads (skips "P6766" Sample.wd_rows) = [VStr "Q30"; VStr "Q16"].
Proof.
  pose proof (claimed_entities_are_only_read (VStr "c0") Sample.wd_rows
    (Sample.start [Sample.ok200 (VObj [("claims", VObj [("P6766", VArr [Sample.string_claim "85633793"])])]);
                   Sample.ok200 (VObj [("claims", VObj [("P6766", VArr [Sample.string_claim "85633041"])])])]
       Sample.empty)
    [Sample.ok200 (VObj [("claims", VObj [("P6766", VArr [Sample.string_claim "85633793"])])]);
     Sample.ok200 (VObj [("claims", VObj [("P6766", VArr [Sample.string_claim "85633041"])])])]
    [] eq_refl eq_refl eq_refl) as (_ & H & _ & _).
  split; [exact H|reflexivity].
Defined.

(** ** The [gn:id] revision *)

(** X22. A place type outside the table stops the run.  When the place
    type of a record has no entry in [placetypes] and the entity found
    for it has at least one [P31] claim, the lookup of line 410 throws:
    the loop ends with a [TypeError] after the search and the read of the
    claims, the entity is not written to, and the records after it are
    not looked at. *)
Theorem unknown_place_type_stops_the_run
    (pt : GnId.placetypes) (edited : jsset) (it : item) (more : list item) (w : world)
    (ios : list io) (searchData : value) (rest : list outcome) (entityId : value)
    (ios1 : list io) (instanceData : value) (rest1 : list outcome)
    (claims c class : value) (classes : list value)
    (searched_ok : Transport.backoffFetch
                     (searchUrl GnId.otherProperty GnId.wofProperty (other_id it))
                     (script w) 0 = (ios, Done searchData, rest))
    (found : GnId.no_entity_found searchData = Ok false)
    (first_hit : GnId.first_title searchData = Ok entityId)
    (not_edited : set_has edited entityId = false)
    (claims_answer : Transport.backoffFetch (claimsUrl GnId.instanceProperty entityId) rest 0
                     = (ios1, Done instanceData, rest1))
    (claims_read_back : get instanceData "claims" = Ok claims)
    (defined : is_undefined claims = false)
    (typed : get claims "P31" = Ok c)
    (some : truthy c = true)
    (instance_of : JS.map c GnId.claim_class = Ok (class :: classes))
    (unknown : match placetype it with VStr p => assoc p pt | _ => None end = None) :
  GnId.edit_loop pt edited (it :: more) w =
    (Threw (TypeError "Cannot read property 'has' of undefined"),
     mkWorld rest1 (db w)
       (trace w ++
        [Call BackoffFetch (searchUrl GnId.otherProperty GnId.wofProperty (other_id it))
           ios (Done searchData);
         Call BackoffFetch (claimsUrl GnId.instanceProperty entityId) ios1 (Done instanceData)])).
Proof.
  assert (R : GnId.rejected pt (placetype it) claims
              = Throw (TypeError "Cannot read property 'has' of undefined")).
  { unfold GnId.rejected, GnId.instanceProperty. rewrite typed. cbn [rbind]. rewrite some.
    rewrite instance_of. cbn [rbind List.length]. 
    destruct (0 <? Z.of_nat (S (List.length classes))) eqn:L; [|apply Z.ltb_ge in L; lia].
    cbn [find_in]. unfold GnId.accepts.
    destruct (placetype it); try reflexivity. rewrite unknown. reflexivity. }
  cbn [GnId.edit_loop]. unfold bind at 1.
  unfold GnId.edit, GnId.backoff, bind, call, log, emit, eval, ret.
  rewrite searched_ok. cbn [fst snd script db trace]. rewrite found, first_hit.
  cbn [fst snd script db trace]. rewrite not_edited. cbn [fst snd script db trace].
  rewrite claims_answer. cbn [fst snd script db trace]. rewrite claims_read_back.
  cbn [fst snd script db trace]. rewrite defined. rewrite R.
  cbn [fst snd script db trace]. rewrite <- !app_assoc. reflexivity.
Qed.

Lemma unknown_place_type_stops_the_run_witness :
  Transport.backoffFetch
    (searchUrl GnId.otherProperty GnId.wofProperty
       (other_id (mkItem (VNum 101) (VStr "custom") (VNum 3333))))
    (script (Sample.start [Sample.ok200 (Sample.hits ["Q60"]);
                           Sample.ok200 Sample.city_and_company] Sample.empty)) 0
  = ([Fetch PlainFetch (searchUrl GnId.otherProperty GnId.wofProperty (VNum 3333))],
     Done (Sample.hits ["Q60"]), [Sample.ok200 Sample.city_and_company]) /\
  match placetype (mkItem (VNum 101) (VStr "custom") (VNum 3333)) with
  | VStr p => assoc p Sample.acceptance
  | _ => None
  end = None /\
  GnId.edit_loop Sample.acceptance [] [mkItem (VNum 101) (VStr "custom") (VNum 3333);
                                       Sample.locality_3333]
    (Sample.start [Sample.ok200 (Sample.hits ["Q60"]);
                   Sample.ok200 Sample.city_and_company] Sample.empty)
  = (Threw (TypeError "Cannot read property 'has' of undefined"),
     mkWorld [] Sample.empty
       [Call BackoffFetch (searchUrl GnId.otherProperty GnId.wofProperty (VNum 3333))
          [Fetch PlainFetch (searchUrl GnId.otherProperty GnId.wofProperty (VNum 3333))]
          (Done (Sample.hits ["Q60"]));
        Call BackoffFetch (claimsUrl GnId.instanceProperty (VStr "Q60"))
          [Fetch PlainFetch (claimsUrl GnId.instanceProperty (VStr "Q60"))]
          (Done Sample.city_and_company)]).
Proof.
  split; [reflexivity|]. split; [reflexivity|].
  apply (unknown_place_type_stops_the_run Sample.acceptance []
           (mkItem (VNum 101) (VStr "custom") (VNum 3333)) [Sample.locality_3333]
           (Sample.start [Sample.ok200 (Sample.hits ["Q60"]);
                          Sample.ok200 Sample.city_and_company] Sample.empty)
           [Fetch PlainFetch (searchUrl GnId.otherProperty GnId.wofProperty (VNum 3333))]
           (Sample.hits ["Q60"]) [Sample.ok200 Sample.city_and_company] (VStr "Q60")
           [Fetch PlainFetch (claimsUrl GnId.instanceProperty (VStr "Q60"))]
           Sample.city_and_company []
           (VObj [("P31", VArr [Sample.item_claim "Q515"; Sample.item_claim "Q4830453"])])
           (VArr [Sample.item_claim "Q515"; Sample.item_claim "Q4830453"])
           (VStr "Q515") [VStr "Q4830453"]); reflexivity.
Defined.

Lemma gn_edit_spares_the_history pt edited it :
  hoare (fun _ => True)
    (fun ev =>
       (forall e, claims_read ev = Some e -> set_has edited e = false) /\
       (forall e i k, written ev = Some (e, i, k) -> set_has edited e = false))
    (GnId.edit pt edited it) (fun _ => True).
Proof.
  unfold GnId.edit.
  eapply hoare_bind; [apply hoare_call; intros; split; intros; discriminate|intros searchData _].
  eapply hoare_bind; [apply hoare_eval_any|intros none _].
  destruct none; [apply hoare_log; split; intros; discriminate|].
  eapply hoare_bind; [apply hoare_eval_any|intros entityId _].
  destruct (set_has edited entityId) eqn:He; [apply hoare_log; split; intros; discriminate|].
  eapply hoare_bind; [apply hoare_call; intros ios r|intros instanceData _].
  { split.
    - intros e E. inversion E; subst. exact He.
    - intros e i k E. discriminate E. }
  eapply hoare_bind; [apply hoare_eval_any|intros claims _].
  destruct (is_undefined claims).
  { eapply hoare_bind; [apply hoare_log; split; intros; discriminate|intros _ _].
    apply hoare_emit_any; split; intros; discriminate. }
  eapply hoare_bind; [apply hoare_eval_any|intros rej _].
  destruct rej as [instanceOf|]; [apply hoare_log; split; intros; discriminate|].
  eapply hoare_bind; [apply hoare_log; split; intros; discriminate|intros _ _].
  eapply hoare_bind.
  { unfold GnId.getToken.
    eapply hoare_bind; [apply hoare_call; intros; split; intros; discriminate
                       |intros; apply hoare_eval_any]. }
  intros token _.
  eapply hoare_bind;
    [apply hoare_call; intros ios r|intros _ _; apply hoare_log; split; intros; discriminate].
  split.
  - intros e E. discriminate E.
  - intros e i k E. inversion E; subst. exact He.
Qed.

(** X23. The [gn:id] revision spares the entities of the history.
    Whatever the distributions hold and whatever the searches return,
    the run neither reads the [P31] claims of an entity of [edited] nor
    writes to one. *)
Theorem gn_id_spares_the_history pick pt edited files w :
  exists evs,
    trace (snd (GnId.query_and_edit pick pt edited files w)) = trace w ++ evs /\
    Forall (fun ev =>
      (forall e, claims_read ev = Some e -> set_has edited e = false) /\
      (forall e i k, written ev = Some (e, i, k) -> set_has edited e = false)) evs.
Proof.
  assert (H : hoare (fun _ => True)
                (fun ev =>
                   (forall e, claims_read ev = Some e -> set_has edited e = false) /\
                   (forall e i k, written ev = Some (e, i, k) -> set_has edited e = false))
                (GnId.query_and_edit pick pt edited files) (fun _ => True)).
  { unfold GnId.query_and_edit.
    eapply hoare_bind with (Q := fun _ => True).
    - generalize (@nil item). induction files as [|file files IH]; intros rows; simpl.
      + apply hoare_ret_any.
      + eapply hoare_bind; [apply hoare_log; split; intros; discriminate|intros _ _].
        eapply hoare_bind; [apply hoare_log; split; intros; discriminate|intros _ _].
        apply IH.
    - intros rows _.
      eapply hoare_bind; [apply hoare_log; split; intros; discriminate|intros _ _].
      induction rows as [|it rows IH]; simpl.
      + apply hoare_ret_any.
      + eapply hoare_bind; [apply gn_edit_spares_the_history|intros _ _; exact IH]. }
  destruct (H w Logic.I) as (_ & (evs & E & Hevs) & _).
  exists evs. split; [exact E|exact Hevs].
Qed.

(** ** The inventory *)

Lemma map_has_get {A} (m : jsmap A) k :
  map_has m k = true -> exists a, map_get m k = Some a.
Proof.
  unfold map_has. induction m as [|[k' a'] m IH]; simpl; [discriminate|].
  destruct (same_value_zero k k'); simpl; eauto.
Qed.

Lemma map_get_has {A} (m : jsmap A) k a :
  map_get m k = Some a -> map_has m k = true.
Proof.
  unfold map_has. induction m as [|[k' a'] m IH]; simpl; [discriminate|].
  destruct (same_value_zero k k'); simpl; auto.
Qed.

Lemma map_get_In {A} (m : jsmap A) k a :
  map_get m k = Some a -> In (k, a) m.
Proof.
  induction m as [|[k' a'] m IH]; simpl; [discriminate|].
  destruct (same_value_zero k k') eqn:E; intros H.
  - apply same_value_zero_eq in E. inversion H. subst. auto.
  - auto.
Qed.

Lemma map_set_Forall {A} (Q : value * A -> Prop) (m : jsmap A) k a :
  Forall Q m -> Q (k, a) -> Forall Q (map_set m k a).
Proof.
  induction m as [|[k' a'] m IH]; simpl; intros Hm Ha.
  - constructor; auto.
  - inversion Hm; subst. destruct (same_value_zero k k'); constructor; auto.
Qed.

Section InventoryFacts.

Variable fromISO : value -> option Z.

Lemma dated_instant x :
  Inventory.dated fromISO x = true -> exists t, Inventory.instant fromISO x = Some t.
Proof.
  unfold Inventory.dated, Inventory.instant.
  destruct (get x "last_modified") as [d|e]; [|discriminate].
  destruct (fromISO d) as [t|]; [eauto|discriminate].
Qed.

Lemma kept_set m seen y ry :
  Inventory.kept fromISO m seen -> get y "repo" = Ok ry ->
  (forallb (Inventory.dated fromISO) (seen ++ [y]) = true ->
   forall f t t', map_get m ry = Some f -> Inventory.instant fromISO f = Some t' ->
                  Inventory.instant fromISO y = Some t -> t' <= t) ->
  Inventory.kept fromISO (map_set m ry y) (seen ++ [y]).
Proof.
  intros (G1 & G2 & G3 & G4) Hy Hnew. repeat split.
  - apply distinct_keys_set, G1.
  - apply map_set_Forall.
    + eapply Forall_impl; [|exact G2]. intros e [Hin Hr]. split; [|exact Hr].
      apply in_or_app. auto.
    + simpl. split; [apply in_or_app; simpl; auto|exact Hy].
  - intros x Hx. apply in_app_or in Hx as [Hx|[<-|[]]].
    + destruct (G3 x Hx) as (r & Hr & Hh). exists r. split; [exact Hr|].
      intros Hp. rewrite map_has_set, (Hh Hp). reflexivity.
    + exists ry. split; [exact Hy|]. intros Hp. rewrite map_has_set, Hp. apply orb_true_r.
  - intros Hd x r Hx Hr Hp.
    pose proof Hd as Hd'. rewrite forallb_app in Hd'. apply andb_true_iff in Hd' as [Hds Hdy].
    simpl in Hdy. rewrite andb_true_r in Hdy.
    destruct (dated_instant y Hdy) as (ty & Hty).
    apply in_app_or in Hx as [Hx|[<-|[]]].
    + destruct (G4 Hds x r Hx Hr Hp) as (f & t & t' & Hf & Hif & Hix & Hle).
      destruct (same_value_zero r ry) eqn:E.
      * apply same_value_zero_eq in E. subst ry.
        exists y, t, ty. rewrite map_get_set_same by exact Hp.
        repeat split; auto. pose proof (Hnew Hd f ty t' Hf Hif Hty). lia.
      * exists f, t, t'. rewrite map_get_set_other by exact E. auto.
    + rewrite Hy in Hr. inversion Hr; subst r.
      exists y, ty, ty. rewrite map_get_set_same by exact Hp. repeat split; auto. lia.
Qed.

Lemma kept_same m seen y ry f :
  Inventory.kept fromISO m seen -> get y "repo" = Ok ry -> map_get m ry = Some f ->
  (forallb (Inventory.dated fromISO) (seen ++ [y]) = true ->
   forall t t', Inventory.instant fromISO f = Some t' ->
                Inventory.instant fromISO y = Some t -> t <= t') ->
  Inventory.kept fromISO m (seen ++ [y]).
Proof.
  intros (G1 & G2 & G3 & G4) Hy Hf Hold. repeat split.
  - exact G1.
  - eapply Forall_impl; [|exact G2]. intros e [Hin Hr]. split; [|exact Hr].
    apply in_or_app. auto.
  - intros x Hx. apply in_app_or in Hx as [Hx|[<-|[]]]; [apply G3, Hx|].
    exists ry. split; [exact Hy|]. intros _. eapply map_get_has, Hf.
  - intros Hd x r Hx Hr Hp.
    pose proof Hd as Hd'. rewrite forallb_app in Hd'. apply andb_true_iff in Hd' as [Hds Hdy].
    simpl in Hdy. rewrite andb_true_r in Hdy.
    destruct (dated_instant y Hdy) as (ty & Hty).
    apply in_app_or in Hx as [Hx|[<-|[]]]; [apply (G4 Hds x r Hx Hr Hp)|].
    rewrite Hy in Hr. inversion Hr; subst r.
    assert (Hfin : In f seen).
    { apply map_get_In in Hf. rewrite Forall_forall in G2. apply (G2 _ Hf). }
    assert (Hdf : Inventory.dated fromISO f = true).
    { rewrite forallb_forall in Hds. apply Hds, Hfin. }
    destruct (dated_instant f Hdf) as (tf & Htf).
    exists f, ty, tf. repeat split; auto.
Qed.

Lemma keep_kept m seen y m' :
  Inventory.kept fromISO m seen -> Inventory.keep fromISO m y = Ok m' ->
  Inventory.kept fromISO m' (seen ++ [y]).
Proof.
  intros G. unfold Inventory.keep.
  destruct (get y "repo") as [ry|e] eqn:Hy; [|discriminate]. cbn [rbind].
  destruct (map_has m ry) eqn:Hh; cbn [negb].
  - destruct (map_has_get m ry Hh) as (f & Hf). rewrite Hf.
    destruct (get f "last_modified") as [df|e] eqn:Hdf; [|discriminate]. cbn [rbind].
    destruct (get y "last_modified") as [dy|e] eqn:Hdy; [|discriminate]. cbn [rbind].
    unfold Inventory.earlier.
    destruct (fromISO df) as [tf|] eqn:Etf; [destruct (fromISO dy) as [ty|] eqn:Ety|].
    + destruct (tf <? ty) eqn:L; intros E; inversion E; subst m'.
      * apply kept_set; auto. intros _ f' t t' Hf' Hi' Hi.
        rewrite Hf in Hf'. inversion Hf'; subst f'.
        unfold Inventory.instant in *. rewrite Hdf in Hi'. rewrite Hdy in Hi.
        rewrite Etf in Hi'. rewrite Ety in Hi. inversion Hi'. inversion Hi. subst.
        apply Z.ltb_lt in L. lia.
      * apply (kept_same m seen y ry f); auto. intros _ t t' Hi' Hi.
        unfold Inventory.instant in *. rewrite Hdf in Hi'. rewrite Hdy in Hi.
        rewrite Etf in Hi'. rewrite Ety in Hi. inversion Hi'. inversion Hi. subst.
        apply Z.ltb_ge in L. exact L.
    + intros E; inversion E; subst m'.
      apply (kept_same m seen y ry f); auto. intros _ t t' Hi' Hi.
      unfold Inventory.instant in Hi. rewrite Hdy, Ety in Hi. discriminate.
    + intros E; inversion E; subst m'.
      apply (kept_same m seen y ry f); auto. intros _ t t' Hi' Hi.
      unfold Inventory.instant in Hi'. rewrite Hdf, Etf in Hi'. discriminate.
  - intros E; inversion E; subst m'.
    apply kept_set; auto. intros _ f t t' Hf. apply map_get_has in Hf. congruence.
Qed.

Lemma reduce_kept l : forall m seen m',
  Inventory.kept fromISO m seen -> Inventory.reduce fromISO l m = Ok m' ->
  Inventory.kept fromISO m' (seen ++ l).
Proof.
  induction l as [|y l IH]; simpl; intros m seen m' G E.
  - inversion E; subst. rewrite app_nil_r. exact G.
  - destruct (Inventory.keep fromISO m y) as [m1|e] eqn:K; [|discriminate]. cbn [rbind] in E.
    replace (seen ++ y :: l) with ((seen ++ [y]) ++ l) by (rewrite <- app_assoc; reflexivity).
    eapply IH; [|exact E]. eapply keep_kept; eauto.
Qed.

Lemma latest_kept data m :
  Inventory.latest fromISO data = Ok m -> exists l, data = VArr l /\ Inventory.kept fromISO m l.
Proof.
  destruct data as [| |b|n| |s|l|fs]; try discriminate. simpl. intros E.
  exists l. split; [reflexivity|].
  apply (reduce_kept l [] [] m); [|exact E].
  repeat split; auto; try constructor; intros; contradiction.
Qed.

End InventoryFacts.

(** X24. One file per repository.  When the reduction of the inventory
    completes, [data] is an array, no two entries of the map have the
    same key, every entry is an item of [data] filed under its own
    [repo], and every item of [data] whose [repo] is a string, a number,
    a boolean or [null] has its repository in the map; [files] is the
    list of the values of that map. *)
Theorem inventory_lists_each_repository_once
    (fromISO : value -> option Z) (data : value) (m : jsmap value)
    (reduced : Inventory.latest fromISO data = Ok m) :
  Inventory.files fromISO data = Ok (map_values m) /\
  exists l, data = VArr l /\
    distinct_keys m = true /\
    Forall (fun e => In (snd e) l /\ get (snd e) "repo" = Ok (fst e)) m /\
    forall x, In x l ->
      exists r, get x "repo" = Ok r /\ (same_value_zero r r = true -> map_has m r = true).
Proof.
  split; [unfold Inventory.files; rewrite reduced; reflexivity|].
  destruct (latest_kept fromISO data m reduced) as (l & -> & G1 & G2 & G3 & _).
  exists l. auto.
Qed.

Lemma inventory_lists_each_repository_once_witness :
  Inventory.latest Inventory.days (VArr Inventory.sample)
  = Ok [(VStr "whosonfirst-data-admin-us",
         Inventory.listing "whosonfirst-data-admin-us" "us-0701.db" "2019-07-01T00:00:00Z");
        (VStr "whosonfirst-data-admin-ca",
         Inventory.listing "whosonfirst-data-admin-ca" "ca-0701.db" "2019-07-01T00:00:00Z")] /\
  Inventory.files Inventory.days (VArr Inventory.sample)
  = Ok [Inventory.listing "whosonfirst-data-admin-us" "us-0701.db" "2019-07-01T00:00:00Z";
        Inventory.listing "whosonfirst-data-admin-ca" "ca-0701.db" "2019-07-01T00:00:00Z"].
Proof.
  split; [reflexivity|].
  exact (proj1 (inventory_lists_each_repository_once Inventory.days (VArr Inventory.sample)
                  [(VStr "whosonfirst-data-admin-us",
                    Inventory.listing "whosonfirst-data-admin-us" "us-0701.db"
                      "2019-07-01T00:00:00Z");
                   (VStr "whosonfirst-data-admin-ca",
                    Inventory.listing "whosonfirst-data-admin-ca" "ca-0701.db"
                      "2019-07-01T00:00:00Z")] eq_refl)).
Defined.

(** X25. The latest listing wins.  When every item of the inventory has
    a valid date, the entry kept for the repository of an item is an item
    of the inventory for the same repository that is no older than it. *)
Theorem inventory_keeps_the_latest_listing
    (fromISO : value -> option Z) (l : list value) (m : jsmap value) (x r : value)
    (reduced : Inventory.latest fromISO (VArr l) = Ok m)
    (valid : forallb (Inventory.dated fromISO) l = true)
    (listed : In x l)
    (repo : get x "repo" = Ok r)
    (primitive : same_value_zero r r = true) :
  exists f t t',
    map_get m r = Some f /\ In f l /\ get f "repo" = Ok r /\
    Inventory.instant fromISO f = Some t' /\ Inventory.instant fromISO x = Some t /\ t <= t'.
Proof.
  destruct (latest_kept fromISO (VArr l) m reduced) as (l' & E & G1 & G2 & G3 & G4).
  inversion E; subst l'.
  destruct (G4 valid x r listed repo primitive) as (f & t & t' & Hf & Hif & Hix & Hle).
  exists f, t, t'. repeat split; auto.
  - apply map_get_In in Hf. rewrite Forall_forall in G2. apply (G2 _ Hf).
  - apply map_get_In in Hf. rewrite Forall_forall in G2. apply (G2 _ Hf).
Qed.

Lemma inventory_keeps_the_latest_listing_witness :
  forallb (Inventory.dated Inventory.days) Inventory.sample = true /\
  exists f t t',
    map_get [(VStr "whosonfirst-data-admin-us",
              Inventory.listing "whosonfirst-data-admin-us" "us-0701.db" "2019-07-01T00:00:00Z");
             (VStr "whosonfirst-data-admin-ca",
              Inventory.listing "whosonfirst-data-admin-ca" "ca-0701.db" "2019-07-01T00:00:00Z")]
      (VStr "whosonfirst-data-admin-us") = Some f /\
    In f Inventory.sample /\ get f "repo" = Ok (VStr "whosonfirst-data-admin-us") /\
    Inventory.instant Inventory.days f = Some t' /\
    Inventory.instant Inventory.days
      (Inventory.listing "whosonfirst-data-admin-us" "us-0601.db" "2019-06-01T00:00:00Z")
    = Some t /\ t <= t'.
Proof.
  split; [reflexivity|].
  apply (inventory_keeps_the_latest_listing Inventory.days Inventory.sample
           [(VStr "whosonfirst-data-admin-us",
             Inventory.listing "whosonfirst-data-admin-us" "us-0701.db" "2019-07-01T00:00:00Z");
            (VStr "whosonfirst-data-admin-ca",
             Inventory.listing "whosonfirst-data-admin-ca" "ca-0701.db" "2019-07-01T00:00:00Z")]
           (Inventory.listing "whosonfirst-data-admin-us" "us-0601.db" "2019-06-01T00:00:00Z")
           (VStr "whosonfirst-data-admin-us")).
  - reflexivity.
  - reflexivity.
  - simpl. auto.
  - reflexivity.
  - reflexivity.
Defined.

(** ** The transports of [index.js] and [part_000] *)

Lemma early_throttle_step input o rest :
  is_throttle o = true ->
  IndexJs.retryFetch input (o :: rest) =
    (let '(log, r, rest') := IndexJs.retryFetch input rest in
     (Fetch CookieFetch input
        :: ConsoleLog (lit "Request Throttled, Retrying in 60 seconds")
        :: Timeout 60000 :: log, r, rest')) /\
  WdId.retryFetch input (o :: rest) =
    (let '(log, r, rest') := WdId.retryFetch input rest in
     (Fetch CookieFetch input
        :: ConsoleLog (lit "Request Throttled, Retrying in 60 seconds")
        :: Timeout 60000 :: log, r, rest')).
Proof.
  destruct o as [msg|response]; simpl; [discriminate|].
  destruct (json response) as [data|] eqn:decoded; [|discriminate]. intros throttled.
  destruct (envelope_names_shape _ _ throttled)
    as (error & messages & m & He & Hte & Hm & Htm & Hf & Ht).
  split.
  - unfold decode, IndexJs.envelope_block. rewrite decoded. simpl.
    rewrite He. simpl. rewrite Hte, Hm. simpl. rewrite Htm, Hf. simpl. rewrite Ht.
    reflexivity.
  - unfold decode, WdId.envelope_block. rewrite decoded. simpl.
    rewrite He. simpl. rewrite Hte, Hm. simpl. rewrite Htm, Hf. simpl. rewrite Ht.
    reflexivity.
Qed.

(** X26. The transports of [index.js] and [part_000] catch nothing.
    After any number of throttled answers, each waited out for sixty
    seconds, a connection failure or a body that is not JSON leaves
    [retryFetch] as an exception: one request more than there were
    throttled answers has been sent, and nothing is retried after the
    failure. *)
Theorem early_transports_let_failures_through
    (input : request) (throttled : list outcome) (last : outcome) (e : exn)
    (rest : list outcome)
    (slowed : forallb is_throttle throttled = true)
    (failed : failure last = Some e) :
  exists ios,
    IndexJs.retryFetch input (throttled ++ last :: rest) = (ios, Threw e, rest) /\
    WdId.retryFetch input (throttled ++ last :: rest) = (ios, Threw e, rest) /\
    attempts ios = S (List.length throttled) /\
    timeouts ios = repeat 60000 (List.length throttled).
Proof.
  induction throttled as [|o throttled IH].
  - exists [Fetch CookieFetch input]. cbn [app].
    destruct last as [msg|r]; simpl in failed.
    + inversion failed; subst. repeat split; reflexivity.
    + cbn [IndexJs.retryFetch WdId.retryFetch].
      destruct (decode r) as [data|e'] eqn:D; [discriminate|]. inversion failed; subst.
      cbn [rbind]. repeat split; reflexivity.
  - simpl in slowed. apply andb_true_iff in slowed as [Ho Hs].
    destruct (IH Hs) as (ios & Hi & Hw & Ha & Ht).
    destruct (early_throttle_step input o (throttled ++ last :: rest) Ho) as [Si Sw].
    exists (Fetch CookieFetch input
              :: ConsoleLog (lit "Request Throttled, Retrying in 60 seconds")
              :: Timeout 60000 :: ios).
    cbn [app]. rewrite Si, Sw, Hi, Hw. repeat split.
    + unfold attempts in *. cbn. rewrite Ha. reflexivity.
    + unfold timeouts in *. cbn. rewrite Ht. reflexivity.
Qed.

Lemma early_transports_let_failures_through_witness :
  forallb is_throttle [Sample.ok200 (Sample.failed "actionthrottledtext")] = true /\
  failure (NetworkError "socket hang up") = Some (FetchError "socket hang up") /\
  exists ios,
    IndexJs.retryFetch csrfTokenUrl
      ([Sample.ok200 (Sample.failed "actionthrottledtext")]
         ++ NetworkError "socket hang up" :: [Sample.ok200 Sample.created])
    = (ios, Threw (FetchError "socket hang up"), [Sample.ok200 Sample.created]) /\
    WdId.retryFetch csrfTokenUrl
      ([Sample.ok200 (Sample.failed "actionthrottledtext")]
         ++ NetworkError "socket hang up" :: [Sample.ok200 Sample.created])
    = (ios, Threw (FetchError "socket hang up"), [Sample.ok200 Sample.created]) /\
    attempts ios = S (List.length [Sample.ok200 (Sample.failed "actionthrottledtext")]) /\
    timeouts ios
    = repeat 60000 (List.length [Sample.ok200 (Sample.failed "actionthrottledtext")]).
Proof.
  split; [reflexivity|]. split; [reflexivity|].
  apply (early_transports_let_failures_through csrfTokenUrl
           [Sample.ok200 (Sample.failed "actionthrottledtext")]
           (NetworkError "socket hang up") (FetchError "socket hang up")
           [Sample.ok200 Sample.created]); reflexivity.
Defined.

(** ** The history requests of [part_000] *)

Lemma wd_contributions_posts loginFormData sc : forall params cont edited,
  param "list" params = Some (lit "usercontribs") ->
  Forall (fun ev => exists req,
            ev = Direct CookieFetch req /\ url req = api /\ method req = POST /\
            body req = loginFormData /\
            param "list" (searchParams req) = Some (lit "usercontribs"))
    (fst (fst (WdIdMain.contributions loginFormData sc params cont edited))).
Proof.
  induction sc as [|o sc IH]; intros params cont edited Hp; simpl;
    set (params' := if truthy cont then _ else params);
    (assert (Hp' : param "list" params' = Some (lit "usercontribs"))
      by (unfold params'; destruct (truthy cont); auto;
          rewrite param_set_other by discriminate; exact Hp));
    (assert (Hreq : Forall (fun ev => exists req,
                        ev = Direct CookieFetch req /\ url req = api /\ method req = POST /\
                        body req = loginFormData /\
                        param "list" (searchParams req) = Some (lit "usercontribs"))
                      [Direct CookieFetch (mkRequest api params' POST loginFormData)])
      by (constructor; [eexists; repeat split; auto|constructor]));
    destruct (GpId.is_false cont); simpl; try (constructor; fail); auto.
  destruct o as [msg|r]; simpl; auto.
  destruct (rbind (decode r) (fun data => GpId.page data edited)) as [[cont' edited']|e];
    simpl; auto.
  specialize (IH params' cont' edited' Hp').
  destruct (WdIdMain.contributions loginFormData sc params' cont' edited') as [[evs c] rest].
  simpl in *. constructor; auto. inversion Hreq; auto.
Qed.

(** X27. The login form travels with every page of the history.  In
    the revision of [part_000] each request for a page of contributions
    is a [POST] to the API whose body is the form of the login, password
    included; nothing else is sent while the history is loaded. *)
Theorem history_pages_carry_the_login_form (PASSWORD logintoken : value) (w : world) :
  exists evs,
    trace (snd (WdIdMain.loadEdited (body (loginRequest PASSWORD logintoken)) w))
    = trace w ++ evs /\
    Forall (fun ev => exists req,
              ev = Direct CookieFetch req /\ url req = api /\ method req = POST /\
              param "list" (searchParams req) = Some (lit "usercontribs") /\
              param "lgname" (body req) = Some (lit "Q23679") /\
              param "lgpassword" (body req) = Some (sub PASSWORD) /\
              param "lgtoken" (body req) = Some (sub logintoken)) evs.
Proof.
  unfold WdIdMain.loadEdited.
  pose proof (wd_contributions_posts (body (loginRequest PASSWORD logintoken)) (script w)
                (searchParams userContribsUrl) VNull [] eq_refl) as H.
  destruct (WdIdMain.contributions (body (loginRequest PASSWORD logintoken)) (script w)
              (searchParams userContribsUrl) VNull []) as [[evs c] rest].
  simpl in H. exists evs. split; [reflexivity|].
  eapply Forall_impl; [|exact H].
  intros ev (req & -> & Hu & Hm & Hb & Hl). exists req. rewrite Hb. repeat split; auto.
Qed.
